(** * HostScore: the web client's API layer, results view, page controller
    and /assess proxy, with the scoring and checkout core they talk to.

    The first part embeds the TypeScript sources:
    - [JsString], [Js] : the JavaScript strings, values and operators in use;
    - [Api]     : [lib/api.ts] ([withBase], the [map*] functions,
                  [assessListing], [fetchSession]);
    - [Results] : the fix slots of the assessment results component;
    - [Page]    : the submission handlers of [routes/+page.svelte];
    - [Proxy]   : the [POST] handler of [routes/assess/+server.ts];
    - [Scoring], [Checkout] : the overall score and the checkout
                  reconciliation of the backend, after the specification.
    The second part states and proves their properties. *)

From Stdlib Require Import String Ascii List ZArith QArith Bool Lia Lqa.
From stdpp Require Import gmap strings list fin_maps.

Import ListNotations.
Set Warnings "-register-all".
Local Open Scope string_scope.
Local Open Scope list_scope.

(* ===================================================================== *)
(** * JavaScript strings *)
(* ===================================================================== *)

Module JsString.

(** [s.startsWith(p)]. *)
Definition startsWith (s p : string) : bool := String.prefix p s.

Definition is_slash (c : ascii) : bool := Ascii.eqb c "/"%char.

Definition is_empty (s : string) : bool :=
  match s with EmptyString => true | String _ _ => false end.

(** [s.replace(/\/+$/, '')]: the regular expression matches the maximal run
  of slashes that ends the string, and the run is replaced by nothing. *)
Fixpoint strip_trailing_slashes (s : string) : string :=
  match s with
  | EmptyString => EmptyString
  | String c r =>
    let r' := strip_trailing_slashes r in
    if is_slash c && is_empty r' then EmptyString else String c r'
  end.

Fixpoint ends_with_slash (s : string) : bool :=
  match s with
  | EmptyString => false
  | String c EmptyString => is_slash c
  | String _ r => ends_with_slash r
  end.

(** The path without its first character when that is a slash. *)
Definition drop_leading_slash (s : string) : string :=
  match s with
  | String c r => if is_slash c then r else s
  | EmptyString => s
  end.

(** White space of [String.prototype.trim] among the code units below 256. *)
Definition is_white_space (c : ascii) : bool :=
  let n := nat_of_ascii c in
  (Nat.leb 9 n && Nat.leb n 13) || Nat.eqb n 32 || Nat.eqb n 160.

Fixpoint trim_start (s : string) : string :=
  match s with
  | EmptyString => EmptyString
  | String c r => if is_white_space c then trim_start r else s
  end.

Fixpoint trim_end (s : string) : string :=
  match s with
  | EmptyString => EmptyString
  | String c r =>
    let r' := trim_end r in
    if is_white_space c && is_empty r' then EmptyString else String c r'
  end.

(** [s.trim()]. *)
Definition trim (s : string) : string := trim_end (trim_start s).

End JsString.

(* ===================================================================== *)
(** * JavaScript values *)
(* ===================================================================== *)

Module Js.
Import JsString.

(** The values [JSON.parse] produces, and [undefined].  An object is the list
    of its own properties; the first binding of a key is the one in force. *)
Inductive value : Type :=
| VUndefined
| VNull
| VBool (b : bool)
| VNum (q : Q)
| VStr (s : string)
| VArr (items : list value)
| VObj (fields : list (string * value)).

Fixpoint assoc {A : Type} (k : string) (fields : list (string * A)) : option A :=
  match fields with
  | [] => None
  | (k', v) :: rest => if String.eqb k k' then Some v else assoc k rest
  end.

Definition is_nullish (v : value) : bool :=
  match v with
  | VUndefined | VNull => true
  | _ => false
  end.

(** [v?.k], for a key [k] that no prototype defines (none of the keys the
    sources read is [length], an index or a method name). *)
Definition opt_member (v : value) (k : string) : value :=
  match v with
  | VObj fields =>
      match assoc k fields with
      | Some x => x
      | None => VUndefined
      end
  | _ => VUndefined
  end.

(** [a ?? b] *)
Definition nullish_or (a b : value) : value :=
  if is_nullish a then b else a.

(** [Boolean(v)], also the test of [if (v)], [v ? a : b] and [v || d]. *)
Definition truthy (v : value) : bool :=
  match v with
  | VUndefined | VNull => false
  | VBool b => b
  | VNum q => negb (Z.eqb (Qnum q) 0)
  | VStr s => negb (is_empty s)
  | VArr _ | VObj _ => true
  end.

(** [typeof v === 'number'] *)
Definition is_number (v : value) : bool :=
  match v with VNum _ => true | _ => false end.

(** What a function body can throw. *)
Inductive thrown (E : Type) : Type :=
| TypeError                (* member access on [null] or [undefined], call of a non-function *)
| SyntaxError              (* [response.json()] on a body that is not JSON *)
| NetworkError             (* [fetch] rejected *)
| Raised (e : E).          (* [throw e] of the source *)
Arguments TypeError {E}.
Arguments SyntaxError {E}.
Arguments NetworkError {E}.
Arguments Raised {E} e.

(** A completion: the returned value or what was thrown. *)
Inductive completion (E A : Type) : Type :=
| Return (a : A)
| Throw (t : thrown E).
Arguments Return {E A} a.
Arguments Throw {E A} t.

Definition bind {E A B : Type} (m : completion E A) (k : A -> completion E B)
  : completion E B :=
  match m with
  | Return a => k a
  | Throw t => Throw t
  end.

(** [v.k]: throws a TypeError on [null] and [undefined]. *)
Definition member {E : Type} (v : value) (k : string) : completion E value :=
  if is_nullish v then Throw TypeError else Return (opt_member v k).

Fixpoint map_completion {E A B : Type} (f : A -> completion E B) (l : list A)
  : completion E (list B) :=
  match l with
  | [] => Return []
  | a :: rest =>
      bind (f a) (fun b => bind (map_completion f rest) (fun bs => Return (b :: bs)))
  end.

End Js.

Declare Scope js_scope.
Delimit Scope js_scope with js.
Notation "x <- m ;; k" := (Js.bind m (fun x => k))
  (at level 100, m at next level, right associativity) : js_scope.

(* ===================================================================== *)
(** * lib/api.ts *)
(* ===================================================================== *)

Module Api.
Import JsString Js.
Local Open Scope js_scope.

(** ** lib/types.ts *)

Inductive ReportType : Type := free | paid.

Definition ReportType_tag (t : ReportType) : string :=
  match t with free => "free" | paid => "paid" end.

Record AssessmentPayload : Type := {
  url : string;
  reportType : ReportType;
  force : option bool          (* [force?: boolean] *)
}.

Record AssessmentError : Type := {
  error_status : Z;
  error_message : string
}.

(** [CreditSummary] and [SessionInfo] as they exist at run time: the fields
    hold whatever the payload held. *)
Record CreditSummary : Type := {
  available : value;
  nextExpiration : value
}.

Record SessionInfo : Type := {
  authenticated : bool;
  email : value;               (* [VUndefined] when the property is not set *)
  credits : option CreditSummary
}.

Definition outcome (A : Type) : Type := completion AssessmentError A.

(** ** The platform: requests and responses *)

Record RequestInit : Type := {
  method : string;
  headers : list (string * string);
  body : option value;         (* the value handed to [JSON.stringify] *)
  credentials : option string
}.

Record FetchCall : Type := {
  target : string;
  init : RequestInit
}.

Record Response : Type := {
  ok : bool;
  status : Z;
  statusText : string;
  json : option value          (* [None]: [response.json()] rejects *)
}.

(** [await response.json()] *)
Definition read_json (response : Response) : outcome value :=
  match json response with
  | Some data => Return data
  | None => Throw SyntaxError
  end.

(** ** The response mappers *)

(** An object literal all of whose property reads are on [v]: the first
    read throws when [v] is [null] or [undefined], otherwise every read
    succeeds. *)
Definition reading (v : value) (build : (string -> value) -> value) : outcome value :=
  if is_nullish v then Throw TypeError else Return (build (opt_member v)).

Definition mapSectionScores (scores : value) : outcome value :=
  reading scores (fun get => VObj [
    ("photos", get "photos");
    ("copy", get "copy");
    ("amenitiesClarity", get "amenities_clarity");
    ("trustSignals", get "trust_signals")]).

Definition mapPhotoStats (stats : value) : outcome value :=
  reading stats (fun get => VObj [
    ("count", get "count");
    ("coverage", nullish_or (get "coverage") (VArr []));
    ("missingCoverage", nullish_or (get "missing_coverage") (VArr []));
    ("keySpacesCovered", nullish_or (get "key_spaces_covered") (VNum 0));
    ("keySpacesTotal", nullish_or (get "key_spaces_total") (VNum 5));
    ("hasExteriorNight", VBool (truthy (get "has_exterior_night")));
    ("altTextRatio",
       if is_number (get "alt_text_ratio") then get "alt_text_ratio" else VNull);
    ("usesLegacyGallery", VBool (truthy (get "uses_legacy_gallery")));
    ("keySpaceMetricsSupported",
       nullish_or (get "key_space_metrics_supported") (VBool true))]).

Definition mapCopyStats (stats : value) : outcome value :=
  reading stats (fun get => VObj [
    ("wordCount", get "word_count");
    ("flesch", nullish_or (get "flesch") VNull);
    ("secondPersonPct", nullish_or (get "second_person_pct") VNull);
    ("hasSections", get "has_sections")]).

Definition mapAmenityAudit (audit : value) : outcome value :=
  reading audit (fun get => VObj [
    ("listed", nullish_or (get "listed") (VArr []));
    ("textHits", nullish_or (get "text_hits") (VArr []));
    ("likelyPresentNotListed", nullish_or (get "likely_present_not_listed") (VArr []));
    ("listedNoTextEvidence", nullish_or (get "listed_no_text_evidence") (VArr []))]).

Definition mapTrustSignals (signals : value) : outcome value :=
  reading signals (fun get => VObj [
    ("reviewCount", nullish_or (get "review_count") (VNum 0));
    ("reviewSnippets", nullish_or (get "review_snippets") (VArr []));
    ("hasHouseRules", VBool (truthy (get "has_house_rules")));
    ("houseRuleCount", nullish_or (get "house_rule_count") (VNum 0));
    ("hasSummary", VBool (truthy (get "has_summary")));
    ("summaryLength", nullish_or (get "summary_length") (VNum 0));
    ("descriptionLength", nullish_or (get "description_length") (VNum 0))]).

Definition mapTopFix (fix_ : value) : outcome value :=
  reading fix_ (fun get => VObj [
    ("impact", nullish_or (get "impact") (VStr "medium"));
    ("reason", get "reason");
    ("howToFix", get "how_to_fix")]).

(** [(fixes ?? []).map(...)]: only an array has a [map] to call. *)
Definition mapTopFixes (fixes : value) : outcome value :=
  match nullish_or fixes (VArr []) with
  | VArr items => mapped <- map_completion mapTopFix items ;; Return (VArr mapped)
  | _ => Throw TypeError
  end.

Definition mapAssessment (payload : value) : outcome value :=
  overall <- member payload "overall" ;;
  sectionScores <- mapSectionScores (opt_member payload "section_scores") ;;
  photoStats <- mapPhotoStats (opt_member payload "photo_stats") ;;
  copyStats <- mapCopyStats (opt_member payload "copy_stats") ;;
  trustSignals <- mapTrustSignals (opt_member payload "trust_signals") ;;
  amenities <- mapAmenityAudit (opt_member payload "amenities") ;;
  topFixes <- mapTopFixes (opt_member payload "top_fixes") ;;
  Return (VObj [
    ("overall", overall);
    ("sectionScores", sectionScores);
    ("photoStats", photoStats);
    ("copyStats", copyStats);
    ("trustSignals", trustSignals);
    ("amenities", amenities);
    ("topFixes", topFixes);
    ("bonusSummary", nullish_or (opt_member payload "bonus_summary") VNull);
    ("ownerOverview", nullish_or (opt_member payload "owner_overview") VNull)]).

Definition mapReportMeta (meta : value) : outcome value :=
  reading meta (fun get => VObj [
    ("reportType", get "report_type");
    ("isPaid", get "is_paid");
    ("creditId", nullish_or (get "credit_id") VNull);
    ("hiddenFixCount", get "hidden_fix_count");
    ("creditsRemaining", nullish_or (get "credits_remaining") VNull);
    ("nextCreditExpiration", nullish_or (get "next_credit_expiration") VNull)]).

(** [payload?.available ?? 0], [payload?.next_expiration ?? null] *)
Definition mapCreditSummary (payload : value) : CreditSummary :=
  {| available := nullish_or (opt_member payload "available") (VNum 0);
     nextExpiration := nullish_or (opt_member payload "next_expiration") VNull |}.

Section WithEnv.

(** [fetch]: the response, or [None] when the promise rejects. *)
Variable fetch : FetchCall -> option Response.

Definition await_fetch (call : FetchCall) : outcome Response :=
  match fetch call with
  | Some response => Return response
  | None => Throw NetworkError
  end.

(** [env.PUBLIC_API_BASE]; [None] when the variable is not set. *)
Variable PUBLIC_API_BASE : option string.

(** [const API_BASE = env.PUBLIC_API_BASE?.replace(/\/+$/, '') ?? '';] *)
Definition API_BASE : string :=
  match PUBLIC_API_BASE with
  | Some s => strip_trailing_slashes s
  | None => EmptyString
  end.

Definition is_absolute (path : string) : bool :=
  startsWith path "http://" || startsWith path "https://".

Definition withBase (path : string) : string :=
  if is_absolute path then path
  else if is_empty API_BASE then path
  else API_BASE ++ (if startsWith path "/" then path else "/" ++ path).

(** The object [apiBody] of [assessListing]. *)
Definition apiBody (payload : AssessmentPayload) : value :=
  VObj [
    ("url", VStr (url payload));
    ("report_type", VStr (ReportType_tag (reportType payload)));
    ("force", VBool (match force payload with Some b => b | None => false end))].

Definition assess_call (payload : AssessmentPayload) : FetchCall :=
  {| target := withBase "/assess";
     init := {| method := "POST";
                headers := [("content-type", "application/json")];
                body := Some (apiBody payload);
                credentials := Some "include" |} |}.

(** The message of the error thrown on a response that is not ok: the
    [try] block swallows a failing [response.json()]. *)
Definition failure_message (response : Response) : string :=
  let message :=
    if is_empty (statusText response) then "Failed to assess listing."
    else statusText response in
  match json response with
  | Some body_ =>
      match opt_member body_ "detail" with
      | VStr detail => detail
      | _ => message
      end
  | None => message
  end.

Definition assessListing (payload : AssessmentPayload) : outcome value :=
  response <- await_fetch (assess_call payload) ;;
  if negb (ok response) then
    Throw (Raised {| error_status := status response;
                     error_message := failure_message response |})
  else
    data <- read_json response ;;
    report <- (r <- member data "report" ;; mapAssessment r) ;;
    meta <- mapReportMeta (opt_member data "meta") ;;
    Return (VObj [("report", report); ("meta", meta)]).

Definition session_call : FetchCall :=
  {| target := withBase "/auth/session";
     init := {| method := "GET"; headers := []; body := None;
                credentials := Some "include" |} |}.

Definition fetchSession : outcome SessionInfo :=
  response <- await_fetch session_call ;;
  if negb (ok response) then
    Return {| authenticated := false; email := VUndefined; credits := None |}
  else
    data <- read_json response ;;
    Return {| authenticated := truthy (opt_member data "authenticated");
              email := nullish_or (opt_member data "email") VNull;
              credits := if truthy (opt_member data "credits")
                         then Some (mapCreditSummary (opt_member data "credits"))
                         else None |}.

End WithEnv.

(** The [detail] of a response body, when the body is JSON and the field is a
    string. *)
Definition detail_string (response : Response) : option string :=
  match json response with
  | Some (VObj fields) =>
      match assoc "detail" fields with
      | Some (VStr detail) => Some detail
      | _ => None
      end
  | _ => None
  end.

(** ** The interface of [POST /assess], by field name *)




End Api.

(* ===================================================================== *)
(** * The assessment results component: the fix slots *)
(* ===================================================================== *)

Module Results.

Inductive ImpactLevel : Type := high | medium | low.

Record TopFix : Type := {
  impact : ImpactLevel;
  reason : string;
  howToFix : string
}.

(** The part of the props the fix slots read: [assessment.topFixes],
    [meta.isPaid] and [meta.hiddenFixCount], the last one [None] when it is
    [null] or [undefined] (the component guards it with [?? 0]). *)
Record Props : Type := {
  topFixes : list TopFix;
  isPaid : bool;
  meta_hiddenFixCount : option Z
}.

(** [type FixSlot = { number; locked: true } | { number; locked: false; fix }] *)
Inductive FixSlot : Type :=
| Locked (number : Z)
| Unlocked (number : Z) (fix_ : TopFix).

Definition locked (slot : FixSlot) : bool :=
  match slot with Locked _ => true | Unlocked _ _ => false end.

Definition number_of (slot : FixSlot) : Z :=
  match slot with Locked n => n | Unlocked n _ => n end.

Section Derived.

Variable props : Props.

(** [assessment.topFixes.slice(0, 5)] *)
Definition topFixesLimited : list TopFix := take 5 (topFixes props).

Definition hiddenFixCount : Z :=
  if isPaid props then 0
  else Z.min (match meta_hiddenFixCount props with Some n => n | None => 0 end) 3.

(** [limitedFixes.forEach((fix, idx) => slots.push({ number: idx + 1, ... }))] *)
Fixpoint push_each (idx : Z) (fixes : list TopFix) (slots : list FixSlot) : list FixSlot :=
  match fixes with
  | [] => slots
  | fix_ :: rest => push_each (idx + 1) rest (slots ++ [Unlocked (idx + 1) fix_])
  end.

(** One turn of the [for] loop, at index [i]. *)
Definition loop_body (i : Z) (slots : list FixSlot) : list FixSlot :=
  if (i <? hiddenFixCount)%Z then slots ++ [Locked (i + 1)]
  else
    match topFixesLimited !! Z.to_nat (i - hiddenFixCount) with
    | None => slots                                   (* [if (!fix) continue;] *)
    | Some fix_ => slots ++ [Unlocked (i + 1) fix_]
    end.

(** [for (let i = ...; i < totalSlots; i += 1)], with [turns] turns left. *)
Fixpoint for_loop (turns : nat) (i : Z) (slots : list FixSlot) : list FixSlot :=
  match turns with
  | O => slots
  | S turns' => for_loop turns' (i + 1) (loop_body i slots)
  end.

Definition totalSlots : Z :=
  Z.min 5 (hiddenFixCount + Z.of_nat (length topFixesLimited)).

Definition fixSlots : list FixSlot :=
  if isPaid props then push_each 0 topFixesLimited []
  else for_loop (Z.to_nat totalSlots) 0 [].

(** [fixSlots.some((slot) => slot.locked)] *)
Definition hasLockedFixes : bool := existsb locked fixSlots.

End Derived.

(** The number of locked placeholders and of visible fixes among slots. *)
Definition locked_count (slots : list FixSlot) : nat :=
  length (List.filter locked slots).

Definition visible_count (slots : list FixSlot) : nat :=
  length (List.filter (fun slot => negb (locked slot)) slots).

(** [meta.hiddenFixCount ?? 0] *)
Definition hidden_or_zero (props : Props) : Z :=
  match meta_hiddenFixCount props with Some n => n | None => 0 end.

(** The locked placeholders numbered 1 to [n]. *)
Definition locked_prefix (n : nat) : list FixSlot :=
  map (fun k => Locked (Z.of_nat k + 1)) (seq 0 n).

End Results.

(* ===================================================================== *)
(** * routes/+page.svelte: the submission handlers *)
(* ===================================================================== *)

Module Page.
Import JsString.

(** [CreditSummary] and [SessionInfo] as lib/types.ts declares them. *)
Record CreditSummary : Type := {
  available : Z;
  nextExpiration : option string
}.

Record SessionInfo : Type := {
  authenticated : bool;
  email : option string;
  credits : option CreditSummary
}.

(** The argument of [startAssessment], and the type of [lastSubmission]. *)
Record Submission : Type := {
  sub_url : string;
  sub_force : bool
}.

(** The [$state] variables the submission path reads or writes. *)
Record State : Type := {
  session : SessionInfo;
  activeReportType : Api.ReportType;
  lastSubmission : option Submission;
  loading : bool;
  error : option string;
  upgradeError : option string;
  upgradeStatus : option string
}.

Definition with_session (s : SessionInfo) (st : State) : State :=
  {| session := s;
     activeReportType := activeReportType st;
     lastSubmission := lastSubmission st;
     loading := loading st;
     error := error st;
     upgradeError := upgradeError st;
     upgradeStatus := upgradeStatus st |}.

Definition with_activeReportType (mode : Api.ReportType) (st : State) : State :=
  {| session := session st;
     activeReportType := mode;
     lastSubmission := lastSubmission st;
     loading := loading st;
     error := error st;
     upgradeError := upgradeError st;
     upgradeStatus := upgradeStatus st |}.

Definition with_lastSubmission (sub : Submission) (st : State) : State :=
  {| session := session st;
     activeReportType := activeReportType st;
     lastSubmission := Some sub;
     loading := loading st;
     error := error st;
     upgradeError := upgradeError st;
     upgradeStatus := upgradeStatus st |}.

Definition with_upgrade (err status : option string) (st : State) : State :=
  {| session := session st;
     activeReportType := activeReportType st;
     lastSubmission := lastSubmission st;
     loading := loading st;
     error := error st;
     upgradeError := err;
     upgradeStatus := status |}.

(** [loading = true; error = null; upgradeError = null;] *)
Definition begin_loading (st : State) : State :=
  {| session := session st;
     activeReportType := activeReportType st;
     lastSubmission := lastSubmission st;
     loading := true;
     error := None;
     upgradeError := None;
     upgradeStatus := upgradeStatus st |}.

Definition setReportType (mode : Api.ReportType) (st : State) : State :=
  let st := with_activeReportType mode st in
  match mode with
  | Api.free => with_upgrade None None st
  | Api.paid => st
  end.

(** [session.credits?.available ?? 0] *)
Definition credits_available (s : SessionInfo) : Z :=
  match credits s with
  | Some summary => available summary
  | None => 0
  end.

Definition ensurePaidReady (st : State) : State * bool :=
  if negb (authenticated (session st)) then
    (with_activeReportType Api.paid
       (with_upgrade (Some "Sign in to run the paid report.") None st), false)
  else if (credits_available (session st) <=? 0)%Z then
    (with_upgrade (Some "You need at least one credit to run the paid report.") None st,
     false)
  else (st, true).

(** [startAssessment] up to its call of [assessListing]: the new state and
    the payloads handed to [assessListing], each of which is one
    [POST /assess] (see [Api.assess_call]).  What happens once the response
    arrives touches neither [lastSubmission] nor [activeReportType]. *)
Definition startAssessment (sub : Submission) (st : State)
  : State * list Api.AssessmentPayload :=
  let sanitizedUrl := trim (sub_url sub) in
  if is_empty sanitizedUrl then (st, [])
  else
    let st := with_lastSubmission {| sub_url := sanitizedUrl; sub_force := sub_force sub |} st in
    let '(st, ready) :=
      match activeReportType st with
      | Api.paid => ensurePaidReady st
      | Api.free => (st, true)
      end in
    if negb ready then (st, [])
    else
      let st := begin_loading st in
      (st, [ {| Api.url := sanitizedUrl;
                Api.reportType := activeReportType st;
                Api.force := Some (sub_force sub) |} ]).

Definition handleSubmit (detail : Submission) (st : State)
  : State * list Api.AssessmentPayload :=
  startAssessment detail (setReportType Api.free st).

Definition handleRunPaid (st : State) : State * list Api.AssessmentPayload :=
  let st := setReportType Api.paid st in
  match lastSubmission st with
  | Some sub => startAssessment sub st
  | None => (st, [])
  end.

(** The component when it is created: [session] is read from the store. *)
Definition fresh (s : SessionInfo) : State :=
  {| session := s;
     activeReportType := Api.free;
     lastSubmission := None;
     loading := false;
     error := None;
     upgradeError := None;
     upgradeStatus := None |}.

(** [onMount]: [if (initialUrl) startAssessment({ url: initialUrl, force: false })] *)
Definition onMount (initialUrl : string) (st : State)
  : State * list Api.AssessmentPayload :=
  if is_empty initialUrl then (st, [])
  else startAssessment {| sub_url := initialUrl; sub_force := false |} st.

(** The end of [startAssessment], once [assessListing] has settled: a report
    clears [upgradeStatus], a failure sets [error], and both end the loading. *)
Definition settle (failure : option string) (st : State) : State :=
  {| session := session st;
     activeReportType := activeReportType st;
     lastSubmission := lastSubmission st;
     loading := false;
     error := match failure with Some message => Some message | None => error st end;
     upgradeError := upgradeError st;
     upgradeStatus := match failure with Some _ => upgradeStatus st | None => None end |}.

(** What can happen to a mounted page: the form is submitted, the paid
    report is asked for, an assessment settles, the session changes (the
    store publishes one, or it is fetched again), and the magic-link and
    checkout handlers report through [upgradeError] and [upgradeStatus]. *)
Inductive event : Type :=
| Submit (detail : Submission)
| RunPaid
| Settled (failure : option string)
| SessionChanged (s : SessionInfo)
| UpgradeNotice (err status : option string).

Definition handle (ev : event) (st : State) : State * list Api.AssessmentPayload :=
  match ev with
  | Submit detail => handleSubmit detail st
  | RunPaid => handleRunPaid st
  | Settled failure => (settle failure st, [])
  | SessionChanged s => (with_session s st, [])
  | UpgradeNotice err status => (with_upgrade err status st, [])
  end.

Inductive reachable : State -> Prop :=
| reachable_mounted (s : SessionInfo) (initialUrl : string) :
    reachable (fst (onMount initialUrl (fresh s)))
| reachable_step (ev : event) (st : State) :
    reachable st -> reachable (fst (handle ev st)).

(** What [lastSubmission] holds is a sanitized URL: trimmed and not empty. *)
Definition sanitized (st : State) : Prop :=
  match lastSubmission st with
  | Some sub => trim (sub_url sub) = sub_url sub /\ is_empty (sub_url sub) = false
  | None => True
  end.

(** The two preconditions of the paid report. *)
Definition paid_ready (s : SessionInfo) : bool :=
  authenticated s && (1 <=? credits_available s)%Z.

End Page.

(* ===================================================================== *)
(** * routes/assess/+server.ts: the proxy *)
(* ===================================================================== *)

Module Proxy.
Import JsString.

(** The incoming request: [text] is [None] when [request.text()] rejects,
    [content_type] is [request.headers.get('content-type')]. *)
Record IncomingRequest : Type := {
  text : option string;
  content_type : option string
}.

(** The call [fetch(target, { method, headers: { 'content-type' }, body })]. *)
Record BackendCall : Type := {
  target : string;
  method : string;
  call_content_type : string;
  call_body : string
}.

(** A backend response: its status line, [response.text()] ([None] when that
    promise rejects, the body stream failing) and
    [response.headers.get('content-type')]. *)
Record BackendResponse : Type := {
  status : Z;
  statusText : string;
  response_text : option string;
  response_content_type : option string
}.

(** The response the handler returns: its body text, status line and header
    list. *)
Record OutgoingResponse : Type := {
  out_body : string;
  out_status : Z;
  out_statusText : string;
  out_headers : list (string * string)
}.

(** What escapes the handler other than [error(...)]: the exceptions of the
    [Response] constructor and the rejection of [response.text()]. *)
Inductive failure : Type :=
| RangeError
| TypeError
| BodyUnreadable.

Inductive Outcome : Type :=
| HttpError (code : Z) (message : string)      (* [throw error(code, message)] *)
| Responded (response : OutgoingResponse)
| Failed (e : failure).                        (* any other exception *)

(** The statuses whose response has no body. *)
Definition null_body_status (status : Z) : bool :=
  ((status =? 101) || (status =? 103) || (status =? 204) || (status =? 205)
   || (status =? 304))%Z.

(** A status text is a reason phrase: tabs, spaces, visible characters and
    bytes from 128 up. *)
Definition is_reason_phrase_char (c : ascii) : bool :=
  let n := nat_of_ascii c in
  (n =? 9)%nat || ((32 <=? n)%nat && negb (n =? 127)%nat).

Fixpoint is_reason_phrase (s : string) : bool :=
  match s with
  | EmptyString => true
  | String c rest => is_reason_phrase_char c && is_reason_phrase rest
  end.

(** The content type a string body brings with it. *)
Definition text_content_type : string := "text/plain;charset=UTF-8".

Definition has_content_type (headers : list (string * string)) : bool :=
  existsb (fun h => String.eqb (fst h) "content-type") headers.

(** [new Response(body, { status, statusText, headers })] with a string
    body: a status outside 200..599 is a RangeError, a status text that is no
    reason phrase a TypeError, a body given with a null-body status a
    TypeError; a header list without content-type gets the body's. *)
Definition new_Response (body : string) (status : Z) (statusText : string)
    (headers : list (string * string)) : failure + OutgoingResponse :=
  if negb ((200 <=? status) && (status <=? 599))%Z then inl RangeError
  else if negb (is_reason_phrase statusText) then inl TypeError
  else if null_body_status status then inl TypeError
  else inr {| out_body := body;
              out_status := status;
              out_statusText := statusText;
              out_headers :=
                if has_content_type headers then headers
                else headers ++ [("content-type", text_content_type)] |}.

Section Handler.

(** [env.BACKEND_API_BASE] *)
Variable BACKEND_API_BASE : option string.

(** The backend behind [fetch]: [None] when the promise rejects. *)
Variable fetch : BackendCall -> option BackendResponse.

Definition resolveBackendBase : string :=
  match BACKEND_API_BASE with
  | Some s =>
      let configured := trim s in
      if is_empty configured then "http://127.0.0.1:8000"
      else strip_trailing_slashes configured
  | None => "http://127.0.0.1:8000"
  end.

(** The one call the handler makes for a request whose text is [body_]. *)
Definition backend_call (request : IncomingRequest) (body_ : string) : BackendCall :=
  let backendBase := resolveBackendBase in
  let target_ := (backendBase ++ "/assess")%string in
  {| target := target_;
     method := "POST";
     call_content_type :=
       match content_type request with
       | Some t => t
       | None => "application/json"
       end;
     call_body := body_ |}.

(** The handler: the calls made to the backend, in order, and the outcome. *)
Definition POST (request : IncomingRequest) : list BackendCall * Outcome :=
  match text request with
  | None => ([], HttpError 400 "Unable to read request payload.")
  | Some body_ =>
      let call := backend_call request body_ in
      match fetch call with
      | None => ([call], HttpError 502 "Failed to reach backend assessor service.")
      | Some response =>
          match response_text response with
          | None => ([call], Failed BodyUnreadable)
          | Some responseBody =>
              let outgoingHeaders :=
                match response_content_type response with
                | Some contentType =>
                    if is_empty contentType then []
                    else [("content-type", contentType)]
                | None => []
                end in
              ([call],
               match new_Response responseBody (status response)
                                  (statusText response) outgoingHeaders with
               | inl e => Failed e
               | inr out => Responded out
               end)
          end
      end
  end.

(** The claim that every backend response is passed through: whatever the
    backend answers, the handler returns a response with its status, status
    text and body text. *)
Definition passes_every_response_through (request : IncomingRequest) : Prop :=
  forall body_ response,
    text request = Some body_ ->
    fetch (backend_call request body_) = Some response ->
    exists out,
      snd (POST request) = Responded out
      /\ out_status out = status response
      /\ out_statusText out = statusText response
      /\ Some (out_body out) = response_text response.

End Handler.

End Proxy.

(* ===================================================================== *)
(** * The scoring engine's section and overall scores *)
(* ===================================================================== *)

Module Scoring.
Local Open Scope Q_scope.

(** Modelled from the spec: the four sections the scoring engine scores; the
    engine is backend code that is not among the sources. *)
Inductive section_name : Type :=
| photos | copy | amenities_clarity | trust_signals.

(** Modelled from the spec: the scoring engine is backend code that is not
    among the sources.  A scored document carries, for each of the four
    sections, the normalized scores (0-100) of that section's sub-checks. *)
Definition sub_checks : Type := section_name -> list Q.

(** Modelled from the spec: the fixed weights of the scoring engine, which is
    not among the sources: {photos: 0.35, copy: 0.35, amenities_clarity: 0.15,
    trust_signals: 0.15}. *)
Definition weights : list (section_name * Q) :=
  [ (photos, 35 # 100); (copy, 35 # 100);
    (amenities_clarity, 15 # 100); (trust_signals, 15 # 100) ].

Definition Qsum (l : list Q) : Q := fold_right Qplus 0 l.

(** Modelled from the spec: the section score of the absent scoring engine,
    the average of the section's normalized sub-checks (0 for a section with
    no sub-check). *)
Definition section_score (checks : list Q) : Q :=
  match checks with
  | [] => 0
  | _ :: _ => Qsum checks / inject_Z (Z.of_nat (length checks))
  end.

(** Modelled from the spec: the overall score of the absent scoring engine,
    the sum over the weight table of section score times weight. *)
Definition overall (doc : sub_checks) : Q :=
  Qsum (map (fun '(name, weight) => section_score (doc name) * weight) weights).

(** Modelled from the spec: a valid input of the absent scoring engine, one
    whose sub-checks are all normalized to 0-100. *)
Definition valid (doc : sub_checks) : Prop :=
  forall name, Forall (fun s => 0 <= s <= 100) (doc name).

End Scoring.

(* ===================================================================== *)
(** * Checkout reconciliation *)
(* ===================================================================== *)

Module Checkout.

(** Modelled from the spec: the status of a checkout session in the backend,
    which is not among the sources. *)
Inductive session_status : Type := created | completed | expired.

(** Modelled from the spec: the checkout session of the backend, which is not
    among the sources, with the per-session marker that records that its
    credit was issued. *)
Record CheckoutSession : Type := {
  owner : string;                  (* owner identity or pending email *)
  status : session_status;
  credit_issued : bool;
  created_at : Z
}.

(** Modelled from the spec: the credit record of the absent backend. *)
Record Credit : Type := {
  credit_id : nat;
  credit_owner : string;
  issued_at : Z;
  expires_at : Z;
  redeemed_at : option Z;
  origin : string                  (* originating checkout session id *)
}.

(** Modelled from the spec: the in-memory ledger of the absent backend:
    checkout sessions by id, the credits issued so far, the known
    identities. *)
Record Ledger : Type := {
  sessions : gmap string CheckoutSession;
  credits : list Credit;
  identities : gset string
}.

(** Modelled from the spec: what the payment processor reports to the absent
    backend for a session id, in a notification or in answer to a query. *)
Record Upstream : Type := {
  upstream_status : session_status;
  payment_status : string;
  payer : string
}.

(** Modelled from the spec: the answer of the absent confirm handler. *)
Inductive confirm_result : Type :=
| Confirmed (identity : string) (available : nat)   (* [{authenticated, credits}] *)
| Rejected (code : Z).

(** Modelled from the spec: the ledger of the absent backend at startup. *)
Definition empty_ledger : Ledger :=
  {| sessions := ∅; credits := []; identities := ∅ |}.

(** Modelled from the spec: the validity window of a credit issued by the
    absent backend, thirty days, in seconds. *)
Definition validity_window : Z := 30 * 86400.

Definition is_completed (s : session_status) : bool :=
  match s with completed => true | _ => false end.

Definition is_created (s : session_status) : bool :=
  match s with created => true | _ => false end.

(** Modelled from the spec: the credits of the absent ledger that an identity
    can still redeem, unredeemed and unexpired. *)
Definition live (now : Z) (identity : string) (c : Credit) : bool :=
  String.eqb (credit_owner c) identity
  && match redeemed_at c with None => true | Some _ => false end
  && (now <? expires_at c)%Z.

Definition available_credits (now : Z) (identity : string) (l : Ledger) : nat :=
  length (List.filter (live now identity) (credits l)).

Definition from_session (id : string) (c : Credit) : bool := String.eqb (origin c) id.

(** The number of credits a checkout session has given rise to. *)
Definition issued_for (id : string) (l : Ledger) : nat :=
  length (List.filter (from_session id) (credits l)).

(** Every session has given rise to one credit if its marker is set and to
    none otherwise, the marker is set exactly on completed sessions, and no
    credit comes from an unknown session. *)
Definition consistent (l : Ledger) : Prop :=
  forall id,
    match sessions l !! id with
    | Some s =>
        issued_for id l = (if credit_issued s then 1 else 0)
        /\ credit_issued s = is_completed (status s)
    | None => issued_for id l = 0
    end.

Section Reconciliation.

(** Normalization of a payer's identity, which the specification does not
    spell out. *)
Variable normalize : string -> string.

(** Modelled from the spec: [POST /checkout/session] of the absent backend;
    an id already in use is left alone. *)
Definition create_session (now : Z) (id pending : string) (l : Ledger) : Ledger :=
  match sessions l !! id with
  | Some _ => l
  | None =>
      {| sessions := <[id := {| owner := pending; status := created;
                               credit_issued := false; created_at := now |}]> (sessions l);
         credits := credits l;
         identities := identities l |}
  end.

(** Modelled from the spec: the [created -> expired] transition of the absent
    backend. *)
Definition expire_session (id : string) (l : Ledger) : Ledger :=
  match sessions l !! id with
  | Some s =>
      if is_created (status s) then
        {| sessions := <[id := {| owner := owner s; status := expired;
                                 credit_issued := credit_issued s;
                                 created_at := created_at s |}]> (sessions l);
           credits := credits l;
           identities := identities l |}
      else l
  | None => l
  end.

(** Modelled from the spec: the issue of the one credit of a session, with a
    fresh thirty-day expiry, by the absent backend. *)
Definition issue_credit (now : Z) (id : string) (s : CheckoutSession) (identity : string)
    (l : Ledger) : Ledger :=
  {| sessions := <[id := {| owner := identity; status := completed;
                           credit_issued := true; created_at := created_at s |}]> (sessions l);
     credits := credits l ++
                [ {| credit_id := length (credits l);
                     credit_owner := identity;
                     issued_at := now;
                     expires_at := now + validity_window;
                     redeemed_at := None;
                     origin := id |} ];
     identities := {[ identity ]} ∪ identities l |}.

(** Modelled from the spec: [POST /checkout/confirm {checkout_id}] of the
    absent backend, given the processor's report for the session ([None]
    when the processor does not know it).  The report is the sole trigger; a session
    whose marker is set is confirmed again without a second credit; a session
    that is not completed and paid upstream is rejected (402) and the ledger
    is left as it was. *)
Definition confirm (now : Z) (id : string) (report : option Upstream) (l : Ledger)
  : Ledger * confirm_result :=
  match sessions l !! id with
  | None => (l, Rejected 404)
  | Some s =>
      match report with
      | None => (l, Rejected 402)
      | Some up =>
          if is_completed (upstream_status up) && String.eqb (payment_status up) "paid" then
            let identity := normalize (payer up) in
            if credit_issued s then
              (l, Confirmed (owner s) (available_credits now (owner s) l))
            else if is_created (status s) then
              let l' := issue_credit now id s identity l in
              (l', Confirmed identity (available_credits now identity l'))
            else (l, Rejected 402)
          else (l, Rejected 402)
      end
  end.

(** Modelled from the spec: the operations of the absent backend that touch
    sessions and the set of credits. *)
Inductive operation : Type :=
| CreateSession (now : Z) (id pending : string)
| ExpireSession (id : string)
| Confirm (now : Z) (id : string) (report : option Upstream).

Definition run (op : operation) (l : Ledger) : Ledger :=
  match op with
  | CreateSession now id pending => create_session now id pending l
  | ExpireSession id => expire_session id l
  | Confirm now id report => fst (confirm now id report l)
  end.

(** Modelled from the spec: the ledgers the absent backend can be in. *)
Inductive reachable : Ledger -> Prop :=
| reachable_empty : reachable empty_ledger
| reachable_run (op : operation) (l : Ledger) : reachable l -> reachable (run op l).

End Reconciliation.

End Checkout.

(* ===================================================================== *)
(** * Sample inputs *)
(* ===================================================================== *)

Module Samples.
Import Js.

Module ApiSamples.
Import Api.

Definition rejecting_backend (_ : FetchCall) : option Response :=
  Some {| ok := false; status := 402; statusText := "Payment Required";
          json := Some (VObj [("detail", VStr "No credits available.")]) |}.

Definition sample_payload : AssessmentPayload :=
  {| url := "https://www.airbnb.com/rooms/12345678"; reportType := paid; force := None |}.

Definition anonymous_backend (_ : FetchCall) : option Response :=
  Some {| ok := true; status := 200; statusText := "OK";
          json := Some (VObj [("authenticated", VBool false)]) |}.

(** A report as the backend sends it. *)
Definition sample_report : value :=
  VObj [
    ("overall", VNum 72);
    ("section_scores",
       VObj [("photos", VNum 80); ("copy", VNum 70);
             ("amenities_clarity", VNum 60); ("trust_signals", VNum 65)]);
    ("photo_stats", VObj [("count", VNum 12); ("alt_text_ratio", VNum (1 # 2))]);
    ("copy_stats", VObj [("word_count", VNum 210); ("has_sections", VBool true)]);
    ("amenities", VObj [("listed", VArr [VStr "wifi"])]);
    ("trust_signals", VObj [("review_count", VNum 3)]);
    ("top_fixes",
       VArr [VObj [("reason", VStr "Add more photos");
                   ("how_to_fix", VStr "Upload at least 20 photos")]])].

(** A response whose meta names the tier [tier], as the specification words it. *)
Definition tier_named_backend (_ : FetchCall) : option Response :=
  Some {| ok := true; status := 200; statusText := "OK";
          json := Some (VObj [
            ("report", sample_report);
            ("meta", VObj [("tier", VStr "paid"); ("is_paid", VBool true);
                           ("hidden_fix_count", VNum 0);
                           ("credit_id", VStr "credit-1")])]) |}.

(** A response whose meta names the tier [report_type]. *)
Definition paid_backend (_ : FetchCall) : option Response :=
  Some {| ok := true; status := 200; statusText := "OK";
          json := Some (VObj [
            ("report", sample_report);
            ("meta", VObj [("report_type", VStr "paid"); ("is_paid", VBool true);
                           ("hidden_fix_count", VNum 0);
                           ("credit_id", VStr "credit-1")])]) |}.

End ApiSamples.

Module ResultsSamples.
Import Results.

Definition fix_photos : TopFix :=
  {| impact := high; reason := "Too few photos"; howToFix := "Upload at least 20 photos" |}.

Definition fix_copy : TopFix :=
  {| impact := medium; reason := "Description is hard to read";
     howToFix := "Use shorter sentences" |}.

(** A free preview: two visible fixes, eight more hidden. *)
Definition free_preview : Props :=
  {| topFixes := [fix_photos; fix_copy]; isPaid := false; meta_hiddenFixCount := Some 8%Z |}.

End ResultsSamples.

Module PageSamples.
Import Page.

Definition anonymous : SessionInfo :=
  {| authenticated := false; email := None; credits := None |}.

Definition out_of_credits : SessionInfo :=
  {| authenticated := true; email := Some "host@example.com";
     credits := Some {| available := 0; nextExpiration := None |} |}.

(** A page on which a free report was run. *)
Definition after_free_report (s : SessionInfo) : State :=
  fst (handle (Submit {| sub_url := " https://www.airbnb.com/rooms/12345678 ";
                         sub_force := false |})
              (fst (onMount EmptyString (fresh s)))).

End PageSamples.

Module ProxySamples.
Import Proxy.

Definition report_body : string := "{ report: ..., meta: ... }".

(** A backend that answers every call with a JSON report. *)
Definition answering_backend (_ : BackendCall) : option BackendResponse :=
  Some {| status := 200; statusText := "OK"; response_text := Some report_body;
          response_content_type := Some "application/json" |}.

(** A backend that answers every call with 204 No Content. *)
Definition no_content_backend (_ : BackendCall) : option BackendResponse :=
  Some {| status := 204; statusText := "No Content";
          response_text := Some EmptyString;
          response_content_type := None |}.

Definition incoming : IncomingRequest :=
  {| text := Some "{ url: ... }"; content_type := None |}.

End ProxySamples.

Module ScoringSamples.
Import Scoring.
Local Open Scope Q_scope.

(** A document with 25 photos (100 on the count sub-check) and middling
    scores elsewhere. *)
Definition scored_listing : sub_checks :=
  fun name =>
    match name with
    | photos => [100; 80; 60]
    | copy => [90; 70]
    | amenities_clarity => [50]
    | trust_signals => [40; 60; 80; 100]
    end.

End ScoringSamples.

Module CheckoutSamples.
Import Checkout.

Definition lowercase_identity (s : string) : string := s.

(** A ledger with one checkout session, begun at time 1000. *)
Definition pending : Ledger :=
  run lowercase_identity (CreateSession 1000 "cs_1" "host@example.com") empty_ledger.

Definition paid_report : option Upstream :=
  Some {| upstream_status := completed; payment_status := "paid";
          payer := "host@example.com" |}.

End CheckoutSamples.

End Samples.

(* ===================================================================== *)
(** * lib/api.ts: the magic-link, logout and checkout calls *)
(* ===================================================================== *)

Module ApiMore.
Import JsString Js Api.
Local Open Scope js_scope.

(** [new Error(argument)], by the argument handed to the constructor (its
    [message] is that argument as a string). *)
Record JsError : Type := {
  error_argument : value
}.

Definition attempt (A : Type) : Type := completion JsError A.

(** [CheckoutSessionResult] as it exists at run time. *)
Record CheckoutSessionResult : Type := {
  checkoutId : value;
  checkoutUrl : value;
  environment : value
}.

(** [await response.json().catch(() => null)] *)
Definition json_or_null (response : Response) : value :=
  match json response with
  | Some data => data
  | None => VNull
  end.

(** [throw new Error(detail?.detail ?? fallback)], [detail] being the body
    read by [json_or_null]. *)
Definition throw_detail {A : Type} (response : Response) (fallback : string) : attempt A :=
  Throw (Raised {| error_argument :=
                     nullish_or (opt_member (json_or_null response) "detail")
                                (VStr fallback) |}).

(** [await response.json()] *)
Definition parse_json (response : Response) : attempt value :=
  match json response with
  | Some data => Return data
  | None => Throw SyntaxError
  end.

(** An optional string argument: [undefined] when it is left out. *)
Definition optional_string (s : option string) : value :=
  match s with
  | Some text => VStr text
  | None => VUndefined
  end.

Section WithEnv.

(** [fetch]: the response, or [None] when the promise rejects. *)
Variable fetch : FetchCall -> option Response.

(** [env.PUBLIC_API_BASE] *)
Variable PUBLIC_API_BASE : option string.

(** [import.meta.env.DEV] *)
Variable DEV : bool.

Definition send (call : FetchCall) : attempt Response :=
  match fetch call with
  | Some response => Return response
  | None => Throw NetworkError
  end.

Definition magic_link_call (email_ : string) : FetchCall :=
  {| target := withBase PUBLIC_API_BASE "/auth/magic-link";
     init := {| method := "POST";
                headers := [("content-type", "application/json")];
                body := Some (VObj [("email", VStr email_)]);
                credentials := None |} |}.

Definition requestMagicLink (email_ : string) : attempt unit :=
  response <- send (magic_link_call email_) ;;
  if negb (ok response) then throw_detail response "Unable to send magic link."
  else Return tt.

Definition logout_call : FetchCall :=
  {| target := withBase PUBLIC_API_BASE "/auth/logout";
     init := {| method := "POST"; headers := []; body := None;
                credentials := Some "include" |} |}.

(** [logout] awaits the response and does not look at it. *)
Definition logout : attempt unit :=
  response <- send logout_call ;;
  Return tt.

(** The [body] object of [createCheckoutSession]: [environment] is added in
    a development build only. *)
Definition checkout_body (successUrl cancelUrl : option string) : value :=
  VObj ([("success_url", optional_string successUrl);
         ("cancel_url", optional_string cancelUrl)]
        ++ (if DEV then [("environment", VStr "sandbox")] else [])).

Definition checkout_session_call (successUrl cancelUrl : option string) : FetchCall :=
  {| target := withBase PUBLIC_API_BASE "/checkout/session";
     init := {| method := "POST";
                headers := [("content-type", "application/json")];
                body := Some (checkout_body successUrl cancelUrl);
                credentials := Some "include" |} |}.

Definition createCheckoutSession (successUrl cancelUrl : option string)
  : attempt CheckoutSessionResult :=
  response <- send (checkout_session_call successUrl cancelUrl) ;;
  if negb (ok response) then throw_detail response "Unable to start checkout."
  else
    data <- parse_json response ;;
    id <- member data "checkout_id" ;;
    Return {| checkoutId := id;
              checkoutUrl := opt_member data "checkout_url";
              environment := nullish_or (opt_member data "environment") (VStr "live") |}.

Definition confirm_call (checkoutId_ : string) (environment_ : option string) : FetchCall :=
  {| target := withBase PUBLIC_API_BASE "/checkout/confirm";
     init := {| method := "POST";
                headers := [("content-type", "application/json")];
                body := Some (VObj [("checkout_id", VStr checkoutId_);
                                    ("environment", optional_string environment_)]);
                credentials := Some "include" |} |}.

Definition confirmCheckout (checkoutId_ : string) (environment_ : option string)
  : attempt SessionInfo :=
  response <- send (confirm_call checkoutId_ environment_) ;;
  if negb (ok response) then throw_detail response "Unable to finalize checkout."
  else
    data <- parse_json response ;;
    Return {| authenticated := truthy (opt_member data "authenticated");
              email := nullish_or (opt_member data "email") VNull;
              credits := if truthy (opt_member data "credits")
                         then Some (mapCreditSummary (opt_member data "credits"))
                         else None |}.

End WithEnv.

(** The properties [JSON.stringify] writes: those whose value is not
    [undefined]. *)
Definition written_fields (v : value) : list string :=
  match v with
  | VObj fields =>
      map fst (List.filter (fun '(_, x) => match x with VUndefined => false | _ => true end)
                           fields)
  | _ => []
  end.

End ApiMore.

(* ===================================================================== *)
(** * The assessment form component *)
(* ===================================================================== *)

Module Form.
Import JsString.

(** The [$state] of the form: the URL field and the force check box. *)
Record FormState : Type := {
  url : string;
  force : bool
}.

Definition trimmedUrl (form : FormState) : string := trim (url form).

(** [!trimmedUrl || loading], [loading] being the component's prop. *)
Definition disableSubmit (loading : bool) (form : FormState) : bool :=
  is_empty (trimmedUrl form) || loading.

(** [handleSubmit]: the detail of the [submit] event it dispatches, if any. *)
Definition handleSubmit (loading : bool) (form : FormState) : option Page.Submission :=
  if disableSubmit loading form then None
  else Some {| Page.sub_url := trimmedUrl form; Page.sub_force := force form |}.

End Form.

(* ===================================================================== *)
(** * The upgrade drawer component *)
(* ===================================================================== *)

Module Drawer.
Import JsString.

Record Props : Type := {
  hiddenCount : Z;
  session : Page.SessionInfo;
  visible : bool;
  loading : bool;
  status : option string;
  error : option string
}.

(** The events the drawer dispatches. *)
Inductive dispatched : Type :=
| RequestMagicLink (email : string)
| StartCheckout
| RunPaid
| Dismiss.

(** [handleSubmit], on the [email] typed in the form. *)
Definition handleSubmit (email : string) : option dispatched :=
  let trimmed := trim email in
  if is_empty trimmed then None else Some (RequestMagicLink trimmed).

Definition startCheckout (props : Props) : option dispatched :=
  if loading props then None else Some StartCheckout.

Definition runPaid (props : Props) : option dispatched :=
  if loading props then None else Some RunPaid.

Definition dismiss : option dispatched := Some Dismiss.

(** What the drawer's body shows below its header. *)
Inductive panel : Type :=
| Closed                        (* [{#if visible}] fails *)
| StatusNotice (text : string)  (* the success alert *)
| MagicLinkForm
| RunPaidButton
| BuyButton.

(** The template: [{#if !session.authenticated}], [{#if status}],
    [{#if (session.credits?.available ?? 0) > 0}]. *)
Definition shown (props : Props) : panel :=
  if negb (visible props) then Closed
  else if negb (Page.authenticated (session props)) then
    match status props with
    | Some text => if is_empty text then MagicLinkForm else StatusNotice text
    | None => MagicLinkForm
    end
  else if (0 <? Page.credits_available (session props))%Z then RunPaidButton
  else BuyButton.

End Drawer.

(* ===================================================================== *)
(** * routes/+page.svelte: requests in flight, the loading timer, the drawer *)
(* ===================================================================== *)

Module PageFlow.
Import JsString.

(** [ReportMeta] and [ReportEnvelope] of lib/types.ts; [hiddenFixCount] is
    [None] when the property is [null] or [undefined]. *)
Record ReportMeta : Type := {
  reportType : Api.ReportType;
  isPaid : bool;
  creditId : option string;
  hiddenFixCount : option Z
}.

Record ReportEnvelope : Type := {
  report : Js.value;
  meta : ReportMeta
}.

Definition loadingMessages : list string :=
  [ "Inspecting your towels";
    "Seeing if a guest left anything";
    "Definitely NOT throwing a party";
    "Evaluating your listing";
    "Checking the vibe";
    "Asking to check-in early" ].

(** ** The derived values that drive the upgrade drawer *)

(** [!reportEnvelope.meta.isPaid && reportEnvelope.meta.hiddenFixCount > 0] *)
Definition shouldShowUpgrade (reportEnvelope : option ReportEnvelope) : bool :=
  match reportEnvelope with
  | None => false
  | Some envelope =>
      negb (isPaid (meta envelope))
      && match hiddenFixCount (meta envelope) with
         | Some n => (0 <? n)%Z
         | None => false
         end
  end.

(** [reportEnvelope?.meta.hiddenFixCount ? Math.max(hiddenFixCount, 1) : 8] *)
Definition upgradeHiddenCount (reportEnvelope : option ReportEnvelope) : Z :=
  match reportEnvelope with
  | Some envelope =>
      match hiddenFixCount (meta envelope) with
      | Some n => if (n =? 0)%Z then 8%Z else Z.max n 1
      | None => 8%Z
      end
  | None => 8%Z
  end.

(** ** The state *)

(** The [AbortController]s: the one in [controller], those whose signal is
    aborted, how many were created (they are numbered from 0), the calls of
    [assessListing] that have not settled yet, each with the controller and
    the sanitized URL its continuation closes over, and the runs of
    [startAssessment] that are suspended at [await refreshSession()], each
    by its controller. *)
Record Requests : Type := {
  controller : option nat;
  aborted : list nat;
  created : nat;
  awaiting : list (nat * string);
  refreshing : list nat
}.

(** The intervals: the one in [loadingTimer], those that are running, how
    many were started (numbered from 0), and [loadingMessageIndex]. *)
Record Timers : Type := {
  loadingTimer : option nat;
  intervals : list nat;
  started : nat;
  loadingMessageIndex : nat
}.

Record View : Type := {
  reportEnvelope : option ReportEnvelope;
  assessmentUrl : option string;
  upgradeDismissed : bool;
  hasScrolledForUpgrade : bool
}.

(** What the page does to the browser's location. *)
Inductive effect : Type :=
| UpdateQuery (url : string)       (* [updateQueryParam(url)] *)
| Goto (path : string).            (* [goto(path)] *)

Record Flow : Type := {
  page : Page.State;
  requests : Requests;
  timers : Timers;
  view : View;
  effects : list effect
}.

Definition set_page (p : Page.State) (fl : Flow) : Flow :=
  {| page := p; requests := requests fl; timers := timers fl; view := view fl;
     effects := effects fl |}.

Definition set_requests (r : Requests) (fl : Flow) : Flow :=
  {| page := page fl; requests := r; timers := timers fl; view := view fl;
     effects := effects fl |}.

Definition set_timers (t : Timers) (fl : Flow) : Flow :=
  {| page := page fl; requests := requests fl; timers := t; view := view fl;
     effects := effects fl |}.

Definition set_view (v : View) (fl : Flow) : Flow :=
  {| page := page fl; requests := requests fl; timers := timers fl; view := v;
     effects := effects fl |}.

Definition add_effect (e : effect) (fl : Flow) : Flow :=
  {| page := page fl; requests := requests fl; timers := timers fl; view := view fl;
     effects := effects fl ++ [e] |}.

Definition with_loading (b : bool) (st : Page.State) : Page.State :=
  {| Page.session := Page.session st;
     Page.activeReportType := Page.activeReportType st;
     Page.lastSubmission := Page.lastSubmission st;
     Page.loading := b;
     Page.error := Page.error st;
     Page.upgradeError := Page.upgradeError st;
     Page.upgradeStatus := Page.upgradeStatus st |}.

Definition with_error (e : option string) (st : Page.State) : Page.State :=
  {| Page.session := Page.session st;
     Page.activeReportType := Page.activeReportType st;
     Page.lastSubmission := Page.lastSubmission st;
     Page.loading := Page.loading st;
     Page.error := e;
     Page.upgradeError := Page.upgradeError st;
     Page.upgradeStatus := Page.upgradeStatus st |}.

(** [shouldShowUpgrade && hasScrolledForUpgrade && !upgradeDismissed] *)
Definition shouldRevealUpgrade (fl : Flow) : bool :=
  shouldShowUpgrade (reportEnvelope (view fl))
  && hasScrolledForUpgrade (view fl)
  && negb (upgradeDismissed (view fl)).

(** ** The loading messages *)

(** [clearInterval(id)] *)
Definition clearInterval (id : nat) (running : list nat) : list nat :=
  List.filter (fun t => negb (Nat.eqb t id)) running.

Definition startLoadingMessages (t : Timers) : Timers :=
  let running :=
    match loadingTimer t with
    | Some old => clearInterval old (intervals t)
    | None => intervals t
    end in
  {| loadingTimer := Some (started t);
     intervals := running ++ [started t];
     started := S (started t);
     loadingMessageIndex := 0 |}.

Definition stopLoadingMessages (t : Timers) : Timers :=
  match loadingTimer t with
  | None => t
  | Some id =>
      {| loadingTimer := None;
         intervals := clearInterval id (intervals t);
         started := started t;
         loadingMessageIndex := loadingMessageIndex t |}
  end.

(** The callback of interval [id] fires, if the interval is running. *)
Definition tick (id : nat) (t : Timers) : Timers :=
  if existsb (Nat.eqb id) (intervals t) then
    {| loadingTimer := loadingTimer t;
       intervals := intervals t;
       started := started t;
       loadingMessageIndex := (loadingMessageIndex t + 1) mod length loadingMessages |}
  else t.

(** The message the loading overlay shows: [loadingMessages[loadingMessageIndex]]. *)
Definition overlay_message (fl : Flow) : option string :=
  loadingMessages !! loadingMessageIndex (timers fl).

(** ** [startAssessment], whole *)

(** [controller?.abort(); controller = new AbortController()] *)
Definition renew_controller (sanitizedUrl : string) (r : Requests) : Requests :=
  {| controller := Some (created r);
     aborted := match controller r with
                | Some old => old :: aborted r
                | None => aborted r
                end;
     created := S (created r);
     awaiting := awaiting r ++ [(created r, sanitizedUrl)];
     refreshing := refreshing r |}.

(** [startAssessment] up to its [await assessListing(...)]: what
    [Page.startAssessment] does to the page's variables, and, when a request
    goes out, the new controller and the restarted loading messages. *)
Definition startAssessment (sub : Page.Submission) (fl : Flow)
  : Flow * list Api.AssessmentPayload :=
  let '(p, sent) := Page.startAssessment sub (page fl) in
  match sent with
  | [] => (set_page p fl, [])
  | payload :: _ =>
      ({| page := p;
          requests := renew_controller (Api.url payload) (requests fl);
          timers := startLoadingMessages (timers fl);
          view := view fl;
          effects := effects fl |}, sent)
  end.

(** What the [catch] clause sees: a thrown object with a [message] (and
    perhaps a [status]), or anything else. *)
Inductive caught : Type :=
| WithMessage (status : option Z) (message : string)
| Opaque.

(** How [assessListing] settles. *)
Inductive settlement : Type :=
| Resolved (result : ReportEnvelope)
| Rejected (err : caught).

(** The [finally] clause, for a controller that is not aborted. *)
Definition finally_ (fl : Flow) : Flow :=
  set_page (with_loading false (page fl))
    (set_timers (stopLoadingMessages (timers fl)) fl).

(** The [catch] clause, for a controller that is not aborted. *)
(** ['status' in detail && detail.status === 302] *)
Definition is_redirect (status : option Z) : bool :=
  match status with
  | Some code => (code =? 302)%Z
  | None => false
  end.

Definition catch_ (err : caught) (fl : Flow) : Flow :=
  match err with
  | WithMessage status message =>
      if is_redirect status then
        add_effect (Goto "/not-enough-credits")
          (set_page (with_loading false (page fl))
             (set_timers (stopLoadingMessages (timers fl)) fl))
      else set_page (with_error (Some message) (page fl)) fl
  | Opaque =>
      set_page (with_error (Some "Unexpected error while assessing the listing.")
                           (page fl)) fl
  end.

(** The [try] clause after [assessListing] has returned [result], for a
    controller that is not aborted, up to its test of [result.meta.isPaid]. *)
Definition apply_result (sanitizedUrl : string) (result : ReportEnvelope) (fl : Flow) : Flow :=
  let fl :=
    add_effect (UpdateQuery sanitizedUrl)
      (set_view {| reportEnvelope := Some result;
                   assessmentUrl := Some sanitizedUrl;
                   upgradeDismissed := false;
                   hasScrolledForUpgrade := hasScrolledForUpgrade (view fl) |} fl) in
  set_page (Page.with_upgrade (Page.upgradeError (page fl)) None (page fl)) fl.

(** The run under controller [id] stops at [await refreshSession()]. *)
Definition await_refresh (id : nat) (r : Requests) : Requests :=
  {| controller := controller r;
     aborted := aborted r;
     created := created r;
     awaiting := awaiting r;
     refreshing := refreshing r ++ [id] |}.

(** [startAssessment] from the settlement of the call made under
    controller [id] to its end or, after a paid report, to its
    [await refreshSession()]: there the run is suspended inside the [try],
    with [loading] and the loading messages as they are. *)
Definition continue_ (id : nat) (sanitizedUrl : string) (s : settlement) (fl : Flow) : Flow :=
  if existsb (Nat.eqb id) (aborted (requests fl)) then fl
  else
    match s with
    | Resolved result =>
        let fl := apply_result sanitizedUrl result fl in
        if isPaid (meta result) then set_requests (await_refresh id (requests fl)) fl
        else finally_ fl
    | Rejected err => finally_ (catch_ err fl)
    end.

Definition lookup_awaiting (id : nat) (r : Requests) : option string :=
  snd <$> List.find (fun entry => Nat.eqb (fst entry) id) (awaiting r).

Definition settle_awaiting (id : nat) (r : Requests) : Requests :=
  {| controller := controller r;
     aborted := aborted r;
     created := created r;
     awaiting := List.filter (fun entry => negb (Nat.eqb (fst entry) id)) (awaiting r);
     refreshing := refreshing r |}.

(** The call made under controller [id] settles, if it is in flight. *)
Definition finish (id : nat) (s : settlement) (fl : Flow) : Flow :=
  match lookup_awaiting id (requests fl) with
  | None => fl
  | Some sanitizedUrl =>
      continue_ id sanitizedUrl s (set_requests (settle_awaiting id (requests fl)) fl)
  end.

Definition settle_refreshing (id : nat) (r : Requests) : Requests :=
  {| controller := controller r;
     aborted := aborted r;
     created := created r;
     awaiting := awaiting r;
     refreshing := List.filter (fun other => negb (Nat.eqb other id)) (refreshing r) |}.

(** [refreshSession] from the settlement of its [fetchSession], and then the
    rest of the run of [startAssessment] that awaited it under controller
    [id].  [refreshSession] writes [session] without looking at the
    controller; the [catch] and [finally] clauses of [startAssessment] do
    look. *)
Definition continue_refresh (id : nat) (refresh : Page.SessionInfo + caught) (fl : Flow) : Flow :=
  match refresh with
  | inl refreshed =>
      let fl := set_page (Page.with_session refreshed (page fl)) fl in
      if existsb (Nat.eqb id) (aborted (requests fl)) then fl
      else finally_ fl
  | inr err =>
      if existsb (Nat.eqb id) (aborted (requests fl)) then fl
      else finally_ (catch_ err fl)
  end.

(** The [fetchSession] of the run under controller [id] settles, if that run
    is suspended at [await refreshSession()]. *)
Definition finish_refresh (id : nat) (refresh : Page.SessionInfo + caught) (fl : Flow) : Flow :=
  if existsb (Nat.eqb id) (refreshing (requests fl)) then
    continue_refresh id refresh (set_requests (settle_refreshing id (requests fl)) fl)
  else fl.

Definition handleSubmit (detail : Page.Submission) (fl : Flow)
  : Flow * list Api.AssessmentPayload :=
  startAssessment detail (set_page (Page.setReportType Api.free (page fl)) fl).

Definition handleRunPaid (fl : Flow) : Flow * list Api.AssessmentPayload :=
  let fl := set_page (Page.setReportType Api.paid (page fl)) fl in
  match Page.lastSubmission (page fl) with
  | Some sub => startAssessment sub fl
  | None => (fl, [])
  end.

(** [hasScrolledForUpgrade = true; upgradeDismissed = false;] *)
Definition handleShowUpgrade (fl : Flow) : Flow :=
  set_view {| reportEnvelope := reportEnvelope (view fl);
              assessmentUrl := assessmentUrl (view fl);
              upgradeDismissed := false;
              hasScrolledForUpgrade := true |} fl.

(** The drawer's [dismiss]: [upgradeDismissed = true]. *)
Definition handleDismiss (fl : Flow) : Flow :=
  set_view {| reportEnvelope := reportEnvelope (view fl);
              assessmentUrl := assessmentUrl (view fl);
              upgradeDismissed := true;
              hasScrolledForUpgrade := hasScrolledForUpgrade (view fl) |} fl.

(** [onDestroy]: [controller?.abort(); stopLoadingMessages();] *)
Definition onDestroy (fl : Flow) : Flow :=
  let r := requests fl in
  set_timers (stopLoadingMessages (timers fl))
    (set_requests {| controller := controller r;
                     aborted := match controller r with
                                | Some c => c :: aborted r
                                | None => aborted r
                                end;
                     created := created r;
                     awaiting := awaiting r;
                     refreshing := refreshing r |} fl).

(** The page when it is created. *)
Definition fresh (s : Page.SessionInfo) : Flow :=
  {| page := Page.fresh s;
     requests := {| controller := None; aborted := []; created := 0; awaiting := [];
                    refreshing := [] |};
     timers := {| loadingTimer := None; intervals := []; started := 0;
                  loadingMessageIndex := 0 |};
     view := {| reportEnvelope := None; assessmentUrl := None;
                upgradeDismissed := false; hasScrolledForUpgrade := false |};
     effects := [] |}.

Definition onMount (initialUrl : string) (fl : Flow) : Flow :=
  if is_empty initialUrl then fl
  else fst (startAssessment {| Page.sub_url := initialUrl; Page.sub_force := false |} fl).

(** What can happen to a mounted page. *)
Inductive event : Type :=
| Submit (detail : Page.Submission)
| RunPaid
| Finish (id : nat) (s : settlement)
| FinishRefresh (id : nat) (refresh : Page.SessionInfo + caught)
| Tick (id : nat)
| ShowUpgrade
| DismissUpgrade
| SessionChanged (s : Page.SessionInfo)
| UpgradeNotice (err status : option string).

Definition step (ev : event) (fl : Flow) : Flow :=
  match ev with
  | Submit detail => fst (handleSubmit detail fl)
  | RunPaid => fst (handleRunPaid fl)
  | Finish id s => finish id s fl
  | FinishRefresh id refresh => finish_refresh id refresh fl
  | Tick id => set_timers (tick id (timers fl)) fl
  | ShowUpgrade => handleShowUpgrade fl
  | DismissUpgrade => handleDismiss fl
  | SessionChanged s => set_page (Page.with_session s (page fl)) fl
  | UpgradeNotice err status => set_page (Page.with_upgrade err status (page fl)) fl
  end.

Inductive reachable : Flow -> Prop :=
| reachable_mounted (s : Page.SessionInfo) (initialUrl : string) :
    reachable (onMount initialUrl (fresh s))
| reachable_step (ev : event) (fl : Flow) :
    reachable fl -> reachable (step ev fl).

(** The run of [startAssessment] made under the controller that [controller]
    holds has not finished: its call is in flight, or it is suspended at
    [await refreshSession()]; and that controller is not aborted. *)
Definition latest_pending (fl : Flow) : Prop :=
  exists id,
    controller (requests fl) = Some id
    /\ ((exists sanitizedUrl, In (id, sanitizedUrl) (awaiting (requests fl)))
        \/ In id (refreshing (requests fl)))
    /\ ~ In id (aborted (requests fl)).

(** What holds of the controllers and intervals of a mounted page: every
    controller but the current one is aborted, the current one is not, the
    only running interval is the one in [loadingTimer], the message index is
    within the messages, [loading] is set exactly while that interval
    runs, and no run both has its call in flight and awaits the session. *)
Definition well_formed (fl : Flow) : Prop :=
  (forall id sanitizedUrl,
      In (id, sanitizedUrl) (awaiting (requests fl)) -> id < created (requests fl))
  /\ (forall id, In id (aborted (requests fl)) -> id < created (requests fl))
  /\ (forall id, controller (requests fl) = Some id ->
                 id < created (requests fl) /\ ~ In id (aborted (requests fl)))
  /\ (forall id, id < created (requests fl) ->
                 controller (requests fl) <> Some id ->
                 In id (aborted (requests fl)))
  /\ intervals (timers fl)
     = match loadingTimer (timers fl) with Some t => [t] | None => [] end
  /\ loadingMessageIndex (timers fl) < length loadingMessages
  /\ Page.loading (page fl)
     = match loadingTimer (timers fl) with Some _ => true | None => false end
  /\ (Page.loading (page fl) = true <-> latest_pending fl)
  /\ (forall id, In id (refreshing (requests fl)) -> id < created (requests fl))
  /\ (forall id sanitizedUrl,
         In id (refreshing (requests fl)) ->
         ~ In (id, sanitizedUrl) (awaiting (requests fl))).

End PageFlow.

(* ===================================================================== *)
(** * routes/+layout.svelte: logging out *)
(* ===================================================================== *)

Module Layout.
Import Js.

(** The layout's [session] and what the session store holds. *)
Record State : Type := {
  session : Api.SessionInfo;
  store : Api.SessionInfo
}.

Inductive ending : Type :=
| Completed
| Threw.

Section WithEnv.

Variable fetch : Api.FetchCall -> option Api.Response.
Variable PUBLIC_API_BASE : option string.

(** [handleLogout]: [await logout(); const refreshed = await fetchSession();
    session = refreshed; setSession(refreshed);] *)
Definition handleLogout (st : State) : State * ending :=
  match ApiMore.logout fetch PUBLIC_API_BASE with
  | Throw _ => (st, Threw)
  | Return _ =>
      match Api.fetchSession fetch PUBLIC_API_BASE with
      | Throw _ => (st, Threw)
      | Return refreshed => ({| session := refreshed; store := refreshed |}, Completed)
      end
  end.

End WithEnv.

End Layout.

(* ===================================================================== *)
(** * Shapes, wiring and sample inputs for the properties below *)
(* ===================================================================== *)

Module Shapes.
Import JsString Js.

(** A value [mapTopFixes] accepts: nothing, or an array without [null] or
    [undefined] entries. *)
Definition fixes_shaped (fixes : value) : bool :=
  match fixes with
  | VUndefined | VNull => true
  | VArr items => forallb (fun item => negb (is_nullish item)) items
  | _ => false
  end.

(** The entry [mapTopFixes] makes of an item. *)
Definition fix_entry (item : value) : value :=
  VObj [("impact", nullish_or (opt_member item "impact") (VStr "medium"));
        ("reason", opt_member item "reason");
        ("howToFix", opt_member item "how_to_fix")].

(** The entries of an array, none for any other value. *)
Definition items_of (fixes : value) : list value :=
  match fixes with VArr items => items | _ => [] end.

(** A payload [mapAssessment] accepts: an object-like value whose five
    sections are there and whose [top_fixes] is acceptable. *)
Definition well_shaped (payload : value) : bool :=
  negb (is_nullish payload)
  && negb (is_nullish (opt_member payload "section_scores"))
  && negb (is_nullish (opt_member payload "photo_stats"))
  && negb (is_nullish (opt_member payload "copy_stats"))
  && negb (is_nullish (opt_member payload "trust_signals"))
  && negb (is_nullish (opt_member payload "amenities"))
  && fixes_shaped (opt_member payload "top_fixes").

(** The lists of a mapped assessment that the results template reads
    [.length] of, by section and field. *)
Definition template_lists : list (string * string) :=
  [ ("photoStats", "coverage"); ("photoStats", "missingCoverage");
    ("amenities", "listed"); ("amenities", "textHits");
    ("amenities", "likelyPresentNotListed"); ("amenities", "listedNoTextEvidence");
    ("trustSignals", "reviewSnippets") ].

(** The flags of a mapped assessment that its mappers pass through [Boolean]. *)
Definition template_flags : list (string * string) :=
  [ ("photoStats", "hasExteriorNight"); ("photoStats", "usesLegacyGallery");
    ("trustSignals", "hasHouseRules"); ("trustSignals", "hasSummary") ].

Definition is_boolean (v : value) : bool :=
  match v with VBool _ => true | _ => false end.

Definition is_array (v : value) : bool :=
  match v with VArr _ => true | _ => false end.

(** The [detail] of a response body, when the body is JSON and the field is
    neither absent, [null] nor [undefined]. *)
Definition detail_of (response : Api.Response) : option value :=
  match Api.json response with
  | Some (VObj fields) =>
      match assoc "detail" fields with
      | Some VUndefined | Some VNull | None => None
      | Some detail => Some detail
      end
  | _ => None
  end.

(** A string made of slashes only. *)
Fixpoint all_slashes (s : string) : bool :=
  match s with
  | EmptyString => true
  | String c r => is_slash c && all_slashes r
  end.

(** The fixes of the visible slots, in order. *)
Definition visible_fixes (slots : list Results.FixSlot) : list Results.TopFix :=
  omap (fun slot => match slot with
                    | Results.Locked _ => None
                    | Results.Unlocked _ fix_ => Some fix_
                    end) slots.

(** The props the page hands to the results component for an envelope whose
    report has the top fixes [fixes]: [meta={reportEnvelope.meta}]. *)
Definition results_props (envelope : PageFlow.ReportEnvelope) (fixes : list Results.TopFix)
  : Results.Props :=
  {| Results.topFixes := fixes;
     Results.isPaid := PageFlow.isPaid (PageFlow.meta envelope);
     Results.meta_hiddenFixCount := PageFlow.hiddenFixCount (PageFlow.meta envelope) |}.

(** The props the page hands to the drawer: [session={session}],
    [hiddenCount={upgradeHiddenCount}], [visible={shouldRevealUpgrade}]. *)
Definition drawer_props (fl : PageFlow.Flow) (upgradeLoading : bool) : Drawer.Props :=
  {| Drawer.hiddenCount := PageFlow.upgradeHiddenCount (PageFlow.reportEnvelope (PageFlow.view fl));
     Drawer.session := Page.session (PageFlow.page fl);
     Drawer.visible := PageFlow.shouldRevealUpgrade fl;
     Drawer.loading := upgradeLoading;
     Drawer.status := Page.upgradeStatus (PageFlow.page fl);
     Drawer.error := Page.upgradeError (PageFlow.page fl) |}.

End Shapes.

Module MoreSamples.
Import Js.

Definition two_fixes : value :=
  VArr [ VObj [("impact", VStr "high"); ("reason", VStr "Too few photos");
               ("how_to_fix", VStr "Upload at least 20 photos")];
         VObj [("reason", VStr "Description is hard to read");
               ("how_to_fix", VStr "Use shorter sentences")] ].

(** A backend that refuses every call with a JSON detail. *)
Definition refusing_backend (_ : Api.FetchCall) : option Api.Response :=
  Some {| Api.ok := false; Api.status := 402; Api.statusText := "Payment Required";
          Api.json := Some (VObj [("detail", VStr "Payment not completed.")]) |}.

(** A backend that answers every call with a signed-in session. *)
Definition signed_in_backend (_ : Api.FetchCall) : option Api.Response :=
  Some {| Api.ok := true; Api.status := 200; Api.statusText := "OK";
          Api.json := Some (VObj [("authenticated", VBool true);
                                  ("email", VStr "host@example.com");
                                  ("credits", VObj [("available", VNum 1)])]) |}.

(** A backend that answers every call with a checkout session. *)
Definition checkout_backend (_ : Api.FetchCall) : option Api.Response :=
  Some {| Api.ok := true; Api.status := 200; Api.statusText := "OK";
          Api.json := Some (VObj [("checkout_id", VStr "cs_1");
                                  ("checkout_url", VStr "https://pay.example.com/cs_1")]) |}.

(** A backend on which every session is gone. *)
Definition signed_out_backend (_ : Api.FetchCall) : option Api.Response :=
  Some {| Api.ok := false; Api.status := 401; Api.statusText := "Unauthorized";
          Api.json := None |}.

Definition signed_in : Page.SessionInfo :=
  {| Page.authenticated := true; Page.email := Some "host@example.com";
     Page.credits := Some {| Page.available := 2; Page.nextExpiration := None |} |}.

Definition listing_form : Form.FormState :=
  {| Form.url := "  https://www.airbnb.com/rooms/12345678 "; Form.force := true |}.

Definition fix_named (name : string) : Results.TopFix :=
  {| Results.impact := Results.medium; Results.reason := name;
     Results.howToFix := "See the guide" |}.

(** A free preview of a report with six fixes, two of them behind the upgrade. *)
Definition six_fix_preview : Results.Props :=
  {| Results.topFixes := [ fix_named "A"; fix_named "B"; fix_named "C";
                           fix_named "D"; fix_named "E"; fix_named "F" ];
     Results.isPaid := false;
     Results.meta_hiddenFixCount := Some 2%Z |}.

(** A free envelope that hides four fixes. *)
Definition free_envelope : PageFlow.ReportEnvelope :=
  {| PageFlow.report := VNull;
     PageFlow.meta := {| PageFlow.reportType := Api.free; PageFlow.isPaid := false;
                         PageFlow.creditId := None;
                         PageFlow.hiddenFixCount := Some 4%Z |} |}.

(** A page on which a second listing was submitted while the first one was
    still being assessed. *)
Definition resubmitted : PageFlow.Flow :=
  PageFlow.step
    (PageFlow.Submit {| Page.sub_url := "https://www.airbnb.com/rooms/2";
                        Page.sub_force := false |})
    (PageFlow.step
       (PageFlow.Submit {| Page.sub_url := "https://www.airbnb.com/rooms/1";
                           Page.sub_force := false |})
       (PageFlow.onMount EmptyString (PageFlow.fresh signed_in))).

(** The same page once the free report of the second listing has arrived and
    the visitor has scrolled. *)
Definition previewing : PageFlow.Flow :=
  PageFlow.step PageFlow.ShowUpgrade
    (PageFlow.step (PageFlow.Finish 1 (PageFlow.Resolved free_envelope)) resubmitted).

(** A paid envelope, which hides nothing. *)
Definition paid_envelope : PageFlow.ReportEnvelope :=
  {| PageFlow.report := VNull;
     PageFlow.meta := {| PageFlow.reportType := Api.paid; PageFlow.isPaid := true;
                         PageFlow.creditId := Some "credit-1";
                         PageFlow.hiddenFixCount := Some 0%Z |} |}.

(** The page of [resubmitted] once the visitor has asked for the paid report
    of the second listing and that report has arrived: the session is being
    refreshed. *)
Definition refreshing_session : PageFlow.Flow :=
  PageFlow.step (PageFlow.Finish 2 (PageFlow.Resolved paid_envelope))
    (PageFlow.step PageFlow.RunPaid resubmitted).

(** The same page when the visitor submits a third listing before the
    refreshed session has arrived. *)
Definition submitted_while_refreshing : PageFlow.Flow :=
  PageFlow.step
    (PageFlow.Submit {| Page.sub_url := "https://www.airbnb.com/rooms/3";
                        Page.sub_force := false |})
    refreshing_session.

(** A session with one credit fewer. *)
Definition one_credit_left : Page.SessionInfo :=
  {| Page.authenticated := true; Page.email := Some "host@example.com";
     Page.credits := Some {| Page.available := 1; Page.nextExpiration := None |} |}.

End MoreSamples.

(* ===================================================================== *)
(** * Properties of lib/api.ts *)
(* ===================================================================== *)

Module ApiFacts.
Import JsString Js Api Samples.ApiSamples.

Lemma is_slash_true (c : ascii) : is_slash c = true -> c = "/"%char.
Proof. unfold is_slash. intros H. now apply Ascii.eqb_eq in H. Qed.

Lemma prefix_slash (c : ascii) (r : string) :
  String.prefix "/" (String c r) = is_slash c.
Proof.
  unfold is_slash. cbn [String.prefix].
  destruct (ascii_dec "/" c) as [<- | Hne].
  - destruct r; reflexivity.
  - symmetry. apply Ascii.eqb_neq. congruence.
Qed.

Lemma separator_form (base path : string) :
  (base ++ (if startsWith path "/" then path else "/" ++ path)
   = base ++ "/" ++ drop_leading_slash path)%string.
Proof.
  f_equal. unfold startsWith. destruct path as [| c r].
  - reflexivity.
  - rewrite prefix_slash. cbn [drop_leading_slash].
    destruct (is_slash c) eqn:Hc; [| reflexivity].
    apply is_slash_true in Hc. now subst c.
Qed.

Lemma strip_no_trailing_slash (s : string) :
  ends_with_slash (strip_trailing_slashes s) = false.
Proof.
  induction s as [| c r IH]; [reflexivity |].
  cbn [strip_trailing_slashes].
  destruct (is_slash c) eqn:Hc; cbn [andb].
  - destruct (strip_trailing_slashes r) eqn:Hr; cbn [is_empty]; [reflexivity |].
    exact IH.
  - destruct (strip_trailing_slashes r) eqn:Hr; [| exact IH].
    cbn. exact Hc.
Qed.

Lemma API_BASE_no_trailing_slash (env : option string) :
  ends_with_slash (API_BASE env) = false.
Proof. destruct env; [apply strip_no_trailing_slash | reflexivity]. Qed.

Lemma prefix_append (p s x : string) :
  String.prefix p s = true -> String.prefix p (s ++ x)%string = true.
Proof.
  revert s. induction p as [| a p IH]; intros s H.
  - destruct (s ++ x)%string; reflexivity.
  - destruct s as [| b s]; [discriminate |].
    simpl in H |- *. destruct (ascii_dec a b); [now apply IH | discriminate].
Qed.

Lemma is_absolute_append (base x : string) :
  is_absolute base = true -> is_absolute (base ++ x)%string = true.
Proof.
  unfold is_absolute, startsWith. intros H.
  apply orb_true_iff in H. apply orb_true_iff.
  destruct H as [H | H]; [left | right]; now apply prefix_append.
Qed.

Lemma withBase_of_absolute (env : option string) (path : string) :
  is_absolute path = true -> withBase env path = path.
Proof. intros H. unfold withBase. now rewrite H. Qed.

(** C8. [withBase] returns a path that starts with [http://] or [https://]
    unchanged; any other path comes back as it is when [API_BASE] is empty,
    and otherwise as [API_BASE], one slash, and the path without its own
    leading slash, where [API_BASE] never ends in a slash.  When [API_BASE]
    is empty or itself starts with [http://] or [https://], applying
    [withBase] twice is the same as applying it once. *)
Theorem withBase_absolute_and_idempotent (env : option string) (path : string) :
  withBase env path
  = (if is_absolute path then path
     else if is_empty (API_BASE env) then path
     else API_BASE env ++ "/" ++ drop_leading_slash path)%string
  /\ ends_with_slash (API_BASE env) = false
  /\ (is_empty (API_BASE env) || is_absolute (API_BASE env) = true ->
      withBase env (withBase env path) = withBase env path).
Proof.
  split; [| split].
  - unfold withBase.
    destruct (is_absolute path); [reflexivity |].
    destruct (is_empty (API_BASE env)); [reflexivity |].
    apply separator_form.
  - apply API_BASE_no_trailing_slash.
  - intros Hbase. unfold withBase at 2 3.
    destruct (is_absolute path) eqn:Habs.
    + now apply withBase_of_absolute.
    + destruct (is_empty (API_BASE env)) eqn:Hempty.
      * unfold withBase. now rewrite Habs, Hempty.
      * cbn [orb] in Hbase. apply withBase_of_absolute.
        now apply is_absolute_append.
Qed.

Lemma withBase_absolute_and_idempotent_witness :
  is_empty (API_BASE (Some "https://api.hostscore.test//"))
  || is_absolute (API_BASE (Some "https://api.hostscore.test//")) = true
  /\ withBase (Some "https://api.hostscore.test//")
       (withBase (Some "https://api.hostscore.test//") "assess")
     = "https://api.hostscore.test/assess".
Proof.
  split; [reflexivity |].
  destruct (withBase_absolute_and_idempotent (Some "https://api.hostscore.test//") "assess")
    as (_ & _ & Hidem).
  rewrite Hidem; reflexivity.
Defined.

(** ** Failures of [assessListing] *)

Lemma failure_message_detail (response : Response) :
  failure_message response
  = match detail_string response with
    | Some detail => detail
    | None => if is_empty (statusText response) then "Failed to assess listing."
              else statusText response
    end.
Proof.
  unfold failure_message, detail_string.
  destruct (json response) as [[| | | | | |fields] |]; try reflexivity.
  cbn [opt_member]. destruct (assoc "detail" fields) as [[]|]; reflexivity.
Qed.

(** C6. On a response to [POST /assess] that is not ok, [assessListing]
    throws an [AssessmentError] that carries the response status and, as its
    message, the body's [detail] when that is a string, otherwise the status
    text, or the fixed fallback when the status text is empty; it returns no
    report. *)
Theorem assessListing_typed_error
    (fetch : FetchCall -> option Response) (env : option string)
    (payload : AssessmentPayload) (response : Response) :
  fetch (assess_call env payload) = Some response ->
  ok response = false ->
  (exists message,
      assessListing fetch env payload
      = Throw (Raised {| error_status := status response; error_message := message |})
      /\ (forall detail, detail_string response = Some detail -> message = detail)
      /\ (detail_string response = None ->
          message = if is_empty (statusText response) then "Failed to assess listing."
                    else statusText response))
  /\ (forall report, assessListing fetch env payload <> Return report).
Proof.
  intros Hfetch Hok.
  assert (Hthrow : assessListing fetch env payload
                   = Throw (Raised {| error_status := status response;
                                      error_message := failure_message response |})).
  { unfold assessListing, await_fetch. rewrite Hfetch. cbn [bind]. now rewrite Hok. }
  split.
  - exists (failure_message response). split; [exact Hthrow |].
    rewrite failure_message_detail.
    split.
    + intros detail Hd. now rewrite Hd.
    + intros Hd. now rewrite Hd.
  - intros report. rewrite Hthrow. discriminate.
Qed.

Lemma assessListing_typed_error_witness :
  assessListing rejecting_backend None sample_payload
  = Throw (Raised {| error_status := 402; error_message := "No credits available." |}).
Proof.
  destruct (assessListing_typed_error rejecting_backend None sample_payload
              {| ok := false; status := 402; statusText := "Payment Required";
                 json := Some (VObj [("detail", VStr "No credits available.")]) |}
              eq_refl eq_refl) as [(message & Hthrow & Hdetail & _) _].
  rewrite Hthrow. rewrite (Hdetail "No credits available." eq_refl). reflexivity.
Defined.

(** ** [fetchSession] *)

(** C5. [fetchSession] fails closed.  When the response to
    [GET /auth/session] is not ok, or its payload is [null], or the payload's
    [authenticated] is absent or falsy, the session returned is not
    authenticated.  Whenever an authenticated session is returned, the
    response was ok and its payload's [authenticated] was truthy. *)
Theorem fetchSession_fails_closed
    (fetch : FetchCall -> option Response) (env : option string) :
  (forall response,
      fetch (session_call env) = Some response ->
      ok response = false
      \/ (exists data, json response = Some data
                       /\ (is_nullish data = true
                           \/ opt_member data "authenticated" = VUndefined
                           \/ truthy (opt_member data "authenticated") = false)) ->
      exists info, fetchSession fetch env = Return info /\ authenticated info = false)
  /\ (forall info,
         fetchSession fetch env = Return info ->
         authenticated info = true ->
         exists response data,
           fetch (session_call env) = Some response
           /\ ok response = true
           /\ json response = Some data
           /\ truthy (opt_member data "authenticated") = true).
Proof.
  split.
  - intros response Hfetch Hcase.
    unfold fetchSession, await_fetch. rewrite Hfetch. cbn [bind].
    destruct (ok response) eqn:Hok; cbn [negb].
    + destruct Hcase as [Hno | (data & Hjson & Hdata)]; [discriminate |].
      unfold read_json. rewrite Hjson. cbn [bind].
      eexists. split; [reflexivity |]. cbn [authenticated].
      destruct Hdata as [Hnull | [Habsent | Hfalsy]].
      * destruct data; try discriminate; reflexivity.
      * now rewrite Habsent.
      * exact Hfalsy.
    + eexists. split; reflexivity.
  - intros info. unfold fetchSession, await_fetch.
    destruct (fetch (session_call env)) as [response |] eqn:Hfetch; [| discriminate].
    cbn [bind]. destruct (ok response) eqn:Hok; cbn [negb].
    + unfold read_json. destruct (json response) as [data |] eqn:Hjson; [| discriminate].
      cbn [bind]. intros [= <-] Hauth. cbn [authenticated] in Hauth.
      exists response, data. repeat split; assumption.
    + intros [= <-]. discriminate.
Qed.

Lemma fetchSession_fails_closed_witness :
  exists info, fetchSession anonymous_backend None = Return info
               /\ authenticated info = false.
Proof.
  destruct (fetchSession_fails_closed anonymous_backend None) as [Hclosed _].
  apply (Hclosed {| ok := true; status := 200; statusText := "OK";
                    json := Some (VObj [("authenticated", VBool false)]) |}).
  - reflexivity.
  - right. exists (VObj [("authenticated", VBool false)]).
    split; [reflexivity |]. right. right. reflexivity.
Defined.

(** ** The interface of [POST /assess] *)

Lemma mapAssessment_needs_object (payload : value) (report : value) :
  mapAssessment payload = Return report -> is_nullish payload = false.
Proof.
  unfold mapAssessment, member.
  destruct (is_nullish payload); [discriminate | reflexivity].
Qed.


Lemma request_fields (env : option string) (payload : AssessmentPayload) :
  exists u t f,
    body (init (assess_call env payload))
    = Some (VObj [("url", u); ("report_type", t); ("force", f)]).
Proof. unfold assess_call, apiBody. cbn. eauto. Qed.


(** Nor is a meta field [tier] what the client reads the tier from. *)
Lemma tier_field_is_not_read :
  exists meta,
    assessListing tier_named_backend None sample_payload
    = Return (VObj [("report",
                     match mapAssessment sample_report with
                     | Return r => r
                     | Throw _ => VUndefined
                     end);
                    ("meta", meta)])
    /\ opt_member meta "reportType" = VUndefined.
Proof. eexists. split; [vm_compute; reflexivity | reflexivity]. Qed.



End ApiFacts.

(* ===================================================================== *)
(** * Properties of the fix slots *)
(* ===================================================================== *)

Module ResultsFacts.
Import Results Samples.

Section Slots.

Variable props : Props.

Local Abbreviation limited := (topFixesLimited props).
Local Abbreviation hidden := (hiddenFixCount props).

Lemma limited_length : length limited <= 5.
Proof. unfold topFixesLimited. rewrite length_take. lia. Qed.

(** *** The paid branch *)

Lemma push_each_numbered (fixes : list TopFix) (idx : Z) (slots : list FixSlot) :
  push_each idx fixes slots
  = slots ++ imap (fun i fix_ => Unlocked (idx + Z.of_nat i + 1) fix_) fixes.
Proof.
  revert idx slots. induction fixes as [| fix_ rest IH]; intros idx slots.
  - cbn. now rewrite app_nil_r.
  - cbn [push_each]. rewrite IH, <- app_assoc. cbn [app imap]. f_equal.
    rewrite Z.add_0_r. f_equal.
    apply imap_ext. intros i x _. cbn. f_equal. lia.
Qed.

(** *** The loop of the free branch *)

Lemma loop_body_app (i : Z) (slots : list FixSlot) :
  loop_body props i slots = slots ++ loop_body props i [].
Proof.
  unfold loop_body. destruct (i <? hidden)%Z; [reflexivity |].
  destruct (limited !! Z.to_nat (i - hidden)); [reflexivity |].
  now rewrite app_nil_r.
Qed.

Lemma for_loop_app (turns : nat) (i : Z) (slots : list FixSlot) :
  for_loop props turns i slots = slots ++ for_loop props turns i [].
Proof.
  revert i slots. induction turns as [| turns IH]; intros i slots.
  - cbn. now rewrite app_nil_r.
  - cbn [for_loop]. rewrite IH, (IH _ (loop_body props i [])).
    rewrite (loop_body_app i slots). now rewrite app_assoc.
Qed.

Lemma for_loop_step (turns : nat) (i : Z) :
  for_loop props (S turns) i [] = loop_body props i [] ++ for_loop props turns (i + 1) [].
Proof. cbn [for_loop]. apply for_loop_app. Qed.

Lemma for_loop_split (a b : nat) (i : Z) :
  for_loop props (a + b) i []
  = for_loop props a i [] ++ for_loop props b (i + Z.of_nat a) [].
Proof.
  revert i. induction a as [| a IH]; intros i.
  - cbn. now rewrite Z.add_0_r.
  - change (S a + b)%nat with (S (a + b)). rewrite !for_loop_step, IH, <- app_assoc.
    do 3 f_equal. lia.
Qed.

Lemma loop_body_length (i : Z) : length (loop_body props i []) <= 1.
Proof.
  unfold loop_body. destruct (i <? hidden)%Z; [cbn; lia |].
  destruct (limited !! Z.to_nat (i - hidden)); cbn; lia.
Qed.

Lemma for_loop_length (turns : nat) (i : Z) :
  length (for_loop props turns i []) <= turns.
Proof.
  revert i. induction turns as [| turns IH]; intros i; [cbn; lia |].
  rewrite for_loop_step, length_app.
  pose proof (loop_body_length i). pose proof (IH (i + 1)%Z). lia.
Qed.

(** While the index is below the hidden count, the loop pushes locked slots. *)
Lemma locked_run (a : nat) (i : Z) :
  (forall k, k < a -> (i + Z.of_nat k < hidden)%Z) ->
  for_loop props a i [] = map (fun k => Locked (i + Z.of_nat k + 1)) (seq 0 a).
Proof.
  revert i. induction a as [| a IH]; intros i Hbelow; [reflexivity |].
  rewrite for_loop_step. cbn [seq map]. rewrite <- seq_shift, map_map.
  unfold loop_body at 1.
  assert (Hi : (i <? hidden)%Z = true).
  { apply Z.ltb_lt. specialize (Hbelow 0 ltac:(lia)). lia. }
  rewrite Hi. cbn [app]. rewrite Z.add_0_r. f_equal.
  rewrite IH.
  - apply map_ext. intros k. f_equal. lia.
  - intros k Hk. specialize (Hbelow (S k) ltac:(lia)). lia.
Qed.

(** From the hidden count on, it pushes visible fixes only. *)
Lemma unlocked_run (b : nat) (i : Z) :
  (hidden <= i)%Z ->
  Forall (fun slot => locked slot = false) (for_loop props b i []).
Proof.
  revert i. induction b as [| b IH]; intros i Hi; [constructor |].
  rewrite for_loop_step. apply Forall_app. split.
  - unfold loop_body. assert (Hge : (i <? hidden)%Z = false) by now apply Z.ltb_ge.
    rewrite Hge. destruct (limited !! Z.to_nat (i - hidden)); repeat constructor.
  - apply IH. lia.
Qed.

Lemma unlocked_run_fixes (b : nat) (i : Z) :
  Forall (fun slot => match slot with
                      | Locked _ => True
                      | Unlocked _ fix_ => fix_ ∈ limited
                      end) (for_loop props b i []).
Proof.
  revert i. induction b as [| b IH]; intros i; [constructor |].
  rewrite for_loop_step. apply Forall_app. split; [| apply IH].
  unfold loop_body. destruct (i <? hidden)%Z; [repeat constructor |].
  destruct (limited !! Z.to_nat (i - hidden)) as [fix_ |] eqn:Hfix; repeat constructor.
  eapply list_elem_of_lookup_2. exact Hfix.
Qed.

End Slots.

Lemma count_partition (slots : list FixSlot) :
  locked_count slots + visible_count slots = length slots.
Proof.
  unfold locked_count, visible_count.
  induction slots as [| slot rest IH]; [reflexivity |].
  cbn [List.filter]. destruct (locked slot); cbn [negb length]; lia.
Qed.

Lemma locked_count_prefix (n : nat) : locked_count (locked_prefix n) = n.
Proof.
  unfold locked_count, locked_prefix.
  transitivity (length (seq 0 n)); [| apply length_seq].
  generalize (seq 0 n). intros l.
  induction l as [| k l IH]; [reflexivity |]. cbn. now rewrite IH.
Qed.

Lemma locked_count_visible (slots : list FixSlot) :
  Forall (fun slot => locked slot = false) slots -> locked_count slots = 0.
Proof.
  unfold locked_count. induction 1 as [| slot rest Hslot _ IH]; [reflexivity |].
  cbn [List.filter]. now rewrite Hslot.
Qed.

Lemma paid_slots (props : Props) :
  isPaid props = true ->
  fixSlots props
  = imap (fun i fix_ => Unlocked (Z.of_nat i + 1) fix_) (topFixesLimited props).
Proof.
  intros Hpaid. unfold fixSlots. rewrite Hpaid, push_each_numbered. reflexivity.
Qed.

Lemma imap_unlocked (fixes : list TopFix) (f : nat -> Z) :
  Forall (fun slot => locked slot = false) (imap (fun i fix_ => Unlocked (f i) fix_) fixes).
Proof.
  revert f. induction fixes as [| fix_ rest IH]; intros f; [constructor |].
  cbn [imap]. constructor; [reflexivity |]. apply (IH (f ∘ S)).
Qed.

Lemma imap_fixes_from (pool fixes : list TopFix) (f : nat -> Z) :
  Forall (fun fix_ => fix_ ∈ pool) fixes ->
  Forall (fun slot => match slot with
                      | Locked _ => True
                      | Unlocked _ fix_ => fix_ ∈ pool
                      end) (imap (fun i fix_ => Unlocked (f i) fix_) fixes).
Proof.
  intros Hall. revert f. induction Hall as [| fix_ rest Hin _ IH]; intros f; [constructor |].
  cbn [imap]. constructor; [exact Hin | apply (IH (f ∘ S))].
Qed.

Lemma free_slots (props : Props) :
  isPaid props = false ->
  exists visible,
    fixSlots props
    = locked_prefix (Z.to_nat (Z.min (hidden_or_zero props) 3)) ++ visible
    /\ Forall (fun slot => locked slot = false) visible.
Proof.
  intros Hfree.
  assert (Hh : hiddenFixCount props = Z.min (hidden_or_zero props) 3).
  { unfold hiddenFixCount. now rewrite Hfree. }
  set (a := Z.to_nat (Z.min (hidden_or_zero props) 3)).
  pose proof (limited_length props) as Hlen.
  assert (Hturns : Z.to_nat (totalSlots props)
                   = a + (Z.to_nat (totalSlots props) - a)).
  { unfold totalSlots, a. rewrite Hh. lia. }
  unfold fixSlots. rewrite Hfree, Hturns, for_loop_split.
  eexists. split.
  - f_equal. rewrite locked_run.
    + unfold locked_prefix. apply map_ext. intros k. f_equal.
    + intros k Hk. rewrite Hh. unfold a in Hk. lia.
  - apply unlocked_run. rewrite Hh. unfold a. lia.
Qed.

(** C4. The results view shows at most five top fixes: the list it renders
    from is the first five entries of [assessment.topFixes], every visible
    slot holds one of them, and the slots, locked placeholders and visible
    fixes together, are never more than five. *)
Theorem top_fixes_at_most_five (props : Props) :
  topFixesLimited props `prefix_of` topFixes props
  /\ length (topFixesLimited props) = Nat.min 5 (length (topFixes props))
  /\ Forall (fun slot => match slot with
                         | Locked _ => True
                         | Unlocked _ fix_ => fix_ ∈ topFixesLimited props
                         end) (fixSlots props)
  /\ locked_count (fixSlots props) + visible_count (fixSlots props)
     = length (fixSlots props)
  /\ length (fixSlots props) <= 5.
Proof.
  split; [| split; [| split; [| split]]].
  - exists (drop 5 (topFixes props)). symmetry. apply take_drop.
  - unfold topFixesLimited. apply length_take.
  - unfold fixSlots. destruct (isPaid props).
    + rewrite push_each_numbered. cbn [app].
      apply (imap_fixes_from _ _ (fun i => (0 + Z.of_nat i + 1)%Z)).
      apply Forall_forall. auto.
    + apply unlocked_run_fixes.
  - apply count_partition.
  - unfold fixSlots. destruct (isPaid props) eqn:Hpaid.
    + rewrite push_each_numbered. cbn [app]. rewrite length_imap.
      apply limited_length.
    + pose proof (for_loop_length props (Z.to_nat (totalSlots props)) 0).
      unfold totalSlots in *. lia.
Qed.

(** C9. In a paid report no slot is locked and there is one unlocked slot per
    fix of the truncated list, in order.  In a free preview the slots are the
    locked placeholders, as many as [min(meta.hiddenFixCount ?? 0, 3)],
    followed by visible fixes only. *)
Theorem locked_slots_lead (props : Props) :
  (isPaid props = true ->
     locked_count (fixSlots props) = 0
     /\ fixSlots props
        = imap (fun i fix_ => Unlocked (Z.of_nat i + 1) fix_) (topFixesLimited props))
  /\ (isPaid props = false ->
      exists visible,
        fixSlots props
        = locked_prefix (locked_count (fixSlots props)) ++ visible
        /\ Forall (fun slot => locked slot = false) visible
        /\ locked_count (fixSlots props) = Z.to_nat (Z.min (hidden_or_zero props) 3)
        /\ (0 <= hidden_or_zero props ->
            Z.of_nat (locked_count (fixSlots props)) = Z.min (hidden_or_zero props) 3))%Z.
Proof.
  split.
  - intros Hpaid. rewrite (paid_slots props Hpaid). split; [| reflexivity].
    apply locked_count_visible, imap_unlocked.
  - intros Hfree. destruct (free_slots props Hfree) as (visible & Hslots & Hvisible).
    assert (Hcount : locked_count (fixSlots props)
                     = Z.to_nat (Z.min (hidden_or_zero props) 3)).
    { rewrite Hslots. unfold locked_count. rewrite List.filter_app, length_app.
      fold (locked_count (locked_prefix (Z.to_nat (Z.min (hidden_or_zero props) 3)))).
      fold (locked_count visible).
      rewrite locked_count_prefix, (locked_count_visible _ Hvisible). lia. }
    exists visible. rewrite Hcount. repeat split; try assumption. lia.
Qed.

Lemma locked_slots_lead_witness :
  isPaid ResultsSamples.free_preview = false
  /\ (0 <= hidden_or_zero ResultsSamples.free_preview)%Z
  /\ Z.of_nat (locked_count (fixSlots ResultsSamples.free_preview)) = 3%Z
  /\ fixSlots ResultsSamples.free_preview
     = [Locked 1; Locked 2; Locked 3;
        Unlocked 4 ResultsSamples.fix_photos; Unlocked 5 ResultsSamples.fix_copy].
Proof.
  split; [reflexivity |]. split; [cbn; lia |].
  destruct (locked_slots_lead ResultsSamples.free_preview) as [_ Hfree].
  destruct (Hfree eq_refl) as (visible & _ & _ & _ & Hmin).
  split; [| reflexivity].
  rewrite Hmin; [reflexivity | cbn; lia].
Defined.

End ResultsFacts.

(* ===================================================================== *)
(** * Properties of the page's submission handlers *)
(* ===================================================================== *)

Module PageFacts.
Import JsString Page Samples.

(** ** [trim] is idempotent *)

Lemma trim_end_idempotent (s : string) : trim_end (trim_end s) = trim_end s.
Proof.
  induction s as [| c r IH]; [reflexivity |].
  cbn [trim_end].
  destruct (is_white_space c && is_empty (trim_end r)) eqn:Hdrop; [reflexivity |].
  cbn [trim_end]. rewrite IH, Hdrop. reflexivity.
Qed.

Lemma trim_start_head (s : string) :
  match trim_start s with
  | EmptyString => True
  | String c _ => is_white_space c = false
  end.
Proof.
  induction s as [| c r IH]; [exact I |].
  cbn [trim_start]. destruct (is_white_space c) eqn:Hc; [exact IH | exact Hc].
Qed.

Lemma trim_idempotent (s : string) : trim (trim s) = trim s.
Proof.
  unfold trim. pose proof (trim_start_head s) as Hhead.
  destruct (trim_start s) as [| c r]; [reflexivity |].
  cbn [trim_end]. rewrite Hhead. cbn [andb trim_start]. rewrite Hhead.
  change (trim_end (String c (trim_end r))) with
    (if is_white_space c && is_empty (trim_end (trim_end r)) then EmptyString
     else String c (trim_end (trim_end r))).
  rewrite Hhead. cbn [andb]. now rewrite trim_end_idempotent.
Qed.

(** ** [lastSubmission] always holds a sanitized URL *)

Lemma ensurePaidReady_lastSubmission (st : State) :
  lastSubmission (fst (ensurePaidReady st)) = lastSubmission st.
Proof.
  unfold ensurePaidReady.
  destruct (negb (authenticated (session st))); [reflexivity |].
  destruct (credits_available (session st) <=? 0)%Z; reflexivity.
Qed.

Lemma startAssessment_lastSubmission (sub : Submission) (st : State) :
  lastSubmission (fst (startAssessment sub st))
  = if is_empty (trim (sub_url sub)) then lastSubmission st
    else Some {| sub_url := trim (sub_url sub); sub_force := sub_force sub |}.
Proof.
  unfold startAssessment.
  destruct (is_empty (trim (sub_url sub))); [reflexivity |].
  cbn [activeReportType with_lastSubmission].
  destruct (activeReportType st).
  - reflexivity.
  - match goal with
    | |- context [ensurePaidReady ?x] =>
        pose proof (ensurePaidReady_lastSubmission x) as Hkeep;
        destruct (ensurePaidReady x) as [st' ready]
    end.
    cbn [fst] in Hkeep. destruct ready; cbn [negb fst]; exact Hkeep.
Qed.

Lemma startAssessment_sanitized (sub : Submission) (st : State) :
  sanitized st -> sanitized (fst (startAssessment sub st)).
Proof.
  unfold sanitized. rewrite startAssessment_lastSubmission.
  destruct (is_empty (trim (sub_url sub))) eqn:Hblank; [trivial |].
  intros _. cbn [sub_url]. split; [apply trim_idempotent | exact Hblank].
Qed.

Lemma setReportType_lastSubmission (mode : Api.ReportType) (st : State) :
  lastSubmission (setReportType mode st) = lastSubmission st.
Proof. destruct mode; reflexivity. Qed.

Lemma handle_sanitized (ev : event) (st : State) :
  sanitized st -> sanitized (fst (handle ev st)).
Proof.
  intros Hst. destruct ev as [detail | | failure | s | err status]; cbn [handle];
    try exact Hst.
  - apply startAssessment_sanitized. unfold sanitized.
    now rewrite setReportType_lastSubmission.
  - unfold handleRunPaid.
    assert (Hpaid : sanitized (setReportType Api.paid st)).
    { unfold sanitized. now rewrite setReportType_lastSubmission. }
    destruct (lastSubmission (setReportType Api.paid st));
      [now apply startAssessment_sanitized | exact Hpaid].
Qed.

Lemma reachable_sanitized (st : State) : reachable st -> sanitized st.
Proof.
  induction 1 as [s initialUrl | ev st _ IH].
  - unfold onMount. destruct (is_empty initialUrl); [exact I |].
    now apply startAssessment_sanitized.
  - now apply handle_sanitized.
Qed.

(** ** The paid report *)

Lemma ensurePaidReady_spec (st : State) :
  ensurePaidReady st
  = if paid_ready (session st) then (st, true)
    else (fst (ensurePaidReady st), false).
Proof.
  unfold ensurePaidReady, paid_ready.
  destruct (authenticated (session st)); cbn [negb andb]; [| reflexivity].
  destruct (Z.leb_spec (credits_available (session st)) 0) as [Hle | Hgt];
    destruct (Z.leb_spec 1 (credits_available (session st))); try reflexivity; lia.
Qed.

Lemma ensurePaidReady_refusal (st : State) :
  paid_ready (session st) = false ->
  exists message, upgradeError (fst (ensurePaidReady st)) = Some message.
Proof.
  unfold ensurePaidReady, paid_ready.
  destruct (authenticated (session st)); cbn [negb andb]; [| eauto].
  destruct (Z.leb_spec (credits_available (session st)) 0); [eauto |].
  intros Hno. apply Z.leb_gt in Hno. lia.
Qed.

(** A paid submission of a sanitized URL. *)
Lemma startAssessment_paid (sub : Submission) (st : State) :
  activeReportType st = Api.paid ->
  is_empty (trim (sub_url sub)) = false ->
  if paid_ready (session st)
  then snd (startAssessment sub st)
       = [ {| Api.url := trim (sub_url sub); Api.reportType := Api.paid;
              Api.force := Some (sub_force sub) |} ]
  else snd (startAssessment sub st) = []
       /\ exists message, upgradeError (fst (startAssessment sub st)) = Some message.
Proof.
  intros Hpaid Hurl. unfold startAssessment. rewrite Hurl.
  cbn [activeReportType with_lastSubmission]. rewrite Hpaid.
  match goal with
  | |- context [ensurePaidReady ?x] =>
      pose proof (ensurePaidReady_spec x) as Hspec;
      pose proof (ensurePaidReady_refusal x) as Hrefusal;
      set (st1 := x) in *
  end.
  change (session st1) with (session st) in *.
  destruct (paid_ready (session st)).
  - rewrite Hspec. cbn [negb snd]. unfold begin_loading, st1.
    cbn [activeReportType with_lastSubmission]. now rewrite Hpaid.
  - rewrite Hspec. cbn [negb snd fst]. split; [reflexivity |]. now apply Hrefusal.
Qed.

(** Whatever the state, a paid payload is only ever sent for a ready session. *)
Lemma startAssessment_sends_when_ready (sub : Submission) (st : State)
    (payload : Api.AssessmentPayload) :
  In payload (snd (startAssessment sub st)) ->
  Api.reportType payload = activeReportType st
  /\ (activeReportType st = Api.paid -> paid_ready (session st) = true).
Proof.
  unfold startAssessment.
  destruct (is_empty (trim (sub_url sub))); [intros [] |].
  cbn [activeReportType with_lastSubmission].
  destruct (activeReportType st) eqn:Hmode.
  - cbn [negb snd]. intros [<- | []]. cbn. now rewrite Hmode.
  - match goal with
    | |- context [ensurePaidReady ?x] =>
        pose proof (ensurePaidReady_spec x) as Hspec; set (st1 := x) in *
    end.
    change (session st1) with (session st) in *.
    destruct (paid_ready (session st)).
    + rewrite Hspec. cbn [negb snd]. intros [<- | []]. cbn. now rewrite Hmode.
    + rewrite Hspec. cbn [negb snd]. intros [].
Qed.

(** C7. A paid report is only requested for an authenticated session with at
    least one credit.  On a page in any reachable state: a payload of type
    [paid] is handed to [assessListing] by [handleRunPaid] alone, and only when
    the session is authenticated and has a credit; and running the paid report
    on the last submission sends exactly that one request when both
    preconditions hold, and otherwise sends nothing and sets [upgradeError]. *)
Theorem paid_requires_authorization (st : State) :
  reachable st ->
  (forall ev payload,
      In payload (snd (handle ev st)) ->
      Api.reportType payload = Api.paid ->
      ev = RunPaid
      /\ authenticated (session st) = true
      /\ (1 <= credits_available (session st))%Z)
  /\ (forall sub,
         lastSubmission st = Some sub ->
         if paid_ready (session st)
         then snd (handleRunPaid st)
              = [ {| Api.url := sub_url sub; Api.reportType := Api.paid;
                     Api.force := Some (sub_force sub) |} ]
         else snd (handleRunPaid st) = []
              /\ exists message, upgradeError (fst (handleRunPaid st)) = Some message).
Proof.
  intros Hreach. split.
  - intros ev payload Hsent Hpaid.
    destruct ev as [detail | | failure | s | err status]; cbn [handle] in Hsent;
      try (now destruct Hsent).
    + unfold handleSubmit in Hsent.
      apply startAssessment_sends_when_ready in Hsent. destruct Hsent as [Htype _].
      cbn in Htype. congruence.
    + split; [reflexivity |]. unfold handleRunPaid in Hsent.
      rewrite setReportType_lastSubmission in Hsent.
      destruct (lastSubmission st) as [sub |]; [| destruct Hsent].
      apply startAssessment_sends_when_ready in Hsent. destruct Hsent as [_ Hready].
      specialize (Hready eq_refl). cbn [setReportType with_activeReportType session] in Hready.
      unfold paid_ready in Hready. apply andb_true_iff in Hready.
      destruct Hready as [Hauth Hcredit]. apply Z.leb_le in Hcredit. now split.
  - intros sub Hlast. pose proof (reachable_sanitized st Hreach) as Hsan.
    unfold sanitized in Hsan. rewrite Hlast in Hsan. destruct Hsan as [Htrim Hurl].
    unfold handleRunPaid. rewrite setReportType_lastSubmission, Hlast.
    pose proof (startAssessment_paid sub (setReportType Api.paid st) eq_refl) as Hrun.
    rewrite Htrim in Hrun. specialize (Hrun Hurl).
    exact Hrun.
Qed.

Lemma paid_requires_authorization_witness :
  reachable (PageSamples.after_free_report PageSamples.anonymous)
  /\ snd (handleRunPaid (PageSamples.after_free_report PageSamples.anonymous)) = []
  /\ upgradeError (fst (handleRunPaid (PageSamples.after_free_report PageSamples.anonymous)))
     = Some "Sign in to run the paid report.".
Proof.
  assert (Hreach : reachable (PageSamples.after_free_report PageSamples.anonymous)).
  { unfold PageSamples.after_free_report. apply reachable_step, reachable_mounted. }
  split; [exact Hreach |].
  destruct (paid_requires_authorization _ Hreach) as [_ Hrun].
  specialize (Hrun {| sub_url := "https://www.airbnb.com/rooms/12345678";
                      sub_force := false |} eq_refl).
  cbn in Hrun. destruct Hrun as [Hnone _].
  split; [exact Hnone | reflexivity].
Defined.

End PageFacts.

(* ===================================================================== *)
(** * Properties of the /assess proxy *)
(* ===================================================================== *)

Module ProxyFacts.
Import JsString Proxy Samples.

(** C10, as stated.  Not every backend response is passed through: a backend
    that answers 204 No Content is called once, and the handler then fails
    with the TypeError of the [Response] constructor, which takes no body
    with that status; no response with status 204 is returned. *)
Lemma assess_proxy_passthrough_counterexample :
  POST None ProxySamples.no_content_backend ProxySamples.incoming
  = ([backend_call None ProxySamples.incoming "{ url: ... }"], Failed TypeError)
  /\ ~ passes_every_response_through None ProxySamples.no_content_backend
         ProxySamples.incoming.
Proof.
  split; [reflexivity |].
  intros Hclaim.
  destruct (Hclaim "{ url: ... }" _ eq_refl eq_refl) as (out & Hout & _).
  vm_compute in Hout. discriminate Hout.
Qed.

(** C10, amended.  When the request body cannot be read the proxy answers 400
    and the backend is not called.  Otherwise it calls the backend once, with
    the body it read; when that call fails it answers 502.  When the backend
    responds with a status between 200 and 599 other than 204, 205 and 304, a
    status text that is a reason phrase and a body that can be read, the
    proxy returns the backend's status, status text and body text with one
    header, content-type: the backend's when it sent a non-empty one, and
    otherwise the text/plain default of a string body. *)
Theorem assess_proxy_passes_bodied_responses
    (env : option string) (fetch : BackendCall -> option BackendResponse)
    (request : IncomingRequest) :
  (text request = None ->
     POST env fetch request = ([], HttpError 400 "Unable to read request payload."))
  /\ (forall body_,
         text request = Some body_ ->
         exists call,
           fst (POST env fetch request) = [call]
           /\ call = backend_call env request body_
           /\ target call = (resolveBackendBase env ++ "/assess")%string
           /\ method call = "POST"
           /\ call_body call = body_
           /\ (fetch call = None ->
               snd (POST env fetch request)
               = HttpError 502 "Failed to reach backend assessor service.")
           /\ (forall response responseBody,
                  fetch call = Some response ->
                  response_text response = Some responseBody ->
                  (200 <= status response <= 599)%Z ->
                  null_body_status (status response) = false ->
                  is_reason_phrase (statusText response) = true ->
                  exists out,
                    snd (POST env fetch request) = Responded out
                    /\ out_status out = status response
                    /\ out_statusText out = statusText response
                    /\ out_body out = responseBody
                    /\ out_headers out
                       = [("content-type",
                           match response_content_type response with
                           | Some t => if is_empty t then text_content_type else t
                           | None => text_content_type
                           end)])).
Proof.
  split.
  - intros Hbody. unfold POST. now rewrite Hbody.
  - intros body_ Hbody. unfold POST. rewrite Hbody.
    set (call := backend_call env request body_).
    exists call. destruct (fetch call) as [response |] eqn:Hfetch.
    + split.
      { now destruct (response_text response). }
      repeat (split; [reflexivity |]). split; [discriminate |].
      intros response' responseBody [= <-] Htext [Hlow Hhigh] Hnull Hphrase.
      rewrite Htext. cbn [snd]. unfold new_Response.
      rewrite Hnull, Hphrase.
      assert (Hrange : ((200 <=? status response) && (status response <=? 599))%Z = true)
        by (apply andb_true_iff; split; now apply Z.leb_le).
      rewrite Hrange. cbn [negb].
      eexists. split; [reflexivity |]. cbn [out_status out_statusText out_body out_headers].
      repeat (split; [reflexivity |]).
      destruct (response_content_type response) as [t |]; [| reflexivity].
      now destruct (is_empty t).
    + cbn [fst snd]. repeat (split; [reflexivity |]). intros response' ?. discriminate.
Qed.

Lemma assess_proxy_passes_bodied_responses_witness :
  text ProxySamples.incoming = Some "{ url: ... }"
  /\ POST None ProxySamples.answering_backend ProxySamples.incoming
     = ([ {| target := "http://127.0.0.1:8000/assess"; method := "POST";
             call_content_type := "application/json"; call_body := "{ url: ... }" |} ],
        Responded {| out_body := ProxySamples.report_body; out_status := 200;
                     out_statusText := "OK";
                     out_headers := [("content-type", "application/json")] |}).
Proof.
  split; [reflexivity |].
  destruct (assess_proxy_passes_bodied_responses None ProxySamples.answering_backend
              ProxySamples.incoming) as [_ Hcalls].
  destruct (Hcalls "{ url: ... }" eq_refl) as (call & Hfst & Hcall & _ & _ & _ & _ & Hanswer).
  subst call.
  destruct (Hanswer _ ProxySamples.report_body eq_refl eq_refl
              ltac:(cbn; lia) eq_refl eq_refl) as (out & Hout & _).
  reflexivity.
Defined.

End ProxyFacts.

(* ===================================================================== *)
(** * Properties of the overall score *)
(* ===================================================================== *)

Module ScoringFacts.
Import Scoring Samples.
Local Open Scope Q_scope.

Lemma Qsum_bounds (checks : list Q) :
  Forall (fun s => 0 <= s <= 100) checks ->
  0 <= Qsum checks <= 100 * inject_Z (Z.of_nat (length checks)).
Proof.
  induction 1 as [| s rest [Hlo Hhi] _ [IHlo IHhi]].
  - cbn. split; [apply Qle_refl | now compute].
  - cbn [Qsum fold_right length]. fold (Qsum rest).
    rewrite Nat2Z.inj_succ, <- Z.add_1_r, inject_Z_plus.
    split; [| change (inject_Z 1) with 1]; lra.
Qed.

Lemma section_score_bounds (checks : list Q) :
  Forall (fun s => 0 <= s <= 100) checks ->
  0 <= section_score checks <= 100.
Proof.
  intros Hvalid. destruct checks as [| s rest].
  - cbn. split; [apply Qle_refl | now compute].
  - pose proof (Qsum_bounds _ Hvalid) as [Hlo Hhi].
    unfold section_score.
    set (n := inject_Z (Z.of_nat (length (s :: rest)))) in *.
    assert (Hn : 0 < n).
    { unfold n. change 0 with (inject_Z 0). rewrite <- Zlt_Qlt. cbn [length]. lia. }
    split.
    + apply Qle_shift_div_l; [exact Hn |]. lra.
    + apply Qle_shift_div_r; [exact Hn |]. lra.
Qed.

Lemma weights_sum_to_one : Qsum (map snd weights) == 1.
Proof. reflexivity. Qed.

Lemma overall_unfolded (doc : sub_checks) :
  overall doc
  == section_score (doc photos) * (35 # 100)
     + section_score (doc copy) * (35 # 100)
     + section_score (doc amenities_clarity) * (15 # 100)
     + section_score (doc trust_signals) * (15 # 100).
Proof. unfold overall, weights, Qsum. cbn [map fold_right]. ring. Qed.

(** C2. For every valid document the overall score is the sum over the four
    sections of section score times weight, with the weights 0.35, 0.35, 0.15
    and 0.15, which sum to 1, and it lies between 0 and 100. *)
Theorem overall_is_weighted_sum (doc : sub_checks) :
  valid doc ->
  overall doc
  == section_score (doc photos) * (35 # 100)
     + section_score (doc copy) * (35 # 100)
     + section_score (doc amenities_clarity) * (15 # 100)
     + section_score (doc trust_signals) * (15 # 100)
  /\ map snd weights = [35 # 100; 35 # 100; 15 # 100; 15 # 100]
  /\ Qsum (map snd weights) == 1
  /\ 0 <= overall doc <= 100.
Proof.
  intros Hvalid.
  split; [apply overall_unfolded |].
  split; [reflexivity |].
  split; [apply weights_sum_to_one |].
  rewrite overall_unfolded.
  pose proof (section_score_bounds _ (Hvalid photos)).
  pose proof (section_score_bounds _ (Hvalid copy)).
  pose proof (section_score_bounds _ (Hvalid amenities_clarity)).
  pose proof (section_score_bounds _ (Hvalid trust_signals)).
  split; lra.
Qed.

Lemma overall_is_weighted_sum_witness :
  valid ScoringSamples.scored_listing
  /\ 0 <= overall ScoringSamples.scored_listing <= 100.
Proof.
  assert (Hvalid : valid ScoringSamples.scored_listing).
  { intros name. destruct name; cbn;
      repeat (apply List.Forall_cons; [split; unfold Qle; cbn; lia |]);
      apply List.Forall_nil. }
  split; [exact Hvalid |].
  apply (overall_is_weighted_sum ScoringSamples.scored_listing Hvalid).
Defined.

End ScoringFacts.

(* ===================================================================== *)
(** * Properties of checkout reconciliation *)
(* ===================================================================== *)

Module CheckoutFacts.
Import Checkout Samples.

Section Reconciliation.

Variable normalize : string -> string.

(** ** The ledger stays consistent *)

Lemma consistent_empty : consistent empty_ledger.
Proof. intros id. cbn. now rewrite lookup_empty. Qed.

Lemma create_session_consistent (now : Z) (id pending : string) (l : Ledger) :
  consistent l -> consistent (create_session now id pending l).
Proof.
  intros Hl. unfold create_session.
  destruct (sessions l !! id) eqn:Hid; [exact Hl |].
  intros id'. cbn [sessions]. unfold issued_for. cbn [credits].
  destruct (decide (id = id')) as [<- | Hne].
  - rewrite lookup_insert_eq. cbn. specialize (Hl id). rewrite Hid in Hl. now split.
  - rewrite lookup_insert_ne by exact Hne. apply (Hl id').
Qed.

Lemma expire_session_consistent (id : string) (l : Ledger) :
  consistent l -> consistent (expire_session id l).
Proof.
  intros Hl. unfold expire_session.
  destruct (sessions l !! id) as [s |] eqn:Hid; [| exact Hl].
  destruct (is_created (status s)) eqn:Hcreated; [| exact Hl].
  intros id'. cbn [sessions]. unfold issued_for. cbn [credits].
  destruct (decide (id = id')) as [<- | Hne].
  - rewrite lookup_insert_eq. cbn. specialize (Hl id). rewrite Hid in Hl.
    destruct Hl as [Hcount Hmarker]. split; [exact Hcount |].
    rewrite Hmarker. destruct (status s); [reflexivity | discriminate | reflexivity].
  - rewrite lookup_insert_ne by exact Hne. apply (Hl id').
Qed.

Lemma issued_for_issue (now : Z) (id id' : string) (s : CheckoutSession)
    (identity : string) (l : Ledger) :
  issued_for id' (issue_credit now id s identity l)
  = issued_for id' l + (if String.eqb id id' then 1 else 0).
Proof.
  unfold issued_for, issue_credit. cbn [credits].
  rewrite List.filter_app, length_app. f_equal.
  cbn [List.filter].
  match goal with |- context [from_session id' ?c] =>
    change (from_session id' c) with (String.eqb id id')
  end.
  destruct (String.eqb id id'); reflexivity.
Qed.

Lemma issue_credit_consistent (now : Z) (id : string) (s : CheckoutSession)
    (identity : string) (l : Ledger) :
  sessions l !! id = Some s ->
  credit_issued s = false ->
  consistent l -> consistent (issue_credit now id s identity l).
Proof.
  intros Hid Hmarker Hl id'. rewrite issued_for_issue.
  unfold issue_credit at 1. cbn [sessions].
  destruct (decide (id = id')) as [<- | Hne].
  - rewrite lookup_insert_eq, String.eqb_refl. cbn.
    specialize (Hl id). rewrite Hid, Hmarker in Hl. destruct Hl as [Hcount _].
    split; [lia | reflexivity].
  - rewrite lookup_insert_ne by exact Hne.
    assert (Hneq : String.eqb id id' = false) by now apply String.eqb_neq.
    rewrite Hneq, Nat.add_0_r. apply (Hl id').
Qed.

(** The ledger after [confirm]: the one with the credit issued when the
    session is known, unmarked, still [created], and reported completed and
    paid; the ledger as it was in every other case. *)
Lemma confirm_ledger (now : Z) (id : string) (report : option Upstream) (l : Ledger) :
  fst (confirm normalize now id report l) = l
  \/ exists s up,
       sessions l !! id = Some s
       /\ credit_issued s = false
       /\ report = Some up
       /\ fst (confirm normalize now id report l)
          = issue_credit now id s (normalize (payer up)) l.
Proof.
  unfold confirm.
  destruct (sessions l !! id) as [s |] eqn:Hid; [| now left].
  destruct report as [up |]; [| now left].
  destruct (is_completed (upstream_status up) && String.eqb (payment_status up) "paid");
    [| now left].
  destruct (credit_issued s) eqn:Hmarker; [now left |].
  destruct (is_created (status s)); [| now left].
  right. exists s, up. repeat split; first [reflexivity | assumption].
Qed.

Lemma confirm_consistent (now : Z) (id : string) (report : option Upstream) (l : Ledger) :
  consistent l -> consistent (fst (confirm normalize now id report l)).
Proof.
  intros Hl.
  destruct (confirm_ledger now id report l) as [-> | (s & up & Hid & Hmarker & _ & ->)];
    [exact Hl |].
  now apply issue_credit_consistent.
Qed.

Lemma reachable_consistent (l : Ledger) : reachable normalize l -> consistent l.
Proof.
  induction 1 as [| op l _ IH]; [apply consistent_empty |].
  destruct op as [now id pending | id | now id report]; cbn [run].
  - now apply create_session_consistent.
  - now apply expire_session_consistent.
  - now apply confirm_consistent.
Qed.

(** ** Confirming again *)

(** A second confirmation of the same report leaves the ledger as the first
    one left it. *)
Lemma confirm_again (now1 now2 : Z) (id : string) (report : option Upstream) (l : Ledger) :
  fst (confirm normalize now2 id report (fst (confirm normalize now1 id report l)))
  = fst (confirm normalize now1 id report l).
Proof.
  unfold confirm at 2 3.
  destruct (sessions l !! id) as [s |] eqn:Hid;
    [| cbn [fst]; unfold confirm; now rewrite Hid].
  destruct report as [up |]; [| cbn [fst]; unfold confirm; now rewrite Hid].
  destruct (is_completed (upstream_status up) && String.eqb (payment_status up) "paid")
    eqn:Hpaid; [| cbn [fst]; unfold confirm; now rewrite Hid, Hpaid].
  destruct (credit_issued s) eqn:Hmarker;
    [cbn [fst]; unfold confirm; now rewrite Hid, Hpaid, Hmarker |].
  destruct (is_created (status s)) eqn:Hcreated;
    [| cbn [fst]; unfold confirm; now rewrite Hid, Hpaid, Hmarker, Hcreated].
  cbn [fst]. unfold confirm, issue_credit at 1. cbn [sessions].
  rewrite lookup_insert_eq, Hpaid. reflexivity.
Qed.

(** A confirmation that succeeds leaves the session marked, on a report that
    says completed and paid. *)
Lemma confirmed_marks (now : Z) (id : string) (report : option Upstream) (l : Ledger)
    (identity : string) (n : nat) :
  snd (confirm normalize now id report l) = Confirmed identity n ->
  exists s up,
    sessions (fst (confirm normalize now id report l)) !! id = Some s
    /\ credit_issued s = true
    /\ report = Some up
    /\ is_completed (upstream_status up) && String.eqb (payment_status up) "paid" = true.
Proof.
  unfold confirm.
  destruct (sessions l !! id) as [s |] eqn:Hid; [| discriminate].
  destruct report as [up |]; [| discriminate].
  destruct (is_completed (upstream_status up) && String.eqb (payment_status up) "paid")
    eqn:Hpaid; [| discriminate].
  destruct (credit_issued s) eqn:Hmarker.
  - intros _. cbn [fst]. eauto 7.
  - destruct (is_created (status s)); [| discriminate].
    intros _. cbn [fst issue_credit sessions]. rewrite lookup_insert_eq. eauto 7.
Qed.

Lemma marked_confirms (now : Z) (id : string) (up : Upstream) (l : Ledger)
    (s : CheckoutSession) :
  sessions l !! id = Some s ->
  credit_issued s = true ->
  is_completed (upstream_status up) && String.eqb (payment_status up) "paid" = true ->
  confirm normalize now id (Some up) l
  = (l, Confirmed (owner s) (available_credits now (owner s) l)).
Proof. intros Hid Hmarker Hpaid. unfold confirm. now rewrite Hid, Hpaid, Hmarker. Qed.

End Reconciliation.

(** C1. Confirming the same checkout session twice issues exactly one credit.
    In every ledger the backend can reach, processing a confirmation a second
    time leaves the credits as the first confirmation left them; a session has
    never given rise to more than one credit; when the confirmation succeeds,
    it succeeds again and the session has exactly one credit; and every
    completed session has exactly one. *)
Theorem confirming_twice_issues_one_credit
    (normalize : string -> string) (l : Ledger)
    (now1 now2 : Z) (id : string) (report : option Upstream) :
  reachable normalize l ->
  let once := confirm normalize now1 id report l in
  let twice := confirm normalize now2 id report (fst once) in
  credits (fst twice) = credits (fst once)
  /\ issued_for id (fst twice) <= 1
  /\ (forall identity n,
         snd once = Confirmed identity n ->
         issued_for id (fst twice) = 1
         /\ exists identity' n', snd twice = Confirmed identity' n')
  /\ (forall id' s,
         sessions (fst twice) !! id' = Some s ->
         status s = completed ->
         issued_for id' (fst twice) = 1).
Proof.
  intros Hreach once twice.
  assert (Hsame : fst twice = fst once) by apply confirm_again.
  assert (Hconsistent : consistent (fst once)).
  { apply confirm_consistent. now apply (reachable_consistent normalize). }
  rewrite Hsame. split; [reflexivity |]. split; [| split].
  - specialize (Hconsistent id).
    destruct (sessions (fst once) !! id) as [s |]; [| lia].
    destruct Hconsistent as [-> _]. destruct (credit_issued s); lia.
  - intros identity n Hconfirmed.
    destruct (confirmed_marks normalize now1 id report l identity n Hconfirmed)
      as (s & up & Hid & Hmarker & -> & Hpaid).
    fold once in Hid. split.
    + specialize (Hconsistent id). rewrite Hid, Hmarker in Hconsistent.
      now destruct Hconsistent.
    + unfold twice. fold once.
      rewrite (marked_confirms normalize now2 id up (fst once) s Hid Hmarker Hpaid).
      cbn [snd]. eauto.
  - intros id' s Hid Hstatus. specialize (Hconsistent id'). rewrite Hid in Hconsistent.
    destruct Hconsistent as [Hcount Hmarker].
    rewrite Hstatus in Hmarker. cbn in Hmarker. now rewrite Hmarker in Hcount.
Qed.

Lemma confirming_twice_issues_one_credit_witness :
  reachable CheckoutSamples.lowercase_identity CheckoutSamples.pending
  /\ issued_for "cs_1"
       (fst (confirm CheckoutSamples.lowercase_identity 2000 "cs_1"
               CheckoutSamples.paid_report
               (fst (confirm CheckoutSamples.lowercase_identity 1500 "cs_1"
                       CheckoutSamples.paid_report CheckoutSamples.pending))))
     = 1.
Proof.
  assert (Hreach : reachable CheckoutSamples.lowercase_identity CheckoutSamples.pending).
  { unfold CheckoutSamples.pending. apply reachable_run, reachable_empty. }
  split; [exact Hreach |].
  destruct (confirming_twice_issues_one_credit CheckoutSamples.lowercase_identity
              CheckoutSamples.pending 1500 2000 "cs_1" CheckoutSamples.paid_report Hreach)
    as (_ & _ & Hconfirmed & _).
  apply (Hconfirmed "host@example.com" 1). reflexivity.
Defined.

End CheckoutFacts.

(* ===================================================================== *)
(** * More properties of lib/api.ts: the mappers *)
(* ===================================================================== *)

Module MapperFacts.
Import JsString Js Api Shapes.

Lemma nullish_or_default (v d : value) :
  is_nullish d = false -> is_nullish (nullish_or v d) = false.
Proof. intros Hd. unfold nullish_or. destruct (is_nullish v) eqn:Hv; assumption. Qed.

Lemma opt_member_of_nullish (v : value) (k : string) :
  is_nullish v = true -> opt_member v k = VUndefined.
Proof. destruct v; try discriminate; reflexivity. Qed.

Lemma map_fixes_shaped (items : list value) :
  forallb (fun item => negb (is_nullish item)) items = true ->
  map_completion (E := AssessmentError) mapTopFix items = Return (map fix_entry items).
Proof.
  induction items as [| item rest IH]; [reflexivity |].
  cbn [forallb]. intros H. apply andb_true_iff in H. destruct H as [Hitem Hrest].
  cbn [map_completion map]. unfold mapTopFix at 1, reading.
  apply negb_true_iff in Hitem. rewrite Hitem. cbn [bind].
  rewrite (IH Hrest). reflexivity.
Qed.

Lemma map_fixes_unshaped (items : list value) :
  forallb (fun item => negb (is_nullish item)) items = false ->
  map_completion (E := AssessmentError) mapTopFix items = Throw TypeError.
Proof.
  induction items as [| item rest IH]; [discriminate |].
  cbn [forallb map_completion]. unfold mapTopFix at 1, reading.
  destruct (is_nullish item); cbn [negb andb bind]; [reflexivity |].
  intros Hrest. now rewrite (IH Hrest).
Qed.

Lemma mapTopFixes_cases (fixes : value) :
  mapTopFixes fixes
  = if fixes_shaped fixes then Return (VArr (map fix_entry (items_of fixes)))
    else Throw TypeError.
Proof.
  unfold mapTopFixes, nullish_or.
  destruct fixes as [| | b | q | s | items | fields]; cbn; try reflexivity.
  destruct (forallb (fun item => negb (is_nullish item)) items) eqn:Hshape.
  - now rewrite (map_fixes_shaped _ Hshape).
  - now rewrite (map_fixes_unshaped _ Hshape).
Qed.

(** X1. [mapTopFixes] turns a missing or [null] list into the empty array,
    and an array of entries into an array of the same length, entry by entry
    and in order, with [impact] defaulting to ['medium'] (so never [null] or
    [undefined]).  Anything else, a value that is not an array or an array
    with a [null] or [undefined] entry, makes it throw a TypeError. *)
Theorem mapTopFixes_arrays (fixes : value) :
  (fixes_shaped fixes = true ->
     exists mapped,
       mapTopFixes fixes = Return (VArr mapped)
       /\ length mapped = length (items_of fixes)
       /\ (is_nullish fixes = true -> mapped = [])
       /\ (forall i item,
              items_of fixes !! i = Some item ->
              mapped !! i
              = Some (VObj [("impact", nullish_or (opt_member item "impact") (VStr "medium"));
                            ("reason", opt_member item "reason");
                            ("howToFix", opt_member item "how_to_fix")]))
       /\ Forall (fun entry => is_nullish (opt_member entry "impact") = false) mapped)
  /\ (fixes_shaped fixes = false -> mapTopFixes fixes = Throw TypeError).
Proof.
  rewrite mapTopFixes_cases. split; intros Hshape; rewrite Hshape; [| reflexivity].
  exists (map fix_entry (items_of fixes)). split; [reflexivity |].
  split; [apply length_map |]. split; [| split].
  - intros Hnull. destruct fixes; try discriminate; reflexivity.
  - intros i item Hitem. rewrite list_lookup_fmap, Hitem. reflexivity.
  - apply Forall_forall. intros entry Hentry.
    apply list_elem_of_fmap in Hentry. destruct Hentry as (item & -> & _).
    cbn. now apply nullish_or_default.
Qed.

Lemma mapTopFixes_arrays_witness :
  fixes_shaped MoreSamples.two_fixes = true
  /\ exists mapped,
       mapTopFixes MoreSamples.two_fixes = Return (VArr mapped)
       /\ length mapped = 2
       /\ exists entry, mapped !! 1 = Some entry
                         /\ opt_member entry "impact" = VStr "medium".
Proof.
  split; [reflexivity |].
  destruct (mapTopFixes_arrays MoreSamples.two_fixes) as [Hshaped _].
  destruct (Hshaped eq_refl) as (mapped & Hmap & Hlen & _ & Hentry & _).
  exists mapped. split; [exact Hmap |]. split; [exact Hlen |].
  eexists. split; [apply (Hentry 1 _ eq_refl) | reflexivity].
Defined.

(** ** [mapAssessment] *)

Lemma mapAssessment_cases (payload : value) :
  if well_shaped payload
  then exists report, mapAssessment payload = Return report
  else mapAssessment payload = Throw TypeError.
Proof.
  unfold well_shaped, mapAssessment, member.
  destruct (is_nullish payload) eqn:Hpayload; cbn [negb andb bind]; [reflexivity |].
  unfold mapSectionScores, mapPhotoStats, mapCopyStats, mapTrustSignals,
    mapAmenityAudit, reading.
  destruct (is_nullish (opt_member payload "section_scores"));
    cbn [negb andb bind]; [reflexivity |].
  destruct (is_nullish (opt_member payload "photo_stats"));
    cbn [negb andb bind]; [reflexivity |].
  destruct (is_nullish (opt_member payload "copy_stats"));
    cbn [negb andb bind]; [reflexivity |].
  destruct (is_nullish (opt_member payload "trust_signals"));
    cbn [negb andb bind]; [reflexivity |].
  destruct (is_nullish (opt_member payload "amenities"));
    cbn [negb andb bind]; [reflexivity |].
  rewrite mapTopFixes_cases.
  destruct (fixes_shaped (opt_member payload "top_fixes")); cbn [bind]; eauto.
Qed.

(** X2. [mapAssessment] returns a report exactly for a payload that is not
    [null] or [undefined], has its five sections, and has no [top_fixes] or an
    array of entries; for every other payload it throws a TypeError, and it
    throws nothing else. *)
Theorem mapAssessment_accepts_well_shaped (payload : value) :
  (well_shaped payload = true <-> exists report, mapAssessment payload = Return report)
  /\ (well_shaped payload = false <-> mapAssessment payload = Throw TypeError)
  /\ (forall t, mapAssessment payload = Throw t -> t = TypeError).
Proof.
  pose proof (mapAssessment_cases payload) as Hcases.
  destruct (well_shaped payload).
  - destruct Hcases as [report Hreport]. rewrite Hreport.
    split; [| split].
    + split; [eauto | reflexivity].
    + split; discriminate.
    + discriminate.
  - rewrite Hcases. split; [| split].
    + split; [discriminate | intros [report Hreport]; discriminate].
    + split; reflexivity.
    + now intros t [= <-].
Qed.

Lemma mapAssessment_accepts_well_shaped_witness :
  mapAssessment (VObj [("overall", VNum 50)]) = Throw TypeError
  /\ forall t, mapAssessment (VObj [("overall", VNum 50)]) = Throw t -> t = TypeError.
Proof.
  destruct (mapAssessment_accepts_well_shaped (VObj [("overall", VNum 50)]))
    as (_ & [Hrejects _] & Honly).
  split; [now apply Hrejects | exact Honly].
Defined.

(** X3. Whatever the payload leaves out, a mapped assessment is safe to
    render: the lists the template takes the length of are never [null] or
    [undefined], the flags are booleans, [topFixes] is an array, and
    [altTextRatio] is a number or [null]. *)
Theorem mapped_assessment_has_defaults (payload report : value) :
  mapAssessment payload = Return report ->
  Forall (fun '(section, field) =>
            is_nullish (opt_member (opt_member report section) field) = false)
         template_lists
  /\ Forall (fun '(section, field) =>
               is_boolean (opt_member (opt_member report section) field) = true)
            template_flags
  /\ is_array (opt_member report "topFixes") = true
  /\ (is_number (opt_member (opt_member report "photoStats") "altTextRatio") = true
      \/ opt_member (opt_member report "photoStats") "altTextRatio" = VNull).
Proof.
  unfold mapAssessment, member.
  destruct (is_nullish payload); cbn [bind]; [discriminate |].
  unfold mapSectionScores, mapPhotoStats, mapCopyStats, mapTrustSignals,
    mapAmenityAudit, reading.
  destruct (is_nullish (opt_member payload "section_scores")); cbn [bind]; [discriminate |].
  destruct (is_nullish (opt_member payload "photo_stats")); cbn [bind]; [discriminate |].
  destruct (is_nullish (opt_member payload "copy_stats")); cbn [bind]; [discriminate |].
  destruct (is_nullish (opt_member payload "trust_signals")); cbn [bind]; [discriminate |].
  destruct (is_nullish (opt_member payload "amenities")); cbn [bind]; [discriminate |].
  rewrite mapTopFixes_cases.
  destruct (fixes_shaped (opt_member payload "top_fixes")); cbn [bind]; [| discriminate].
  intros [= <-]. split; [| split; [| split]].
  - repeat (apply List.Forall_cons; [cbn; now apply nullish_or_default |]).
    apply List.Forall_nil.
  - repeat (apply List.Forall_cons; [reflexivity |]). apply List.Forall_nil.
  - reflexivity.
  - cbn.
    destruct (is_number (opt_member (opt_member payload "photo_stats") "alt_text_ratio"))
      eqn:Hnumber; [left; exact Hnumber | now right].
Qed.

Lemma mapped_assessment_has_defaults_witness :
  exists report,
    mapAssessment Samples.ApiSamples.sample_report = Return report
    /\ is_nullish (opt_member (opt_member report "photoStats") "missingCoverage") = false.
Proof.
  destruct (mapAssessment Samples.ApiSamples.sample_report) as [report |] eqn:Hmap;
    [| discriminate].
  exists report. split; [reflexivity |].
  destruct (mapped_assessment_has_defaults _ _ Hmap) as [Hlists _].
  apply Forall_cons_iff in Hlists. destruct Hlists as [_ Hlists].
  apply Forall_cons_iff in Hlists. now destruct Hlists as [Hmissing _].
Defined.

(** X4. On an ok response [assessListing] never throws the typed
    [AssessmentError]: a body that is not JSON surfaces as a SyntaxError, a
    body without a well-shaped [report] or without a [meta] as a TypeError,
    and every other body gives a report. *)
Theorem assessListing_ok_response
    (fetch : FetchCall -> option Response) (env : option string)
    (payload : AssessmentPayload) (response : Response) :
  fetch (assess_call env payload) = Some response ->
  ok response = true ->
  (forall e, assessListing fetch env payload <> Throw (Raised e))
  /\ (json response = None -> assessListing fetch env payload = Throw SyntaxError)
  /\ (forall data,
         json response = Some data ->
         if well_shaped (opt_member data "report")
            && negb (is_nullish (opt_member data "meta"))
         then exists envelope, assessListing fetch env payload = Return envelope
         else assessListing fetch env payload = Throw TypeError).
Proof.
  intros Hfetch Hok.
  assert (Hdata : forall data,
             json response = Some data ->
             if well_shaped (opt_member data "report")
                && negb (is_nullish (opt_member data "meta"))
             then exists envelope, assessListing fetch env payload = Return envelope
             else assessListing fetch env payload = Throw TypeError).
  { intros data Hjson.
    unfold assessListing, await_fetch, read_json, member.
    rewrite Hfetch. cbn [bind]. rewrite Hok. cbn [negb]. rewrite Hjson. cbn [bind].
    destruct (is_nullish data) eqn:Hnull; cbn [bind].
    - rewrite (opt_member_of_nullish data "report" Hnull). reflexivity.
    - pose proof (mapAssessment_cases (opt_member data "report")) as Hreport.
      destruct (well_shaped (opt_member data "report")); cbn [andb].
      + destruct Hreport as [report ->]. cbn [bind].
        unfold mapReportMeta, reading.
        destruct (is_nullish (opt_member data "meta")); cbn [negb bind]; eauto.
      + rewrite Hreport. reflexivity. }
  split; [| split; [| exact Hdata]].
  - intros e. destruct (json response) as [data |] eqn:Hjson.
    + specialize (Hdata data eq_refl).
      destruct (well_shaped (opt_member data "report")
                && negb (is_nullish (opt_member data "meta"))).
      * destruct Hdata as [envelope ->]. discriminate.
      * rewrite Hdata. discriminate.
    + unfold assessListing, await_fetch, read_json.
      rewrite Hfetch. cbn [bind]. rewrite Hok. cbn [negb]. rewrite Hjson. discriminate.
  - intros Hjson. unfold assessListing, await_fetch, read_json.
    rewrite Hfetch. cbn [bind]. rewrite Hok. cbn [negb]. now rewrite Hjson.
Qed.

Lemma assessListing_ok_response_witness :
  exists response,
    Samples.ApiSamples.paid_backend (assess_call None Samples.ApiSamples.sample_payload)
    = Some response
    /\ ok response = true
    /\ forall e,
         assessListing Samples.ApiSamples.paid_backend None
           Samples.ApiSamples.sample_payload
         <> Throw (Raised e).
Proof.
  eexists. split; [reflexivity |]. split; [reflexivity |].
  apply (assessListing_ok_response Samples.ApiSamples.paid_backend None
           Samples.ApiSamples.sample_payload _ eq_refl eq_refl).
Defined.

End MapperFacts.

(* ===================================================================== *)
(** * More properties of lib/api.ts: magic link, checkout, confirmation *)
(* ===================================================================== *)

Module ApiMoreFacts.
Import JsString Js Api ApiMore Shapes.

Lemma thrown_detail (response : Response) (fallback : string) :
  nullish_or (opt_member (json_or_null response) "detail") (VStr fallback)
  = match detail_of response with
    | Some detail => detail
    | None => VStr fallback
    end.
Proof.
  unfold json_or_null, detail_of.
  destruct (json response) as [[| | | | | | fields] |]; try reflexivity.
  cbn [opt_member]. destruct (assoc "detail" fields) as [[] |]; reflexivity.
Qed.

(** X5. [confirmCheckout] builds its session from an ok response exactly as
    [fetchSession] does from the same response, and rejects on a body that is
    not JSON.  On a response that is not ok it returns no session: it throws
    an [Error] made from the body's [detail] when the body is JSON and has
    one, and from ['Unable to finalize checkout.'] otherwise. *)
Theorem confirmCheckout_session
    (fetch fetch' : FetchCall -> option Response) (env : option string)
    (checkoutId_ : string) (environment_ : option string) (response : Response) :
  fetch (confirm_call env checkoutId_ environment_) = Some response ->
  fetch' (session_call env) = Some response ->
  (ok response = true ->
     (forall info,
         confirmCheckout fetch env checkoutId_ environment_ = Return info
         <-> fetchSession fetch' env = Return info)
     /\ (json response = None ->
         confirmCheckout fetch env checkoutId_ environment_ = Throw SyntaxError))
  /\ (ok response = false ->
      confirmCheckout fetch env checkoutId_ environment_
      = Throw (Raised {| error_argument :=
                           match detail_of response with
                           | Some detail => detail
                           | None => VStr "Unable to finalize checkout."
                           end |})).
Proof.
  intros Hconfirm Hsession.
  unfold confirmCheckout, send, fetchSession, await_fetch, parse_json, read_json.
  rewrite Hconfirm, Hsession. cbn [bind].
  split; intros Hok; rewrite Hok; cbn [negb].
  - destruct (json response) as [data |]; cbn [bind].
    + split; [| discriminate]. intros info. split; intros [= <-]; reflexivity.
    + split; [| reflexivity]. intros info. split; discriminate.
  - unfold throw_detail. now rewrite thrown_detail.
Qed.

Lemma confirmCheckout_session_witness :
  exists response,
    MoreSamples.refusing_backend (confirm_call None "cs_1" None) = Some response
    /\ MoreSamples.refusing_backend (session_call None) = Some response
    /\ ok response = false
    /\ confirmCheckout MoreSamples.refusing_backend None "cs_1" None
       = Throw (Raised {| error_argument := VStr "Payment not completed." |}).
Proof.
  eexists. split; [reflexivity |]. split; [reflexivity |]. split; [reflexivity |].
  destruct (confirmCheckout_session MoreSamples.refusing_backend
              MoreSamples.refusing_backend None "cs_1" None _ eq_refl eq_refl)
    as [_ Hrefused].
  rewrite (Hrefused eq_refl). reflexivity.
Defined.

(** X6. [requestMagicLink] posts an object whose only field is [email], with
    the address it was given and without credentials.  It resolves exactly
    when the response is ok; otherwise it throws an [Error] made from the
    body's [detail], or from ['Unable to send magic link.'] when the body is
    not JSON or has none. *)
Theorem requestMagicLink_outcome
    (fetch : FetchCall -> option Response) (env : option string)
    (email_ : string) (response : Response) :
  fetch (magic_link_call env email_) = Some response ->
  body (init (magic_link_call env email_)) = Some (VObj [("email", VStr email_)])
  /\ credentials (init (magic_link_call env email_)) = None
  /\ (requestMagicLink fetch env email_ = Return tt <-> ok response = true)
  /\ (ok response = false ->
      requestMagicLink fetch env email_
      = Throw (Raised {| error_argument :=
                           match detail_of response with
                           | Some detail => detail
                           | None => VStr "Unable to send magic link."
                           end |})).
Proof.
  intros Hfetch. split; [reflexivity |]. split; [reflexivity |].
  unfold requestMagicLink, send. rewrite Hfetch. cbn [bind].
  destruct (ok response); cbn [negb].
  - split; [split; reflexivity | discriminate].
  - split; [split; discriminate |]. intros _. unfold throw_detail.
    now rewrite thrown_detail.
Qed.

Lemma requestMagicLink_outcome_witness :
  exists response,
    MoreSamples.signed_out_backend (magic_link_call None "host@example.com") = Some response
    /\ ok response = false
    /\ requestMagicLink MoreSamples.signed_out_backend None "host@example.com"
       = Throw (Raised {| error_argument := VStr "Unable to send magic link." |}).
Proof.
  eexists. split; [reflexivity |]. split; [reflexivity |].
  destruct (requestMagicLink_outcome MoreSamples.signed_out_backend None
              "host@example.com" _ eq_refl) as (_ & _ & _ & Hrefused).
  rewrite (Hrefused eq_refl). reflexivity.
Defined.

Lemma written_checkout_fields (dev : bool) (successUrl cancelUrl : option string) :
  written_fields (checkout_body dev successUrl cancelUrl)
  = (match successUrl with Some _ => ["success_url"] | None => [] end)
    ++ (match cancelUrl with Some _ => ["cancel_url"] | None => [] end)
    ++ (if dev then ["environment"] else []).
Proof. destruct dev, successUrl, cancelUrl; reflexivity. Qed.

(** X7. [createCheckoutSession] writes [success_url] and [cancel_url] into
    its request only when they are given, and [environment] only in a
    development build.  An ok response whose body is an object gives a result
    whose [environment] is never [null] or [undefined] (['live'] by default);
    a [null] body throws a TypeError and a body that is not JSON a
    SyntaxError; a response that is not ok throws an [Error] made from the
    body's [detail] or from ['Unable to start checkout.']. *)
Theorem createCheckoutSession_outcome
    (fetch : FetchCall -> option Response) (env : option string) (dev : bool)
    (successUrl cancelUrl : option string) (response : Response) :
  fetch (checkout_session_call env dev successUrl cancelUrl) = Some response ->
  written_fields (checkout_body dev successUrl cancelUrl)
  = (match successUrl with Some _ => ["success_url"] | None => [] end)
    ++ (match cancelUrl with Some _ => ["cancel_url"] | None => [] end)
    ++ (if dev then ["environment"] else [])
  /\ (ok response = true ->
      match json response with
      | None =>
          createCheckoutSession fetch env dev successUrl cancelUrl = Throw SyntaxError
      | Some data =>
          if is_nullish data
          then createCheckoutSession fetch env dev successUrl cancelUrl = Throw TypeError
          else exists result,
                 createCheckoutSession fetch env dev successUrl cancelUrl = Return result
                 /\ checkoutId result = opt_member data "checkout_id"
                 /\ checkoutUrl result = opt_member data "checkout_url"
                 /\ is_nullish (environment result) = false
                 /\ (is_nullish (opt_member data "environment") = true ->
                     environment result = VStr "live")
      end)
  /\ (ok response = false ->
      createCheckoutSession fetch env dev successUrl cancelUrl
      = Throw (Raised {| error_argument :=
                           match detail_of response with
                           | Some detail => detail
                           | None => VStr "Unable to start checkout."
                           end |})).
Proof.
  intros Hfetch. split; [apply written_checkout_fields |].
  unfold createCheckoutSession, send, parse_json, member. rewrite Hfetch. cbn [bind].
  split; intros Hok; rewrite Hok; cbn [negb].
  - destruct (json response) as [data |]; cbn [bind]; [| reflexivity].
    destruct (is_nullish data); cbn [bind]; [reflexivity |].
    eexists. split; [reflexivity |]. cbn. repeat split.
    + unfold nullish_or.
      destruct (is_nullish (opt_member data "environment")) eqn:Hnull;
        [reflexivity | exact Hnull].
    + intros Hnull. unfold nullish_or. now rewrite Hnull.
  - unfold throw_detail. now rewrite thrown_detail.
Qed.

Lemma createCheckoutSession_outcome_witness :
  exists response,
    MoreSamples.checkout_backend (checkout_session_call None false None None) = Some response
    /\ ok response = true
    /\ exists result,
         createCheckoutSession MoreSamples.checkout_backend None false None None
         = Return result
         /\ environment result = VStr "live".
Proof.
  eexists. split; [reflexivity |]. split; [reflexivity |].
  destruct (createCheckoutSession_outcome MoreSamples.checkout_backend None false None None
              _ eq_refl) as (_ & Hok & _).
  specialize (Hok eq_refl). cbn in Hok.
  destruct Hok as (result & Hresult & _ & _ & _ & Hlive).
  exists result. split; [exact Hresult | now apply Hlive].
Defined.

End ApiMoreFacts.

(* ===================================================================== *)
(** * More properties of the fix slots *)
(* ===================================================================== *)

Module SlotFacts.
Import Results ResultsFacts Shapes.

Lemma loop_body_pushes (props : Props) (i : Z) :
  (0 <= i < totalSlots props)%Z ->
  exists slot, loop_body props i [] = [slot] /\ number_of slot = (i + 1)%Z.
Proof.
  intros Hi. unfold loop_body.
  destruct (Z.ltb_spec i (hiddenFixCount props)) as [Hlt | Hge]; [eauto |].
  assert (Hin : Z.to_nat (i - hiddenFixCount props) < length (topFixesLimited props)).
  { unfold totalSlots in Hi. lia. }
  apply lookup_lt_is_Some_2 in Hin. destruct Hin as [fix_ Hfix].
  rewrite Hfix. eauto.
Qed.

Lemma for_loop_numbers (props : Props) (turns : nat) (i : Z) :
  (0 <= i)%Z ->
  (forall k, k < turns -> (i + Z.of_nat k < totalSlots props)%Z) ->
  map number_of (for_loop props turns i [])
  = map (fun k => (i + Z.of_nat k + 1)%Z) (seq 0 turns).
Proof.
  revert i. induction turns as [| turns IH]; intros i Hi Hbelow; [reflexivity |].
  rewrite for_loop_step, map_app. cbn [seq map]. rewrite <- seq_shift, map_map.
  destruct (loop_body_pushes props i) as (slot & -> & Hnumber).
  { specialize (Hbelow 0 ltac:(lia)). lia. }
  cbn [map app]. rewrite Hnumber, Z.add_0_r. f_equal.
  rewrite IH.
  - apply map_ext. intros k. lia.
  - lia.
  - intros k Hk. specialize (Hbelow (S k) ltac:(lia)). lia.
Qed.

Lemma imap_numbers (fixes : list TopFix) (f : nat -> Z) :
  map number_of (imap (fun i fix_ => Unlocked (f i) fix_) fixes)
  = map f (seq 0 (length fixes)).
Proof.
  revert f. induction fixes as [| fix_ rest IH]; intros f; [reflexivity |].
  cbn [imap map length seq]. f_equal.
  rewrite <- seq_shift, map_map. apply (IH (f ∘ S)).
Qed.

Lemma slot_numbers (props : Props) :
  exists n,
    map number_of (fixSlots props) = map (fun k => (Z.of_nat k + 1)%Z) (seq 0 n)
    /\ n = if isPaid props then length (topFixesLimited props)
           else Z.to_nat (totalSlots props).
Proof.
  unfold fixSlots. destruct (isPaid props).
  - eexists. split; [| reflexivity].
    rewrite push_each_numbered. cbn [app]. rewrite imap_numbers.
    apply map_ext. intros k. lia.
  - eexists. split; [| reflexivity].
    rewrite for_loop_numbers; [| lia | lia].
    apply map_ext. intros k. lia.
Qed.

(** X8. The slots are numbered 1, 2, 3, ... without a gap, so no two slots
    share the number the list is keyed by, and the [continue] of the loop is
    never taken: a paid report has one slot per truncated fix and a free
    preview has [totalSlots] slots (none when that is negative). *)
Theorem slots_numbered_consecutively (props : Props) :
  map number_of (fixSlots props)
  = map (fun k => (Z.of_nat k + 1)%Z) (seq 0 (length (fixSlots props)))
  /\ NoDup (map number_of (fixSlots props))
  /\ length (fixSlots props)
     = (if isPaid props then length (topFixesLimited props)
        else Z.to_nat (totalSlots props)).
Proof.
  destruct (slot_numbers props) as (n & Hnumbers & Hn).
  assert (Hlen : length (fixSlots props) = n).
  { rewrite <- (length_map number_of), Hnumbers, length_map. apply length_seq. }
  rewrite Hlen. split; [exact Hnumbers |]. split; [| exact Hn].
  rewrite Hnumbers. apply NoDup_fmap_2; [| apply NoDup_seq].
  intros a b Hab. lia.
Qed.

(** ** The fixes a preview shows *)

Lemma visible_fixes_app (l1 l2 : list FixSlot) :
  visible_fixes (l1 ++ l2) = visible_fixes l1 ++ visible_fixes l2.
Proof. apply omap_app. Qed.

Lemma visible_fixes_locked (n : nat) : visible_fixes (locked_prefix n) = [].
Proof.
  unfold locked_prefix. generalize (seq 0 n). intros l.
  induction l as [| k l IH]; [reflexivity | exact IH].
Qed.

Lemma visible_fixes_unlocked (g : nat -> TopFix -> FixSlot) (fixes : list TopFix) :
  (forall i fix_, exists n, g i fix_ = Unlocked n fix_) ->
  visible_fixes (imap g fixes) = fixes.
Proof.
  revert g. induction fixes as [| fix_ rest IH]; intros g Hg; [reflexivity |].
  cbn [imap]. destruct (Hg 0 fix_) as [n ->].
  change (visible_fixes (Unlocked n fix_ :: imap (g ∘ S) rest))
    with (fix_ :: visible_fixes (imap (g ∘ S) rest)).
  f_equal. apply IH. intros i x. apply (Hg (S i) x).
Qed.

Lemma visible_fixes_imap (fixes : list TopFix) (f : nat -> Z) :
  visible_fixes (imap (fun i fix_ => Unlocked (f i) fix_) fixes) = fixes.
Proof. apply visible_fixes_unlocked. eauto. Qed.

Lemma visible_run (props : Props) (b k0 : nat) :
  (0 <= hiddenFixCount props)%Z ->
  k0 + b <= length (topFixesLimited props) ->
  visible_fixes (for_loop props b (hiddenFixCount props + Z.of_nat k0) [])
  = take b (drop k0 (topFixesLimited props)).
Proof.
  intros Hh. revert k0. induction b as [| b IH]; intros k0 Hlen; [reflexivity |].
  rewrite for_loop_step, visible_fixes_app.
  assert (Hk : k0 < length (topFixesLimited props)) by lia.
  apply lookup_lt_is_Some_2 in Hk. destruct Hk as [fix_ Hfix].
  unfold loop_body at 1.
  assert (Hge : (hiddenFixCount props + Z.of_nat k0 <? hiddenFixCount props)%Z = false)
    by (apply Z.ltb_ge; lia).
  rewrite Hge.
  replace (Z.to_nat (hiddenFixCount props + Z.of_nat k0 - hiddenFixCount props))
    with k0 by lia.
  rewrite Hfix. cbn [app].
  replace (hiddenFixCount props + Z.of_nat k0 + 1)%Z
    with (hiddenFixCount props + Z.of_nat (S k0))%Z by lia.
  rewrite (IH (S k0)) by lia.
  rewrite (drop_S _ _ _ Hfix). reflexivity.
Qed.

(** X9. A paid report shows the first five top fixes.  A free preview whose
    hidden count is not negative shows the first [5 - n] of them, in order,
    [n = min(hiddenFixCount ?? 0, 3)] being the number of locked
    placeholders. *)
Theorem preview_shows_leading_fixes (props : Props) :
  (0 <= hidden_or_zero props)%Z ->
  visible_fixes (fixSlots props)
  = if isPaid props then take 5 (topFixes props)
    else take (5 - Z.to_nat (Z.min (hidden_or_zero props) 3)) (topFixes props).
Proof.
  intros Hhidden. unfold fixSlots.
  destruct (isPaid props) eqn:Hpaid.
  - rewrite push_each_numbered. cbn [app]. apply visible_fixes_imap.
  - assert (Hh : hiddenFixCount props = Z.min (hidden_or_zero props) 3).
    { unfold hiddenFixCount, hidden_or_zero. now rewrite Hpaid. }
    set (a := Z.to_nat (Z.min (hidden_or_zero props) 3)).
    pose proof (limited_length props) as Hlen.
    set (b := Nat.min (5 - a) (length (topFixesLimited props))).
    assert (Hturns : Z.to_nat (totalSlots props) = a + b).
    { unfold totalSlots, a, b. rewrite Hh. lia. }
    rewrite Hturns, for_loop_split, visible_fixes_app.
    rewrite locked_run by (intros k Hk; rewrite Hh; unfold a in Hk; lia).
    replace (map (fun k => Locked (0 + Z.of_nat k + 1)) (seq 0 a)) with (locked_prefix a)
      by (unfold locked_prefix; apply map_ext; intros k; f_equal).
    rewrite visible_fixes_locked. cbn [app].
    replace (0 + Z.of_nat a)%Z with (hiddenFixCount props + Z.of_nat 0)%Z
      by (rewrite Hh; unfold a; lia).
    rewrite visible_run; [| rewrite Hh; lia | unfold b; lia].
    rewrite drop_0. unfold b, topFixesLimited.
    rewrite length_take, take_take.
    destruct (Nat.le_gt_cases (length (topFixes props)) (5 - a)) as [Hshort | Hlong].
    + rewrite !take_ge by lia. reflexivity.
    + f_equal. lia.
Qed.

Lemma preview_shows_leading_fixes_witness :
  (0 <= hidden_or_zero MoreSamples.six_fix_preview)%Z
  /\ visible_fixes (fixSlots MoreSamples.six_fix_preview)
     = [MoreSamples.fix_named "A"; MoreSamples.fix_named "B"; MoreSamples.fix_named "C"].
Proof.
  split; [cbn; lia |].
  rewrite (preview_shows_leading_fixes MoreSamples.six_fix_preview); [reflexivity |].
  cbn; lia.
Defined.

(** ** Locked placeholders and the upgrade drawer *)

Lemma existsb_locked_prefix (n : nat) :
  existsb locked (locked_prefix n) = negb (Nat.eqb n 0).
Proof. destruct n as [| n]; reflexivity. Qed.

Lemma existsb_locked_visible (slots : list FixSlot) :
  Forall (fun slot => locked slot = false) slots -> existsb locked slots = false.
Proof.
  induction 1 as [| slot rest Hslot _ IH]; [reflexivity |].
  cbn [existsb]. now rewrite Hslot, IH.
Qed.

Lemma hasLockedFixes_spec (props : Props) :
  hasLockedFixes props = negb (isPaid props) && (1 <=? hidden_or_zero props)%Z.
Proof.
  unfold hasLockedFixes. destruct (isPaid props) eqn:Hpaid; cbn [negb andb].
  - rewrite (paid_slots props Hpaid). apply existsb_locked_visible, imap_unlocked.
  - destruct (free_slots props Hpaid) as (visible & -> & Hvisible).
    rewrite existsb_app, existsb_locked_prefix, (existsb_locked_visible _ Hvisible).
    rewrite orb_false_r.
    destruct (Z.leb_spec 1 (hidden_or_zero props)) as [Hone | Hnone].
    + apply negb_true_iff, Nat.eqb_neq. lia.
    + apply negb_false_iff, Nat.eqb_eq. lia.
Qed.

(** X10. The results view shows locked placeholders (and its "Unlock all
    fixes" button) exactly for a free report that hides at least one fix,
    which is exactly when the page is ready to show the upgrade drawer for the
    same envelope. *)
Theorem locked_fixes_match_upgrade_prompt
    (envelope : PageFlow.ReportEnvelope) (fixes : list TopFix) :
  hasLockedFixes (results_props envelope fixes)
  = PageFlow.shouldShowUpgrade (Some envelope)
  /\ (hasLockedFixes (results_props envelope fixes) = true
      <-> PageFlow.isPaid (PageFlow.meta envelope) = false
          /\ exists n, PageFlow.hiddenFixCount (PageFlow.meta envelope) = Some n
                       /\ (1 <= n)%Z).
Proof.
  rewrite hasLockedFixes_spec. unfold PageFlow.shouldShowUpgrade, results_props, hidden_or_zero.
  cbn [isPaid meta_hiddenFixCount].
  destruct (PageFlow.isPaid (PageFlow.meta envelope)); cbn [negb andb].
  - split; [reflexivity |]. split; [discriminate | intros [Hfree _]; discriminate].
  - destruct (PageFlow.hiddenFixCount (PageFlow.meta envelope)) as [n |].
    + split.
      * destruct (Z.leb_spec 1 n), (Z.ltb_spec 0 n); try reflexivity; lia.
      * split.
        -- intros Hn. apply Z.leb_le in Hn. split; [reflexivity | eauto].
        -- intros (_ & m & [= <-] & Hm). now apply Z.leb_le.
    + split; [reflexivity |]. split; [discriminate |].
      intros (_ & m & Hm & _). discriminate.
Qed.

End SlotFacts.

(* ===================================================================== *)
(** * Properties of the page: requests in flight and the loading overlay *)
(* ===================================================================== *)

Module PageFlowFacts.
Import JsString PageFlow.

(** ** What [Page.startAssessment] does to [loading] *)

Lemma ensurePaidReady_loading (st : Page.State) :
  Page.loading (fst (Page.ensurePaidReady st)) = Page.loading st.
Proof.
  unfold Page.ensurePaidReady.
  destruct (negb (Page.authenticated (Page.session st))); [reflexivity |].
  destruct (Page.credits_available (Page.session st) <=? 0)%Z; reflexivity.
Qed.

Lemma startAssessment_sent (sub : Page.Submission) (st : Page.State) :
  (snd (Page.startAssessment sub st) = []
   /\ Page.loading (fst (Page.startAssessment sub st)) = Page.loading st)
  \/ (exists payload,
        snd (Page.startAssessment sub st) = [payload]
        /\ Page.loading (fst (Page.startAssessment sub st)) = true).
Proof.
  unfold Page.startAssessment.
  destruct (is_empty (trim (Page.sub_url sub))); [now left |].
  cbn [Page.activeReportType Page.with_lastSubmission].
  destruct (Page.activeReportType st).
  - right. eexists. split; reflexivity.
  - match goal with
    | |- context [Page.ensurePaidReady ?x] =>
        pose proof (ensurePaidReady_loading x) as Hkeep;
        destruct (Page.ensurePaidReady x) as [st' ready]
    end.
    cbn [fst] in Hkeep. destruct ready; cbn [negb fst snd].
    + right. eexists. split; reflexivity.
    + left. split; [reflexivity | exact Hkeep].
Qed.

Lemma setReportType_loading (mode : Api.ReportType) (st : Page.State) :
  Page.loading (Page.setReportType mode st) = Page.loading st.
Proof. destruct mode; reflexivity. Qed.

(** ** Intervals *)

Lemma clearInterval_only (t : nat) : clearInterval t [t] = [].
Proof. unfold clearInterval. cbn. now rewrite Nat.eqb_refl. Qed.

Lemma started_intervals (t : Timers) :
  intervals t = match loadingTimer t with Some x => [x] | None => [] end ->
  intervals (startLoadingMessages t) = [started t].
Proof.
  unfold startLoadingMessages. intros Hrunning. cbn [intervals].
  destruct (loadingTimer t) as [old |]; rewrite Hrunning; [| reflexivity].
  now rewrite clearInterval_only.
Qed.

Lemma stopped_intervals (t : Timers) :
  intervals t = match loadingTimer t with Some x => [x] | None => [] end ->
  intervals (stopLoadingMessages t) = [] /\ loadingTimer (stopLoadingMessages t) = None.
Proof.
  unfold stopLoadingMessages. intros Hrunning.
  destruct (loadingTimer t) as [old |] eqn:Htimer; cbn [intervals loadingTimer].
  - rewrite Hrunning. now rewrite clearInterval_only.
  - now rewrite Htimer.
Qed.

Lemma stop_twice (t : Timers) :
  stopLoadingMessages (stopLoadingMessages t) = stopLoadingMessages t.
Proof.
  unfold stopLoadingMessages at 2 3.
  destruct (loadingTimer t) eqn:Htimer; [reflexivity |].
  unfold stopLoadingMessages. now rewrite Htimer.
Qed.

Lemma stopped_index (t : Timers) :
  loadingMessageIndex (stopLoadingMessages t) = loadingMessageIndex t.
Proof. unfold stopLoadingMessages. destruct (loadingTimer t); reflexivity. Qed.

(** ** The continuations *)

Lemma catch_requests (err : caught) (fl : Flow) : requests (catch_ err fl) = requests fl.
Proof. destruct err as [status message |]; cbn; [destruct (is_redirect status) |]; reflexivity. Qed.

Lemma catch_timers (err : caught) (fl : Flow) :
  stopLoadingMessages (timers (catch_ err fl)) = stopLoadingMessages (timers fl).
Proof.
  destruct err as [status message |]; cbn; [destruct (is_redirect status) |];
    cbn; try reflexivity. apply stop_twice.
Qed.

Lemma catch_view (err : caught) (fl : Flow) : view (catch_ err fl) = view fl.
Proof. destruct err as [status message |]; cbn; [destruct (is_redirect status) |]; reflexivity. Qed.

Lemma not_aborted (id : nat) (l : list nat) :
  ~ In id l -> existsb (Nat.eqb id) l = false.
Proof.
  intros Hout. destruct (existsb (Nat.eqb id) l) eqn:Hex; [| reflexivity].
  apply existsb_exists in Hex. destruct Hex as (x & Hx & Heq).
  apply Nat.eqb_eq in Heq. now subst x.
Qed.

Lemma is_aborted (id : nat) (l : list nat) :
  In id l -> existsb (Nat.eqb id) l = true.
Proof.
  intros Hin. apply existsb_exists. exists id. split; [exact Hin | apply Nat.eqb_refl].
Qed.

(** A continuation that is not aborted either ends the run, which stops the
    loading messages and clears [loading], or, after a paid report, leaves
    the run waiting for the session with both as they were. *)
Lemma continue_live (id : nat) (url : string) (s : settlement) (fl : Flow) :
  existsb (Nat.eqb id) (aborted (requests fl)) = false ->
  ((forall result, s = Resolved result -> isPaid (meta result) = false)
   /\ requests (continue_ id url s fl) = requests fl
   /\ timers (continue_ id url s fl) = stopLoadingMessages (timers fl)
   /\ Page.loading (page (continue_ id url s fl)) = false)
  \/ (exists result,
        s = Resolved result
        /\ isPaid (meta result) = true
        /\ requests (continue_ id url s fl) = await_refresh id (requests fl)
        /\ timers (continue_ id url s fl) = timers fl
        /\ Page.loading (page (continue_ id url s fl)) = Page.loading (page fl)).
Proof.
  intros Hlive. unfold continue_. rewrite Hlive.
  destruct s as [result | err].
  - destruct (isPaid (meta result)) eqn:Hpaid.
    + right. exists result. now repeat split.
    + left. split; [intros r [= <-]; exact Hpaid |]. now repeat split.
  - left. split; [discriminate |].
    unfold finally_. cbn [requests timers page set_page set_timers].
    rewrite catch_requests, catch_timers. now repeat split.
Qed.

Lemma continue_aborted (id : nat) (url : string) (s : settlement) (fl : Flow) :
  In id (aborted (requests fl)) -> continue_ id url s fl = fl.
Proof.
  intros Hin. unfold continue_. now rewrite (is_aborted id _ Hin).
Qed.

(** The session fetched for a run that is not aborted ends the run. *)
Lemma continue_refresh_live (id : nat) (refresh : Page.SessionInfo + caught) (fl : Flow) :
  existsb (Nat.eqb id) (aborted (requests fl)) = false ->
  requests (continue_refresh id refresh fl) = requests fl
  /\ timers (continue_refresh id refresh fl) = stopLoadingMessages (timers fl)
  /\ Page.loading (page (continue_refresh id refresh fl)) = false.
Proof.
  intros Hlive. unfold continue_refresh.
  destruct refresh as [refreshed | err]; cbn [set_page requests]; rewrite Hlive.
  - now repeat split.
  - unfold finally_. cbn [requests timers page set_page set_timers].
    rewrite catch_requests, catch_timers. now repeat split.
Qed.

(** The session fetched for an aborted run is still written; nothing else is. *)
Lemma continue_refresh_aborted (id : nat) (refresh : Page.SessionInfo + caught) (fl : Flow) :
  In id (aborted (requests fl)) ->
  continue_refresh id refresh fl
  = match refresh with
    | inl refreshed => set_page (Page.with_session refreshed (page fl)) fl
    | inr _ => fl
    end.
Proof.
  intros Hin. unfold continue_refresh.
  destruct refresh as [refreshed | err]; cbn [set_page requests];
    now rewrite (is_aborted id _ Hin).
Qed.

Lemma lookup_awaiting_in (id : nat) (r : Requests) (url : string) :
  lookup_awaiting id r = Some url -> In (id, url) (awaiting r).
Proof.
  unfold lookup_awaiting.
  destruct (List.find _ (awaiting r)) as [[id' url'] |] eqn:Hfind; [| discriminate].
  cbn. intros [= <-]. apply List.find_some in Hfind. destruct Hfind as [Hin Heq].
  cbn in Heq. apply Nat.eqb_eq in Heq. now subst id'.
Qed.

Lemma in_awaiting_lookup (id : nat) (r : Requests) (url : string) :
  In (id, url) (awaiting r) -> exists url', lookup_awaiting id r = Some url'.
Proof.
  intros Hin. unfold lookup_awaiting.
  destruct (List.find (fun entry => Nat.eqb (fst entry) id) (awaiting r))
    as [entry |] eqn:Hfind; [cbn; eauto |].
  exfalso. apply (List.find_none _ _ Hfind) in Hin. cbn in Hin.
  now rewrite Nat.eqb_refl in Hin.
Qed.

Lemma in_settle_awaiting (id id' : nat) (url : string) (r : Requests) :
  In (id', url) (awaiting (settle_awaiting id r))
  <-> In (id', url) (awaiting r) /\ id' <> id.
Proof.
  unfold settle_awaiting. cbn [awaiting]. rewrite List.filter_In. cbn [fst].
  rewrite negb_true_iff, Nat.eqb_neq. reflexivity.
Qed.

Lemma in_settle_refreshing (id id' : nat) (r : Requests) :
  In id' (refreshing (settle_refreshing id r))
  <-> In id' (refreshing r) /\ id' <> id.
Proof.
  unfold settle_refreshing. cbn [refreshing]. rewrite List.filter_In.
  rewrite negb_true_iff, Nat.eqb_neq. reflexivity.
Qed.

Lemma is_refreshing (id : nat) (r : Requests) :
  existsb (Nat.eqb id) (refreshing r) = true <-> In id (refreshing r).
Proof.
  split.
  - intros Hex. apply existsb_exists in Hex. destruct Hex as (x & Hx & Heq).
    apply Nat.eqb_eq in Heq. now subst x.
  - apply is_aborted.
Qed.

(** ** The page stays well formed *)

Ltac split_well_formed :=
  split; [| split; [| split; [| split; [| split; [| split; [| split;
    [| split; [| split]]]]]]]].

Lemma well_formed_fresh (s : Page.SessionInfo) : well_formed (fresh s).
Proof.
  unfold well_formed, fresh, latest_pending. cbn.
  split_well_formed; try (intros; contradiction); try discriminate; try reflexivity;
    try lia.
  split; [discriminate |]. intros (id & Hc & _). discriminate.
Qed.

(** Only the page's variables change, and [loading] is not among those that do. *)
Lemma well_formed_page (p : Page.State) (fl : Flow) :
  Page.loading p = Page.loading (page fl) ->
  well_formed fl -> well_formed (set_page p fl).
Proof.
  intros Hloading (H1 & H2 & H3 & H4 & H5 & H6 & H7 & H8 & H9 & H10).
  unfold well_formed, latest_pending in *. cbn [set_page page requests timers].
  rewrite Hloading. split_well_formed; assumption.
Qed.

Lemma well_formed_view (v : View) (fl : Flow) :
  well_formed fl -> well_formed (set_view v fl).
Proof. intros H. exact H. Qed.

Lemma startAssessment_well_formed (sub : Page.Submission) (fl : Flow) :
  well_formed fl -> well_formed (fst (startAssessment sub fl)).
Proof.
  intros Hfl. unfold startAssessment.
  pose proof (startAssessment_sent sub (page fl)) as Hsent.
  destruct (Page.startAssessment sub (page fl)) as [p sent]. cbn [fst snd] in Hsent.
  destruct Hsent as [[-> Hloading] | (payload & -> & Hloading)]; cbn [fst].
  - now apply well_formed_page.
  - destruct Hfl as (H1 & H2 & H3 & H4 & H5 & H6 & H7 & H8 & H9 & H10).
    unfold well_formed, latest_pending.
    cbn [page requests timers renew_controller controller aborted created awaiting
         refreshing].
    assert (Hfresh : ~ In (created (requests fl))
                          match controller (requests fl) with
                          | Some old => old :: aborted (requests fl)
                          | None => aborted (requests fl)
                          end).
    { destruct (controller (requests fl)) as [old |] eqn:Hold.
      - intros [Heq | Hin].
        + destruct (H3 old eq_refl) as [Hlt _]. lia.
        + apply H2 in Hin. lia.
      - intros Hin. apply H2 in Hin. lia. }
    split_well_formed.
    + intros id url Hin. apply in_app_iff in Hin. destruct Hin as [Hin | [[= <- <-] | []]].
      * apply H1 in Hin. lia.
      * lia.
    + intros id Hin. destruct (controller (requests fl)) as [old |] eqn:Hold.
      * destruct Hin as [<- | Hin]; [destruct (H3 old eq_refl); lia | apply H2 in Hin; lia].
      * apply H2 in Hin. lia.
    + intros id [= <-]. split; [lia | exact Hfresh].
    + intros id Hid Hother.
      assert (Hlt : id < created (requests fl)).
      { destruct (Nat.eq_dec id (created (requests fl))) as [-> | Hne];
          [now contradiction Hother | lia]. }
      destruct (controller (requests fl)) as [old |] eqn:Hold.
      * destruct (Nat.eq_dec old id) as [-> | Hne]; [now left | right].
        apply H4; [exact Hlt | congruence].
      * apply H4; [exact Hlt | discriminate].
    + now apply started_intervals.
    + cbn. lia.
    + exact Hloading.
    + rewrite Hloading. split; [intros _ | reflexivity].
      exists (created (requests fl)).
      split; [reflexivity |]. split; [| exact Hfresh].
      left. exists (Api.url payload). apply in_app_iff. right. now left.
    + intros id Hin. apply H9 in Hin. lia.
    + intros id url Hin Hcall. apply in_app_iff in Hcall.
      destruct Hcall as [Hcall | [[= <- <-] | []]].
      * exact (H10 id url Hin Hcall).
      * apply H9 in Hin. lia.
Qed.

Lemma finish_well_formed (id : nat) (s : settlement) (fl : Flow) :
  well_formed fl -> well_formed (finish id s fl).
Proof.
  intros Hfl. unfold finish.
  destruct (lookup_awaiting id (requests fl)) as [url |] eqn:Hlookup; [| exact Hfl].
  apply lookup_awaiting_in in Hlookup.
  destruct Hfl as (H1 & H2 & H3 & H4 & H5 & H6 & H7 & H8 & H9 & H10).
  set (fl1 := set_requests (settle_awaiting id (requests fl)) fl).
  destruct (in_dec Nat.eq_dec id (aborted (requests fl))) as [Haborted | Hlive].
  - rewrite (continue_aborted id url s fl1 Haborted).
    unfold well_formed, latest_pending, fl1.
    cbn [set_requests page requests timers settle_awaiting controller aborted created
         awaiting refreshing].
    split_well_formed; auto.
    + intros id' url' Hin. apply List.filter_In in Hin. destruct Hin as [Hin _].
      now apply (H1 id' url').
    + rewrite H8. unfold latest_pending.
      split; intros (c & Hc & Hpending & Hout); exists c;
        (split; [exact Hc |]); (split; [| exact Hout]).
      * destruct Hpending as [[u Hin] | Hin]; [left; exists u | now right].
        apply List.filter_In. split; [exact Hin |]. cbn [fst].
        apply negb_true_iff, Nat.eqb_neq. intros ->. contradiction.
      * destruct Hpending as [[u Hin] | Hin]; [left; exists u | now right].
        apply List.filter_In in Hin. now destruct Hin.
    + intros id' url' Hin Hcall. apply List.filter_In in Hcall. destruct Hcall as [Hcall _].
      exact (H10 id' url' Hin Hcall).
  - assert (Hcurrent : controller (requests fl) = Some id).
    { destruct (option_eq_dec (controller (requests fl)) (Some id)) as [Heq | Hne];
        [exact Heq |].
      exfalso. apply Hlive. apply H4; [now apply (H1 id url) | exact Hne]. }
    assert (Hloading : Page.loading (page fl) = true).
    { apply H8. exists id. split; [exact Hcurrent |]. split; [| exact Hlive].
      left. now exists url. }
    destruct (continue_live id url s fl1 (not_aborted id _ Hlive))
      as [(_ & Hr & Ht & Hl) | (result & _ & _ & Hr & Ht & Hl)].
    + change (timers fl1) with (timers fl) in Ht.
      destruct (stopped_intervals (timers fl) H5) as [Hnone Htimer].
      unfold well_formed, latest_pending. rewrite Hr, Ht, Hl, Hnone, Htimer.
      unfold fl1.
      cbn [set_requests requests settle_awaiting controller aborted created awaiting
           refreshing].
      split_well_formed; auto.
      * intros id' url' Hin. apply List.filter_In in Hin. destruct Hin as [Hin _].
        now apply (H1 id' url').
      * now rewrite stopped_index.
      * split; [discriminate |]. intros (c & Hc & Hpending & _).
        rewrite Hcurrent in Hc. injection Hc as <-.
        destruct Hpending as [[u Hin] | Hin].
        -- apply List.filter_In in Hin. destruct Hin as [_ Hne]. cbn [fst] in Hne.
           now rewrite Nat.eqb_refl in Hne.
        -- destruct (H10 id url Hin Hlookup).
      * intros id' url' Hin Hcall. apply List.filter_In in Hcall.
        destruct Hcall as [Hcall _]. exact (H10 id' url' Hin Hcall).
    + change (timers fl1) with (timers fl) in Ht.
      change (page fl1) with (page fl) in Hl.
      unfold well_formed, latest_pending. rewrite Hr, Ht, Hl.
      unfold fl1.
      cbn [set_requests requests settle_awaiting await_refresh controller aborted created
           awaiting refreshing].
      split_well_formed; auto.
      * intros id' url' Hin. apply List.filter_In in Hin. destruct Hin as [Hin _].
        now apply (H1 id' url').
      * rewrite Hloading. split; [intros _ | reflexivity].
        exists id. split; [exact Hcurrent |]. split; [| exact Hlive].
        right. apply in_app_iff. right. now left.
      * intros id' Hin. apply in_app_iff in Hin. destruct Hin as [Hin | [<- | []]].
        -- now apply H9.
        -- now apply (H1 id url).
      * intros id' url' Hin Hcall. apply List.filter_In in Hcall.
        destruct Hcall as [Hcall Hne]. cbn [fst] in Hne.
        apply in_app_iff in Hin. destruct Hin as [Hin | [<- | []]].
        -- exact (H10 id' url' Hin Hcall).
        -- now rewrite Nat.eqb_refl in Hne.
Qed.

Lemma finish_refresh_well_formed (id : nat) (refresh : Page.SessionInfo + caught) (fl : Flow) :
  well_formed fl -> well_formed (finish_refresh id refresh fl).
Proof.
  intros Hfl. unfold finish_refresh.
  destruct (existsb (Nat.eqb id) (refreshing (requests fl))) eqn:Hwaiting; [| exact Hfl].
  apply is_refreshing in Hwaiting.
  pose proof Hfl as (H1 & H2 & H3 & H4 & H5 & H6 & H7 & H8 & H9 & H10).
  set (fl1 := set_requests (settle_refreshing id (requests fl)) fl).
  destruct (in_dec Nat.eq_dec id (aborted (requests fl))) as [Haborted | Hlive].
  - assert (Hfl1 : well_formed fl1).
    { unfold well_formed, latest_pending, fl1.
      cbn [set_requests page requests timers settle_refreshing controller aborted created
           awaiting refreshing].
      split_well_formed; auto.
      - rewrite H8. unfold latest_pending.
        split; intros (c & Hc & Hpending & Hout); exists c;
          (split; [exact Hc |]); (split; [| exact Hout]).
        + destruct Hpending as [Hin | Hin]; [now left | right].
          apply List.filter_In. split; [exact Hin |].
          apply negb_true_iff, Nat.eqb_neq. intros ->. contradiction.
        + destruct Hpending as [Hin | Hin]; [now left | right].
          apply List.filter_In in Hin. now destruct Hin.
      - intros id' Hin. apply List.filter_In in Hin. destruct Hin as [Hin _]. now apply H9.
      - intros id' url' Hin. apply List.filter_In in Hin. destruct Hin as [Hin _].
        now apply H10. }
    rewrite (continue_refresh_aborted id refresh fl1 Haborted).
    destruct refresh as [refreshed | err]; [| exact Hfl1].
    now apply well_formed_page.
  - assert (Hcurrent : controller (requests fl) = Some id).
    { destruct (option_eq_dec (controller (requests fl)) (Some id)) as [Heq | Hne];
        [exact Heq |].
      exfalso. apply Hlive. apply H4; [now apply H9 | exact Hne]. }
    destruct (continue_refresh_live id refresh fl1 (not_aborted id _ Hlive))
      as (Hr & Ht & Hl).
    change (timers fl1) with (timers fl) in Ht.
    destruct (stopped_intervals (timers fl) H5) as [Hnone Htimer].
    unfold well_formed, latest_pending. rewrite Hr, Ht, Hl, Hnone, Htimer.
    unfold fl1.
    cbn [set_requests requests settle_refreshing controller aborted created awaiting
         refreshing].
    split_well_formed; auto.
    + now rewrite stopped_index.
    + split; [discriminate |]. intros (c & Hc & Hpending & _).
      rewrite Hcurrent in Hc. injection Hc as <-.
      destruct Hpending as [[u Hin] | Hin].
      * destruct (H10 id u Hwaiting Hin).
      * apply List.filter_In in Hin. destruct Hin as [_ Hne].
        now rewrite Nat.eqb_refl in Hne.
    + intros id' Hin. apply List.filter_In in Hin. destruct Hin as [Hin _]. now apply H9.
    + intros id' url' Hin. apply List.filter_In in Hin. destruct Hin as [Hin _].
      now apply H10.
Qed.

Lemma tick_well_formed (id : nat) (fl : Flow) :
  well_formed fl -> well_formed (set_timers (tick id (timers fl)) fl).
Proof.
  intros (H1 & H2 & H3 & H4 & H5 & H6 & H7 & H8 & H9 & H10).
  unfold tick. destruct (existsb (Nat.eqb id) (intervals (timers fl)));
    [| split_well_formed; assumption].
  unfold well_formed, latest_pending.
  cbn [set_timers page requests timers loadingTimer intervals loadingMessageIndex].
  split_well_formed; try assumption.
  apply Nat.mod_upper_bound. discriminate.
Qed.

Lemma step_well_formed (ev : event) (fl : Flow) :
  well_formed fl -> well_formed (step ev fl).
Proof.
  intros Hfl.
  destruct ev as [detail | | id s | id refresh | id | | | s | err status]; cbn [step].
  - unfold handleSubmit. apply startAssessment_well_formed, well_formed_page;
      [apply setReportType_loading | exact Hfl].
  - unfold handleRunPaid.
    assert (Hpaid : well_formed (set_page (Page.setReportType Api.paid (page fl)) fl))
      by (apply well_formed_page; [apply setReportType_loading | exact Hfl]).
    cbn [page set_page].
    destruct (Page.lastSubmission (Page.setReportType Api.paid (page fl)));
      [now apply startAssessment_well_formed | exact Hpaid].
  - now apply finish_well_formed.
  - now apply finish_refresh_well_formed.
  - now apply tick_well_formed.
  - exact Hfl.
  - exact Hfl.
  - now apply well_formed_page.
  - now apply well_formed_page.
Qed.

Lemma reachable_well_formed (fl : Flow) : reachable fl -> well_formed fl.
Proof.
  induction 1 as [s initialUrl | ev fl _ IH].
  - unfold onMount. destruct (is_empty initialUrl); [apply well_formed_fresh |].
    apply startAssessment_well_formed, well_formed_fresh.
  - now apply step_well_formed.
Qed.

(** After [onDestroy] every controller is aborted. *)
Lemma destroyed_aborts_all (fl : Flow) (id : nat) :
  well_formed fl ->
  id < created (requests fl) ->
  In id (aborted (requests (onDestroy fl))).
Proof.
  intros (_ & _ & _ & H4 & _) Hid.
  cbn [onDestroy set_requests set_timers requests aborted].
  destruct (controller (requests fl)) as [c |] eqn:Hc.
  - destruct (Nat.eq_dec c id) as [-> | Hne]; [now left | right].
    apply H4; [exact Hid | congruence].
  - apply H4; [exact Hid | discriminate].
Qed.

(** X11. The settlement of any request but the one made last changes
    nothing on the page: in every reachable state, when the call made under a
    controller other than the current one settles, whether with a report or
    with an error, the page's variables, its view, its timers and its
    navigation are as before. *)
Theorem stale_response_is_ignored (fl : Flow) (id : nat) (s : settlement) :
  reachable fl ->
  controller (requests fl) <> Some id ->
  page (finish id s fl) = page fl
  /\ view (finish id s fl) = view fl
  /\ timers (finish id s fl) = timers fl
  /\ effects (finish id s fl) = effects fl
  /\ controller (requests (finish id s fl)) = controller (requests fl).
Proof.
  intros Hreach Hstale.
  destruct (reachable_well_formed fl Hreach) as (H1 & _ & _ & H4 & _).
  unfold finish.
  destruct (lookup_awaiting id (requests fl)) as [url |] eqn:Hlookup; [| now repeat split].
  apply lookup_awaiting_in in Hlookup.
  rewrite continue_aborted; [now repeat split |].
  cbn [set_requests requests settle_awaiting aborted].
  apply H4; [now apply (H1 id url) | exact Hstale].
Qed.

Lemma stale_response_is_ignored_witness :
  reachable MoreSamples.resubmitted
  /\ controller (requests MoreSamples.resubmitted) <> Some 0
  /\ page (finish 0 (Rejected (WithMessage (Some 500%Z) "Internal Server Error"))
             MoreSamples.resubmitted)
     = page MoreSamples.resubmitted.
Proof.
  assert (Hreach : reachable MoreSamples.resubmitted).
  { unfold MoreSamples.resubmitted. do 2 apply reachable_step. apply reachable_mounted. }
  assert (Hstale : controller (requests MoreSamples.resubmitted) <> Some 0)
    by (vm_compute; discriminate).
  split; [exact Hreach |]. split; [exact Hstale |].
  apply (stale_response_is_ignored MoreSamples.resubmitted 0 _ Hreach Hstale).
Defined.

(** X12. The loading overlay follows the latest run of [startAssessment].
    In every reachable state [loading] is set exactly while the run made
    under the current controller has not ended, its call being in flight or,
    after a paid report, its session refresh; that is exactly while the
    loading-message interval runs; no other interval is running; and the
    overlay always has a message to show.  When the call of that run settles
    with a free report or an error, [loading] is cleared and the interval
    stopped; when it settles with a paid report both stay as they are and the
    run waits for the session; and when that session refresh settles,
    whatever it brings, [loading] is cleared and the interval stopped.  The
    session refresh of any other run touches neither. *)
Theorem loading_follows_latest_run (fl : Flow) :
  reachable fl ->
  (Page.loading (page fl) = true <-> latest_pending fl)
  /\ (Page.loading (page fl) = true <-> is_Some (loadingTimer (timers fl)))
  /\ intervals (timers fl)
     = match loadingTimer (timers fl) with Some t => [t] | None => [] end
  /\ is_Some (overlay_message fl)
  /\ (forall id sanitizedUrl s,
         controller (requests fl) = Some id ->
         In (id, sanitizedUrl) (awaiting (requests fl)) ->
         match s with
         | Resolved result =>
             if isPaid (meta result)
             then Page.loading (page (finish id s fl)) = true
                  /\ timers (finish id s fl) = timers fl
                  /\ In id (refreshing (requests (finish id s fl)))
             else Page.loading (page (finish id s fl)) = false
                  /\ intervals (timers (finish id s fl)) = []
         | Rejected _ =>
             Page.loading (page (finish id s fl)) = false
             /\ intervals (timers (finish id s fl)) = []
         end)
  /\ (forall id refresh,
         controller (requests fl) = Some id ->
         In id (refreshing (requests fl)) ->
         Page.loading (page (finish_refresh id refresh fl)) = false
         /\ intervals (timers (finish_refresh id refresh fl)) = [])
  /\ (forall id refresh,
         controller (requests fl) <> Some id ->
         Page.loading (page (finish_refresh id refresh fl)) = Page.loading (page fl)
         /\ timers (finish_refresh id refresh fl) = timers fl).
Proof.
  intros Hreach.
  pose proof (reachable_well_formed fl Hreach) as Hfl.
  destruct Hfl as (H1 & H2 & H3 & H4 & H5 & H6 & H7 & H8 & H9 & H10).
  split; [exact H8 |]. split; [| split; [exact H5 | split; [| split; [| split]]]].
  - rewrite H7. destruct (loadingTimer (timers fl)); split; intros H;
      try discriminate; try reflexivity; [eauto | now destruct H].
  - unfold overlay_message. now apply lookup_lt_is_Some_2.
  - intros id url s Hcurrent Hin.
    destruct (H3 id Hcurrent) as [_ Hlive].
    assert (Hloading : Page.loading (page fl) = true).
    { apply H8. exists id. split; [exact Hcurrent |]. split; [| exact Hlive].
      left. now exists url. }
    destruct (in_awaiting_lookup id _ url Hin) as [url' Hlookup].
    unfold finish. rewrite Hlookup.
    set (fl1 := set_requests (settle_awaiting id (requests fl)) fl).
    destruct (continue_live id url' s fl1 (not_aborted id _ Hlive))
      as [(Hfree & _ & Ht & Hl) | (result & -> & Hpaid & Hr & Ht & Hl)].
    + change (timers fl1) with (timers fl) in Ht.
      assert (Hended : Page.loading (page (continue_ id url' s fl1)) = false
                       /\ intervals (timers (continue_ id url' s fl1)) = []).
      { split; [exact Hl |]. rewrite Ht. now apply stopped_intervals. }
      destruct s as [result | err]; [| exact Hended].
      now rewrite (Hfree result eq_refl).
    + rewrite Hpaid, Hr, Ht, Hl. split; [exact Hloading |]. split; [reflexivity |].
      cbn [await_refresh refreshing]. apply in_app_iff. right. now left.
  - intros id refresh Hcurrent Hin.
    destruct (H3 id Hcurrent) as [_ Hlive].
    unfold finish_refresh. rewrite (proj2 (is_refreshing id _) Hin).
    set (fl1 := set_requests (settle_refreshing id (requests fl)) fl).
    destruct (continue_refresh_live id refresh fl1 (not_aborted id _ Hlive))
      as (_ & Ht & Hl).
    change (timers fl1) with (timers fl) in Ht.
    split; [exact Hl |]. rewrite Ht. now apply stopped_intervals.
  - intros id refresh Hstale. unfold finish_refresh.
    destruct (existsb (Nat.eqb id) (refreshing (requests fl))) eqn:Hwaiting;
      [| now split].
    apply is_refreshing in Hwaiting.
    rewrite continue_refresh_aborted.
    + destruct refresh as [refreshed | err]; now split.
    + cbn [set_requests requests settle_refreshing aborted].
      apply H4; [now apply H9 | exact Hstale].
Qed.

Lemma loading_follows_latest_run_witness :
  reachable MoreSamples.refreshing_session
  /\ controller (requests MoreSamples.refreshing_session) = Some 2
  /\ lookup_awaiting 2 (requests MoreSamples.refreshing_session) = None
  /\ Page.loading (page MoreSamples.refreshing_session) = true
  /\ Page.loading
       (page (finish_refresh 2 (inl MoreSamples.one_credit_left)
                MoreSamples.refreshing_session)) = false.
Proof.
  assert (Hreach : reachable MoreSamples.refreshing_session).
  { unfold MoreSamples.refreshing_session, MoreSamples.resubmitted.
    do 4 apply reachable_step. apply reachable_mounted. }
  split; [exact Hreach |].
  split; [vm_compute; reflexivity |]. split; [vm_compute; reflexivity |].
  split; [vm_compute; reflexivity |].
  destruct (loading_follows_latest_run _ Hreach) as (_ & _ & _ & _ & _ & Hsettle & _).
  apply (Hsettle 2 (inl MoreSamples.one_credit_left)).
  - vm_compute. reflexivity.
  - vm_compute. now left.
Defined.

(** A session that arrives for a run the visitor has since replaced is still
    written, while the overlay of the newer run stays up. *)
Example late_session_is_still_written :
  controller (requests MoreSamples.submitted_while_refreshing) = Some 3
  /\ Page.session
       (page (finish_refresh 2 (inl MoreSamples.one_credit_left)
                MoreSamples.submitted_while_refreshing))
     = MoreSamples.one_credit_left
  /\ Page.loading
       (page (finish_refresh 2 (inl MoreSamples.one_credit_left)
                MoreSamples.submitted_while_refreshing))
     = true.
Proof. repeat split; vm_compute; reflexivity. Qed.

(** X13. What the runs of [startAssessment] still do once the page is
    destroyed.  No interval is left running.  A call of [assessListing] that
    settles afterwards changes neither the page's variables, nor its view,
    nor its timers, nor its navigation.  A session refresh that settles
    afterwards changes none of the view, the timers and the navigation
    either, and no variable but [session]: when it succeeds for a run that
    waited for it, [session] is overwritten with what it brought. *)
Theorem settlements_after_destroy (fl : Flow) (id : nat) :
  reachable fl ->
  intervals (timers (onDestroy fl)) = []
  /\ loadingTimer (timers (onDestroy fl)) = None
  /\ (forall s,
         page (finish id s (onDestroy fl)) = page (onDestroy fl)
         /\ view (finish id s (onDestroy fl)) = view (onDestroy fl)
         /\ timers (finish id s (onDestroy fl)) = timers (onDestroy fl)
         /\ effects (finish id s (onDestroy fl)) = effects (onDestroy fl))
  /\ (forall refresh,
         view (finish_refresh id refresh (onDestroy fl)) = view (onDestroy fl)
         /\ timers (finish_refresh id refresh (onDestroy fl)) = timers (onDestroy fl)
         /\ effects (finish_refresh id refresh (onDestroy fl)) = effects (onDestroy fl)
         /\ page (finish_refresh id refresh (onDestroy fl))
            = match refresh with
              | inl refreshed =>
                  if existsb (Nat.eqb id) (refreshing (requests (onDestroy fl)))
                  then Page.with_session refreshed (page (onDestroy fl))
                  else page (onDestroy fl)
              | inr _ => page (onDestroy fl)
              end).
Proof.
  intros Hreach.
  pose proof (reachable_well_formed fl Hreach) as Hfl.
  pose proof Hfl as (H1 & _ & _ & _ & H5 & _ & _ & _ & H9 & _).
  destruct (stopped_intervals (timers fl) H5) as [Hnone Htimer].
  split; [exact Hnone |]. split; [exact Htimer |]. split.
  - intros s. unfold finish.
    destruct (lookup_awaiting id (requests (onDestroy fl))) as [url |] eqn:Hlookup;
      [| now repeat split].
    apply lookup_awaiting_in in Hlookup. cbn in Hlookup.
    rewrite continue_aborted; [now repeat split |].
    apply (destroyed_aborts_all fl id Hfl). now apply (H1 id url).
  - intros refresh. unfold finish_refresh.
    change (refreshing (requests (onDestroy fl))) with (refreshing (requests fl)).
    destruct (existsb (Nat.eqb id) (refreshing (requests fl))) eqn:Hwaiting.
    + apply is_refreshing in Hwaiting.
      rewrite continue_refresh_aborted
        by (apply (destroyed_aborts_all fl id Hfl); now apply H9).
      destruct refresh as [refreshed | err]; now repeat split.
    + destruct refresh as [refreshed | err]; now repeat split.
Qed.

Lemma settlements_after_destroy_witness :
  reachable MoreSamples.refreshing_session
  /\ intervals (timers (onDestroy MoreSamples.refreshing_session)) = []
  /\ Page.session
       (page (finish_refresh 2 (inl MoreSamples.one_credit_left)
                (onDestroy MoreSamples.refreshing_session)))
     = MoreSamples.one_credit_left
  /\ Page.loading
       (page (finish_refresh 2 (inl MoreSamples.one_credit_left)
                (onDestroy MoreSamples.refreshing_session)))
     = true.
Proof.
  assert (Hreach : reachable MoreSamples.refreshing_session).
  { unfold MoreSamples.refreshing_session, MoreSamples.resubmitted.
    do 4 apply reachable_step. apply reachable_mounted. }
  split; [exact Hreach |].
  destruct (settlements_after_destroy MoreSamples.refreshing_session 2 Hreach)
    as (Hnone & _ & _ & Hrefresh).
  split; [exact Hnone |].
  destruct (Hrefresh (inl MoreSamples.one_credit_left)) as (_ & _ & _ & Hpage).
  rewrite Hpage. split; vm_compute; reflexivity.
Defined.

(** X20. What the settlement of the latest request leaves on the page.  A
    report replaces the one in view, records its URL, re-opens the upgrade
    drawer and clears the upgrade status, leaving the session and [error] as
    they were; a paid report then waits for the session refresh, and when
    that succeeds the refreshed session is installed.  A rejection leaves the
    report in view as it was: a rejection with status 302 navigates to
    [/not-enough-credits] and sets no error, any other sets [error] to the
    message thrown, or to a fixed text when what was thrown has none. *)
Theorem latest_settlement (fl : Flow) (id : nat) (sanitizedUrl : string) (s : settlement) :
  reachable fl ->
  controller (requests fl) = Some id ->
  lookup_awaiting id (requests fl) = Some sanitizedUrl ->
  match s with
  | Resolved result =>
      reportEnvelope (view (finish id s fl)) = Some result
      /\ assessmentUrl (view (finish id s fl)) = Some sanitizedUrl
      /\ upgradeDismissed (view (finish id s fl)) = false
      /\ Page.session (page (finish id s fl)) = Page.session (page fl)
      /\ Page.error (page (finish id s fl)) = Page.error (page fl)
      /\ Page.upgradeStatus (page (finish id s fl)) = None
      /\ (isPaid (meta result) = true ->
          In id (refreshing (requests (finish id s fl)))
          /\ forall refreshed,
               Page.session (page (finish_refresh id (inl refreshed) (finish id s fl)))
               = refreshed
               /\ Page.upgradeStatus
                    (page (finish_refresh id (inl refreshed) (finish id s fl))) = None
               /\ view (finish_refresh id (inl refreshed) (finish id s fl))
                  = view (finish id s fl))
  | Rejected err =>
      view (finish id s fl) = view fl
      /\ match err with
         | WithMessage status message =>
             if is_redirect status
             then Page.error (page (finish id s fl)) = Page.error (page fl)
                  /\ effects (finish id s fl) = effects fl ++ [Goto "/not-enough-credits"]
             else Page.error (page (finish id s fl)) = Some message
                  /\ effects (finish id s fl) = effects fl
         | Opaque =>
             Page.error (page (finish id s fl))
             = Some "Unexpected error while assessing the listing."
             /\ effects (finish id s fl) = effects fl
         end
  end.
Proof.
  intros Hreach Hcurrent Hlookup.
  destruct (reachable_well_formed fl Hreach) as (_ & _ & H3 & _).
  destruct (H3 id Hcurrent) as [_ Hlive]. apply not_aborted in Hlive.
  unfold finish. rewrite Hlookup. unfold continue_.
  cbn [set_requests requests settle_awaiting aborted]. rewrite Hlive.
  destruct s as [result | err].
  - destruct (isPaid (meta result)) eqn:Hpaid.
    + cbn. do 6 (split; [reflexivity |]). intros _.
      assert (Hin : In id (refreshing (requests fl) ++ [id]))
        by (apply in_app_iff; right; now left).
      split; [exact Hin |]. intros refreshed.
      unfold finish_refresh.
      cbn [set_requests requests await_refresh settle_awaiting refreshing apply_result
           set_page set_view add_effect].
      rewrite (is_aborted id _ Hin).
      unfold continue_refresh.
      cbn [set_requests set_page requests settle_refreshing await_refresh settle_awaiting
           aborted].
      rewrite Hlive. now repeat split.
    + cbn. do 6 (split; [reflexivity |]). discriminate.
  - destruct err as [status message |]; cbn; [destruct (is_redirect status); cbn |];
      now repeat split.
Qed.

Lemma latest_settlement_witness :
  reachable MoreSamples.resubmitted
  /\ controller (requests MoreSamples.resubmitted) = Some 1
  /\ lookup_awaiting 1 (requests MoreSamples.resubmitted)
     = Some "https://www.airbnb.com/rooms/2"
  /\ effects (finish 1 (Rejected (WithMessage (Some 302%Z) "Found")) MoreSamples.resubmitted)
     = effects MoreSamples.resubmitted ++ [Goto "/not-enough-credits"].
Proof.
  assert (Hreach : reachable MoreSamples.resubmitted).
  { unfold MoreSamples.resubmitted. do 2 apply reachable_step. apply reachable_mounted. }
  assert (Hcurrent : controller (requests MoreSamples.resubmitted) = Some 1)
    by (vm_compute; reflexivity).
  assert (Hlookup : lookup_awaiting 1 (requests MoreSamples.resubmitted)
                    = Some "https://www.airbnb.com/rooms/2")
    by (vm_compute; reflexivity).
  split; [exact Hreach |]. split; [exact Hcurrent |]. split; [exact Hlookup |].
  pose proof (latest_settlement MoreSamples.resubmitted 1 _
                (Rejected (WithMessage (Some 302%Z) "Found")) Hreach Hcurrent Hlookup)
    as Hsettled.
  cbn beta iota in Hsettled. destruct Hsettled as [_ Hredirect].
  change (is_redirect (Some 302%Z)) with true in Hredirect. now destruct Hredirect.
Defined.

(** X14. The upgrade drawer is revealed only for a free report that hides at
    least one fix, after the visitor has scrolled and until the drawer is
    dismissed; its headline count is never below 1, and whenever the drawer
    is revealed the count is the report's own hidden-fix count, never the
    fallback of 8. *)
Theorem upgrade_prompt_count (fl : Flow) :
  (1 <= upgradeHiddenCount (reportEnvelope (view fl)))%Z
  /\ (shouldRevealUpgrade fl = true ->
      exists envelope,
        reportEnvelope (view fl) = Some envelope
        /\ isPaid (meta envelope) = false
        /\ hiddenFixCount (meta envelope)
           = Some (upgradeHiddenCount (reportEnvelope (view fl)))
        /\ hasScrolledForUpgrade (view fl) = true
        /\ upgradeDismissed (view fl) = false).
Proof.
  split.
  - unfold upgradeHiddenCount. destruct (reportEnvelope (view fl)) as [envelope |]; [| lia].
    destruct (hiddenFixCount (meta envelope)) as [n |]; [| lia].
    destruct (n =? 0)%Z; lia.
  - unfold shouldRevealUpgrade, shouldShowUpgrade, upgradeHiddenCount.
    destruct (reportEnvelope (view fl)) as [envelope |]; [| discriminate].
    intros H. apply andb_true_iff in H. destruct H as [H Hdismissed].
    apply andb_true_iff in H. destruct H as [H Hscrolled].
    apply andb_true_iff in H. destruct H as [Hfree Hhidden].
    exists envelope. split; [reflexivity |].
    split; [now apply negb_true_iff |].
    split; [| split; [exact Hscrolled | now apply negb_true_iff]].
    destruct (hiddenFixCount (meta envelope)) as [n |]; [| discriminate].
    apply Z.ltb_lt in Hhidden.
    destruct (Z.eqb_spec n 0) as [-> | _]; [lia |]. f_equal. lia.
Qed.

Lemma upgrade_prompt_count_witness :
  shouldRevealUpgrade MoreSamples.previewing = true
  /\ exists envelope,
       reportEnvelope (view MoreSamples.previewing) = Some envelope
       /\ hiddenFixCount (meta envelope)
          = Some (upgradeHiddenCount (reportEnvelope (view MoreSamples.previewing))).
Proof.
  assert (Hshown : shouldRevealUpgrade MoreSamples.previewing = true)
    by (vm_compute; reflexivity).
  split; [exact Hshown |].
  destruct (upgrade_prompt_count MoreSamples.previewing) as [_ Hcount].
  destruct (Hcount Hshown) as (envelope & Henvelope & _ & Hhidden & _).
  eauto.
Defined.

End PageFlowFacts.

(* ===================================================================== *)
(** * The form, the drawer and the page together *)
(* ===================================================================== *)

Module WiringFacts.
Import JsString Js Shapes.

(** X15. Submitting the form always asks for the free report of the trimmed
    URL.  With a blank URL, or while loading, the form dispatches nothing.
    Otherwise, whatever state the page is in and whoever is signed in, the
    page hands exactly one payload to [assessListing], whose request body is
    [{url, report_type: 'free', force}] with the trimmed URL and the form's
    check box, and remembers that submission. *)
Theorem form_submission_is_free (loading : bool) (form : Form.FormState)
    (st : Page.State) (env : option string) :
  match Form.handleSubmit loading form with
  | None => is_empty (trim (Form.url form)) || loading = true
  | Some detail =>
      loading = false
      /\ snd (Page.handleSubmit detail st)
         = [ {| Api.url := trim (Form.url form); Api.reportType := Api.free;
                Api.force := Some (Form.force form) |} ]
      /\ Forall (fun payload =>
                   Api.body (Api.init (Api.assess_call env payload))
                   = Some (VObj [("url", VStr (trim (Form.url form)));
                                 ("report_type", VStr "free");
                                 ("force", VBool (Form.force form))]))
                (snd (Page.handleSubmit detail st))
      /\ Page.lastSubmission (fst (Page.handleSubmit detail st))
         = Some {| Page.sub_url := trim (Form.url form);
                   Page.sub_force := Form.force form |}
  end.
Proof.
  unfold Form.handleSubmit, Form.disableSubmit, Form.trimmedUrl.
  destruct (is_empty (trim (Form.url form))) eqn:Hblank; [reflexivity |].
  destruct loading; [reflexivity |]. cbn [orb].
  split; [reflexivity |].
  assert (Hsent : snd (Page.handleSubmit
                         {| Page.sub_url := trim (Form.url form);
                            Page.sub_force := Form.force form |} st)
                  = [ {| Api.url := trim (Form.url form); Api.reportType := Api.free;
                         Api.force := Some (Form.force form) |} ]).
  { unfold Page.handleSubmit, Page.startAssessment. cbn [Page.sub_url Page.sub_force].
    rewrite PageFacts.trim_idempotent, Hblank. reflexivity. }
  split; [exact Hsent |]. split.
  - rewrite Hsent. repeat constructor.
  - unfold Page.handleSubmit. rewrite PageFacts.startAssessment_lastSubmission.
    cbn [Page.sub_url Page.sub_force]. now rewrite PageFacts.trim_idempotent, Hblank.
Qed.

(** X16. The drawer offers "Run paid report" exactly when the page's own
    check of the session will pass.  On a reachable page whose session the
    drawer shows: the button is there exactly for an authenticated session
    with at least one credit; pressing it while the drawer is not loading,
    after a listing was submitted, sends exactly one request, for the paid
    report of that listing; and while the drawer is loading neither of its
    buttons dispatches anything. *)
Theorem run_paid_button_sends (st : Page.State) (props : Drawer.Props) :
  Page.reachable st ->
  Drawer.visible props = true ->
  Drawer.session props = Page.session st ->
  (Drawer.shown props = Drawer.RunPaidButton <-> Page.paid_ready (Page.session st) = true)
  /\ (forall sub,
         Drawer.shown props = Drawer.RunPaidButton ->
         Drawer.loading props = false ->
         Page.lastSubmission st = Some sub ->
         Drawer.runPaid props = Some Drawer.RunPaid
         /\ snd (Page.handleRunPaid st)
            = [ {| Api.url := Page.sub_url sub; Api.reportType := Api.paid;
                   Api.force := Some (Page.sub_force sub) |} ])
  /\ (Drawer.loading props = true ->
      Drawer.runPaid props = None /\ Drawer.startCheckout props = None).
Proof.
  intros Hreach Hvisible Hsession.
  assert (Hshown : Drawer.shown props = Drawer.RunPaidButton
                   <-> Page.paid_ready (Page.session st) = true).
  { unfold Drawer.shown, Page.paid_ready. rewrite Hvisible, Hsession. cbn [negb].
    destruct (Page.authenticated (Page.session st)); cbn [negb andb].
    - destruct (Z.ltb_spec 0 (Page.credits_available (Page.session st))) as [Hpos | Hnone],
               (Z.leb_spec 1 (Page.credits_available (Page.session st))) as [Hone | Hzero];
        split; intros Hgoal; try reflexivity; try discriminate; lia.
    - destruct (Drawer.status props) as [text |]; [destruct (is_empty text) |];
        split; discriminate. }
  split; [exact Hshown |]. split.
  - intros sub Hbutton Hidle Hlast.
    unfold Drawer.runPaid. rewrite Hidle. split; [reflexivity |].
    apply Hshown in Hbutton.
    pose proof (PageFacts.reachable_sanitized st Hreach) as Hsan.
    unfold Page.sanitized in Hsan. rewrite Hlast in Hsan. destruct Hsan as [Htrim Hurl].
    unfold Page.handleRunPaid. rewrite PageFacts.setReportType_lastSubmission, Hlast.
    pose proof (PageFacts.startAssessment_paid sub (Page.setReportType Api.paid st) eq_refl)
      as Hrun.
    rewrite Htrim in Hrun. specialize (Hrun Hurl).
    change (Page.session (Page.setReportType Api.paid st)) with (Page.session st) in Hrun.
    now rewrite Hbutton in Hrun.
  - intros Hbusy. unfold Drawer.runPaid, Drawer.startCheckout. now rewrite Hbusy.
Qed.

Lemma run_paid_button_sends_witness :
  Page.reachable (Samples.PageSamples.after_free_report MoreSamples.signed_in)
  /\ snd (Page.handleRunPaid (Samples.PageSamples.after_free_report MoreSamples.signed_in))
     = [ {| Api.url := "https://www.airbnb.com/rooms/12345678";
            Api.reportType := Api.paid; Api.force := Some false |} ].
Proof.
  assert (Hreach : Page.reachable
                     (Samples.PageSamples.after_free_report MoreSamples.signed_in)).
  { unfold Samples.PageSamples.after_free_report.
    apply Page.reachable_step, Page.reachable_mounted. }
  split; [exact Hreach |].
  destruct (run_paid_button_sends
              (Samples.PageSamples.after_free_report MoreSamples.signed_in)
              {| Drawer.hiddenCount := 3; Drawer.session := MoreSamples.signed_in;
                 Drawer.visible := true; Drawer.loading := false;
                 Drawer.status := None; Drawer.error := None |}
              Hreach eq_refl eq_refl) as (_ & Hpress & _).
  apply (Hpress {| Page.sub_url := "https://www.airbnb.com/rooms/12345678";
                   Page.sub_force := false |}); vm_compute; reflexivity.
Defined.

(** X17. The drawer never asks for a magic link for a blank address: its form
    dispatches nothing when the address is empty once trimmed, and otherwise
    dispatches the trimmed address, which [requestMagicLink] posts as the
    [email] of its request. *)
Theorem magic_link_email_is_trimmed (email : string) (env : option string) :
  match Drawer.handleSubmit email with
  | None => is_empty (trim email) = true
  | Some event =>
      event = Drawer.RequestMagicLink (trim email)
      /\ is_empty (trim email) = false
      /\ trim (trim email) = trim email
      /\ Api.body (Api.init (ApiMore.magic_link_call env (trim email)))
         = Some (VObj [("email", VStr (trim email))])
  end.
Proof.
  unfold Drawer.handleSubmit.
  destruct (is_empty (trim email)) eqn:Hblank; [reflexivity |].
  repeat split. apply PageFacts.trim_idempotent.
Qed.

End WiringFacts.

(* ===================================================================== *)
(** * More properties of the proxy and of the layout *)
(* ===================================================================== *)

Module ShellFacts.
Import JsString Js Shapes.

Lemma strip_empty (s : string) :
  is_empty (strip_trailing_slashes s) = all_slashes s.
Proof.
  induction s as [| c r IH]; [reflexivity |].
  cbn [strip_trailing_slashes all_slashes]. rewrite <- IH.
  destruct (is_slash c); cbn [andb]; [| reflexivity].
  destruct (is_empty (strip_trailing_slashes r)); reflexivity.
Qed.

(** X18. The backend base the proxy resolves never ends in a slash.  It is
    [http://127.0.0.1:8000] when [BACKEND_API_BASE] is unset or blank, and
    the trimmed setting without its trailing slashes otherwise; so it is empty
    exactly when the setting, once trimmed, is a non-empty run of slashes. *)
Theorem backend_base_shape (env : option string) :
  ends_with_slash (Proxy.resolveBackendBase env) = false
  /\ (match env with
      | None => Proxy.resolveBackendBase env = "http://127.0.0.1:8000"
      | Some s =>
          if is_empty (trim s)
          then Proxy.resolveBackendBase env = "http://127.0.0.1:8000"
          else Proxy.resolveBackendBase env = strip_trailing_slashes (trim s)
      end)
  /\ (is_empty (Proxy.resolveBackendBase env) = true
      <-> exists s, env = Some s
                    /\ is_empty (trim s) = false
                    /\ all_slashes (trim s) = true).
Proof.
  unfold Proxy.resolveBackendBase.
  destruct env as [s |].
  - destruct (is_empty (trim s)) eqn:Hblank.
    + split; [reflexivity |]. split; [reflexivity |].
      split; [discriminate |]. intros (s' & [= <-] & Hs & _). congruence.
    + split; [apply ApiFacts.strip_no_trailing_slash |]. split; [reflexivity |].
      rewrite strip_empty. split.
      * intros Hall. exists s. now repeat split.
      * now intros (s' & [= <-] & _ & Hall).
  - split; [reflexivity |]. split; [reflexivity |].
    split; [discriminate |]. intros (s & Hs & _). discriminate.
Qed.

(** X19. Logging out shows whatever the session endpoint says next.  The
    response to the logout request is not looked at: whether it is ok or not,
    the session is fetched again, and when that answers not-ok, or with a
    falsy [authenticated], the layout and the store both hold one and the same
    unauthenticated session.  When either request fails to be made, the
    handler throws and the session shown stays as it was. *)
Theorem logout_refreshes_session
    (fetch : Api.FetchCall -> option Api.Response) (env : option string)
    (st : Layout.State) :
  (fetch (ApiMore.logout_call env) = None ->
   Layout.handleLogout fetch env st = (st, Layout.Threw))
  /\ (forall answer,
         fetch (ApiMore.logout_call env) = Some answer ->
         (fetch (Api.session_call env) = None ->
          Layout.handleLogout fetch env st = (st, Layout.Threw))
         /\ (forall response,
                fetch (Api.session_call env) = Some response ->
                Api.ok response = false
                \/ (exists data,
                       Api.json response = Some data
                       /\ truthy (opt_member data "authenticated") = false) ->
                exists info,
                  Layout.handleLogout fetch env st
                  = ({| Layout.session := info; Layout.store := info |}, Layout.Completed)
                  /\ Api.authenticated info = false)).
Proof.
  unfold Layout.handleLogout, ApiMore.logout, ApiMore.send, Api.fetchSession,
    Api.await_fetch.
  split.
  - intros Hlogout. now rewrite Hlogout.
  - intros answer Hlogout. rewrite Hlogout. cbn [bind]. split.
    + intros Hsession. now rewrite Hsession.
    + intros response Hsession Hout. rewrite Hsession. cbn [bind].
      destruct (Api.ok response) eqn:Hok; cbn [negb].
      * destruct Hout as [Hno | (data & Hjson & Hfalsy)]; [discriminate |].
        unfold Api.read_json. rewrite Hjson. cbn [bind].
        eexists. split; [reflexivity | exact Hfalsy].
      * eexists. split; reflexivity.
Qed.

Lemma logout_refreshes_session_witness :
  exists answer response info,
    MoreSamples.signed_out_backend (ApiMore.logout_call None) = Some answer
    /\ MoreSamples.signed_out_backend (Api.session_call None) = Some response
    /\ Api.ok response = false
    /\ Layout.handleLogout MoreSamples.signed_out_backend None
         {| Layout.session := {| Api.authenticated := true; Api.email := VStr "host@example.com";
                                 Api.credits := None |};
            Layout.store := {| Api.authenticated := true;
                               Api.email := VStr "host@example.com";
                               Api.credits := None |} |}
       = ({| Layout.session := info; Layout.store := info |}, Layout.Completed)
    /\ Api.authenticated info = false.
Proof.
  destruct (logout_refreshes_session MoreSamples.signed_out_backend None
              {| Layout.session := {| Api.authenticated := true;
                                      Api.email := VStr "host@example.com";
                                      Api.credits := None |};
                 Layout.store := {| Api.authenticated := true;
                                    Api.email := VStr "host@example.com";
                                    Api.credits := None |} |}) as [_ Hanswered].
  destruct (Hanswered _ eq_refl) as [_ Hrefreshed].
  destruct (Hrefreshed _ eq_refl (or_introl eq_refl)) as (info & Hlogout & Hinfo).
  do 3 eexists. split; [reflexivity |]. split; [reflexivity |]. split; [reflexivity |].
  split; [exact Hlogout | exact Hinfo].
Defined.

End ShellFacts.
